(** * paintshop: the raster / mask compositing core of the editor

    A shallow embedding of the client-side engine of the editor
    (utils/imageUtils.js, stores/editorStore.js,
    components/Editor/Canvas.jsx, components/Editor/LayerPanel.jsx and
    components/UI/Header.jsx) together with the properties its
    specification states about it.

    Conventions of the embedding.
    - A JavaScript object is a finite map from property names to values;
      a missing property reads as [VUndefined].
    - A typed pixel array ([Uint8ClampedArray]) is a [list Z]; reads out of
      range give [undefined] (here [None], which the arithmetic treats as
      NaN), writes out of range are dropped, stored numbers are clamped to
      0..255 and NaN is stored as 0.
    - A base64 PNG string is represented by the bitmap it encodes, an
      [ImageData] with straight (not premultiplied) RGBA bytes; PNG is
      lossless, so that is also what an [Image] loaded from it holds.
    - The 2D canvas is modelled after the HTML standard: a premultiplied
      bitmap, Porter-Duff compositing, read-back to straight colours.
      What the standard leaves to the rendering engine is a parameter
      ([Canvas2D.Engine]).
    - Promises are represented by the value they settle to. *)

From stdpp Require Import base numbers list strings gmap fin_maps pretty.
From Stdlib Require Import ZArith Lia QArith Qcanon.

Close Scope Qc_scope.
Close Scope Q_scope.

(** ** Part I: the program *)

(** *** JavaScript values *)

Module Js.

(** How a call ends: with a value, or with an exception. *)
Inductive completion (A : Type) : Type :=
| Normal (v : A)
| Throw (msg : string).
Global Arguments Normal {A} v.
Global Arguments Throw {A} msg.

(** An integer-valued JS number, or NaN ([None]). *)
Definition number : Type := option Z.

Definition sub (a b : number) : number :=
  match a, b with
  | Some x, Some y => Some (x - y)%Z
  | _, _ => None
  end.

Definition Math_max (a b : number) : number :=
  match a, b with
  | Some x, Some y => Some (Z.max x y)
  | _, _ => None
  end.

Definition Math_min (a b : number) : number :=
  match a, b with
  | Some x, Some y => Some (Z.min x y)
  | _, _ => None
  end.

Definition Math_abs (a : number) : number :=
  match a with
  | Some x => Some (Z.abs x)
  | None => None
  end.

(** Conversion performed by a store into a [Uint8ClampedArray]. *)
Definition toUint8Clamped (v : number) : Z :=
  match v with
  | Some z => Z.max 0 (Z.min 255 z)
  | None => 0%Z
  end.

End Js.

(** *** Pixel buffers *)

(** [ImageData]: [data] holds R, G, B, A of pixel [p] at indices
    [4p .. 4p+3], row after row. *)
Record ImageData : Type := mkImageData {
  width : nat;
  height : nat;
  data : list Z
}.

Global Instance ImageData_eq_dec : EqDecision ImageData.
Proof. solve_decision. Defined.

(** [ctx.createImageData(w, h)]: transparent black. *)
Definition createImageData (w h : nat) : ImageData :=
  {| width := w; height := h; data := replicate (4 * (w * h)) 0%Z |}.

(** What a decoded image satisfies: four bytes per pixel. *)
Definition wf_image (img : ImageData) : Prop :=
  length (data img) = 4 * (width img * height img) /\
  Forall (fun v => (0 <= v <= 255)%Z) (data img).

Definition red_at (img : ImageData) (p : nat) : option Z := data img !! (4 * p).
Definition green_at (img : ImageData) (p : nat) : option Z := data img !! (4 * p + 1).
Definition blue_at (img : ImageData) (p : nat) : option Z := data img !! (4 * p + 2).
Definition alpha_at (img : ImageData) (p : nat) : option Z := data img !! (4 * p + 3).

(** *** Values and objects *)

(** The JS values the editor stores in a layer. [VNum] carries the
    integer-valued numbers the modelled functions create or compare
    ([order], indices, lengths, the opacity [1]); [VImage png] is the
    string that is the base64 PNG encoding of [png]. *)
Inductive value : Type :=
| VUndefined
| VNull
| VBool (b : bool)
| VNum (n : Z)
| VStr (s : string)
| VImage (png : ImageData).

Global Instance value_eq_dec : EqDecision value.
Proof. solve_decision. Defined.

(** A layer is a plain object: [{ id, name, type, image_base64, visible,
    opacity, blend_mode, order, ... }]. *)
Abbreviation Layer := (gmap string value) (only parsing).

Module Obj.

(** Property read [o.k]. *)
Definition get (o : Layer) (k : string) : value := default VUndefined (o !! k).

(** Object spread [{ ...o, ...updates }]. *)
Definition spread (o updates : Layer) : Layer := updates ∪ o.

(** [a === b] (no NaN among the modelled values). *)
Definition strict_eq (a b : value) : bool := bool_decide (a = b).

(** ToBoolean. *)
Definition truthy (v : value) : bool :=
  match v with
  | VUndefined | VNull => false
  | VBool b => b
  | VNum n => negb (n =? 0)%Z
  | VStr s => negb (String.eqb s "")
  | VImage _ => true
  end.

(** ToNumber, on the values a layer's [order] takes; a string is not a
    number here (numeric strings never reach [order]). *)
Definition toNumber (v : value) : Js.number :=
  match v with
  | VNum n => Some n
  | VNull => Some 0%Z
  | VBool b => Some (if b then 1 else 0)%Z
  | VUndefined | VStr _ | VImage _ => None
  end.

End Obj.

(** *** Arrays *)

Module Array.

Section Ops.
Context {A : Type}.

(** The start position [splice] computes from its first argument:
    negative counts from the end, and the result is clamped to
    [0 .. length]. *)
Definition actualStart (len : nat) (start : Z) : nat :=
  if (start <? 0)%Z then Z.to_nat (Z.max (Z.of_nat len + start) 0)
  else Z.to_nat (Z.min start (Z.of_nat len)).

(** [const [removed] = arr.splice(start, 1)]: the removed element
    ([None] when nothing was there to remove) and the array left. *)
Definition splice_out (start : Z) (arr : list A) : option A * list A :=
  let k := actualStart (length arr) start in
  (arr !! k, delete k arr).

(** [arr.splice(start, 0, x)]. *)
Definition splice_in (start : Z) (x : A) (arr : list A) : list A :=
  let k := actualStart (length arr) start in
  take k arr ++ x :: drop k arr.

(** [sort(cmp)] is stable: an element goes after every element already
    placed that the comparator does not put behind it. A comparator
    result of NaN counts as 0. (For a comparator that is not a
    consistent order the engine's choice is its own; the panel's
    comparators are consistent whenever every [order] is a number.) *)
Definition behind (cmp : A -> A -> Js.number) (y x : A) : bool :=
  match cmp y x with
  | Some v => (0 <? v)%Z
  | None => false
  end.

Fixpoint place (cmp : A -> A -> Js.number) (x : A) (sorted : list A) : list A :=
  match sorted with
  | [] => [x]
  | y :: rest => if behind cmp y x then x :: y :: rest else y :: place cmp x rest
  end.

Definition sort (cmp : A -> A -> Js.number) (arr : list A) : list A :=
  foldl (fun sorted x => place cmp x sorted) [] arr.

(** [arr.find(p)]. *)
Fixpoint find (p : A -> bool) (arr : list A) : option A :=
  match arr with
  | [] => None
  | x :: rest => if p x then Some x else find p rest
  end.
End Ops.

End Array.

(** *** The 2D canvas of the browser *)

Module Canvas2D.

(** A pixel: four 8-bit channels. *)
Record Pixel : Type := mkPixel { red : Z; green : Z; blue : Z; alpha : Z }.

Definition transparent : Pixel := {| red := 0; green := 0; blue := 0; alpha := 0 |}.

(** What the source leaves to the rendering engine: the 8-bit product
    of two channel fractions ([mul255 x y] stands for x*y/255 in the
    engine's rounding), the read-back of a colour stored premultiplied,
    the resampling done by a scaling [drawImage], the drawing of one
    pixel under a [globalAlpha] and a [globalCompositeOperation] other
    than the ones written out in [blend] below, and which values the
    two context attributes accept. *)
Class Engine : Type := {
  mul255 : Z -> Z -> Z;
  unpremultiply : Z -> Z -> Z;
  resample : ImageData -> nat -> nat -> ImageData;
  blendOther : value -> value -> Pixel -> Pixel -> Pixel;
  validAlpha : value -> bool;
  validOperation : value -> bool
}.

(** A canvas with its 2D context. The bitmap keeps colours
    premultiplied by alpha, one [Pixel] per position, row after row. *)
Record Context : Type := mkContext {
  canvas_width : nat;
  canvas_height : nat;
  pixels : list Pixel;
  globalAlpha : value;
  globalCompositeOperation : value
}.

Section WithEngine.
Context {E : Engine}.

Definition clamp8 (v : Z) : Z := Z.max 0 (Z.min 255 v).

(** Pixel [p] of a flat RGBA array; transparent black where the array
    has no such pixel. *)
Definition pixelOf (d : list Z) (p : nat) : Pixel :=
  {| red := default 0%Z (d !! (4 * p));
     green := default 0%Z (d !! (4 * p + 1));
     blue := default 0%Z (d !! (4 * p + 2));
     alpha := default 0%Z (d !! (4 * p + 3)) |}.

Definition premultiply (s : Pixel) : Pixel :=
  {| red := mul255 (red s) (alpha s);
     green := mul255 (green s) (alpha s);
     blue := mul255 (blue s) (alpha s);
     alpha := alpha s |}.

Definition straight (d : Pixel) : list Z :=
  [unpremultiply (red d) (alpha d); unpremultiply (green d) (alpha d);
   unpremultiply (blue d) (alpha d); alpha d].

(** [document.createElement('canvas')] with [width], [height] set:
    transparent black, default context attributes. *)
Definition createCanvas (w h : nat) : Context :=
  {| canvas_width := w; canvas_height := h;
     pixels := replicate (w * h) transparent;
     globalAlpha := VNum 1;
     globalCompositeOperation := VStr "source-over" |}.

(** [ctx.globalCompositeOperation = v]; a value the engine does not
    know is ignored. *)
Definition set_globalCompositeOperation (v : value) (ctx : Context) : Context :=
  {| canvas_width := canvas_width ctx; canvas_height := canvas_height ctx;
     pixels := pixels ctx; globalAlpha := globalAlpha ctx;
     globalCompositeOperation :=
       if validOperation v then v else globalCompositeOperation ctx |}.

(** [ctx.globalAlpha = v]. *)
Definition set_globalAlpha (v : value) (ctx : Context) : Context :=
  {| canvas_width := canvas_width ctx; canvas_height := canvas_height ctx;
     pixels := pixels ctx;
     globalAlpha := if validAlpha v then v else globalAlpha ctx;
     globalCompositeOperation := globalCompositeOperation ctx |}.

(** Porter-Duff compositing of the source pixel [s] (straight colour,
    as decoded) onto the destination [d] (premultiplied). *)
Definition blend (ga op : value) (d s : Pixel) : Pixel :=
  let s' := premultiply s in
  let keep := (255 - alpha s)%Z in
  if decide (ga = VNum 1) then
    if decide (op = VStr "source-over") then
      {| red := clamp8 (red s' + mul255 (red d) keep);
         green := clamp8 (green s' + mul255 (green d) keep);
         blue := clamp8 (blue s' + mul255 (blue d) keep);
         alpha := clamp8 (alpha s' + mul255 (alpha d) keep) |}
    else if decide (op = VStr "destination-in") then
      {| red := mul255 (red d) (alpha s);
         green := mul255 (green d) (alpha s);
         blue := mul255 (blue d) (alpha s);
         alpha := mul255 (alpha d) (alpha s) |}
    else if decide (op = VStr "destination-out") then
      {| red := mul255 (red d) keep;
         green := mul255 (green d) keep;
         blue := mul255 (blue d) keep;
         alpha := mul255 (alpha d) keep |}
    else blendOther ga op d s
  else blendOther ga op d s.

(** [ctx.drawImage(img, 0, 0)]: the part of the image that falls on
    the canvas is composited, pixel by pixel; the rest of the canvas
    is untouched. *)
Definition drawImage (img : ImageData) (ctx : Context) : Context :=
  let w := canvas_width ctx in
  {| canvas_width := w; canvas_height := canvas_height ctx;
     pixels :=
       imap (fun p d =>
               let x := p `mod` w in
               let y := p `div` w in
               if decide (x < width img /\ y < height img) then
                 blend (globalAlpha ctx) (globalCompositeOperation ctx) d
                       (pixelOf (data img) (y * width img + x))
               else d)
            (pixels ctx);
     globalAlpha := globalAlpha ctx;
     globalCompositeOperation := globalCompositeOperation ctx |}.

(** [ctx.drawImage(img, 0, 0, w, h)]. *)
Definition drawImageScaled (img : ImageData) (w h : nat) (ctx : Context) : Context :=
  drawImage (resample img w h) ctx.

(** [ctx.getImageData(0, 0, canvas.width, canvas.height)]. *)
Definition getImageData (ctx : Context) : ImageData :=
  {| width := canvas_width ctx; height := canvas_height ctx;
     data := flat_map straight (pixels ctx) |}.

(** [ctx.putImageData(imageData, 0, 0)] for data of the canvas's size. *)
Definition putImageData (img : ImageData) (ctx : Context) : Context :=
  {| canvas_width := canvas_width ctx; canvas_height := canvas_height ctx;
     pixels := imap (fun p _ => premultiply (pixelOf (data img) p)) (pixels ctx);
     globalAlpha := globalAlpha ctx;
     globalCompositeOperation := globalCompositeOperation ctx |}.

(** [canvas.toDataURL('image/png').split(',')[1]], as the bitmap the
    PNG holds. *)
Definition toDataURL (ctx : Context) : ImageData := getImageData ctx.

End WithEngine.

End Canvas2D.

(** *** MaskAlgebra (imageUtils.js, mask operations) *)

Module MaskAlgebra.
Import Canvas2D.

(** What [loadImageData] resolves to: [{ canvas, ctx, imageData, width,
    height }]. *)
Record Loaded : Type := mkLoaded {
  ctx : Context;
  imageData : ImageData;
  loaded_width : nat;
  loaded_height : nat
}.

(** The buffers live during a pairwise operation: both loaded operands
    and the freshly created result. *)
Record Buffers : Type := mkBuffers {
  data1 : Loaded;
  data2 : Loaded;
  result : ImageData
}.

(** The four stores of one loop iteration:
    [result.data[i] = val; ... [i+1] = val; ... [i+2] = val; ... [i+3] = 255]. *)
Definition storePixel (i : nat) (val : Js.number) (st : Buffers) : Buffers :=
  let d0 := data (result st) in
  let d1 := <[i := Js.toUint8Clamped val]> d0 in
  let d2 := <[i + 1 := Js.toUint8Clamped val]> d1 in
  let d3 := <[i + 2 := Js.toUint8Clamped val]> d2 in
  let d4 := <[i + 3 := 255%Z]> d3 in
  {| data1 := data1 st;
     data2 := data2 st;
     result := {| width := width (result st); height := height (result st); data := d4 |} |}.

(** [for (let i = 0; i < result.data.length; i += 4) { val = ...; stores }];
    [fuel] bounds the number of iterations. *)
Fixpoint forPixels (fuel : nat) (val : Js.number -> Js.number -> Js.number)
         (i : nat) (st : Buffers) : Buffers :=
  match fuel with
  | O => st
  | S fuel' =>
      if decide (i < length (data (result st))) then
        let pixels1 := data (imageData (data1 st)) in
        let pixels2 := data (imageData (data2 st)) in
        forPixels fuel' val (i + 4) (storePixel i (val (pixels1 !! i) (pixels2 !! i)) st)
      else st
  end.

Definition unionVal (a b : Js.number) : Js.number := Js.Math_max a b.
Definition intersectionVal (a b : Js.number) : Js.number := Js.Math_min a b.
Definition subtractVal (a b : Js.number) : Js.number := Js.Math_max (Some 0%Z) (Js.sub a b).
Definition xorVal (a b : Js.number) : Js.number := Js.Math_abs (Js.sub a b).

Section WithEngine.
Context {E : Engine}.

(** [loadImageData(base64)]: the image is drawn on a canvas of its own
    size and the pixel data read back. *)
Definition loadImageData (base64 : ImageData) : Loaded :=
  let img := base64 in
  let canvas := createCanvas (width img) (height img) in
  let canvas := drawImage img canvas in
  {| ctx := canvas;
     imageData := getImageData canvas;
     loaded_width := width img;
     loaded_height := height img |}.

(** The body shared by the four pairwise operations, which differ in
    the line computing [val] only: both masks loaded, the result
    created with the size of the first, the loop run. *)
Definition pairwise (val : Js.number -> Js.number -> Js.number)
           (mask1Base64 mask2Base64 : ImageData) : Buffers :=
  let d1 := loadImageData mask1Base64 in
  let d2 := loadImageData mask2Base64 in
  let res := createImageData (loaded_width d1) (loaded_height d1) in
  forPixels (length (data res)) val 0 {| data1 := d1; data2 := d2; result := res |}.

(** [data1.ctx.putImageData(result, 0, 0);
     return data1.canvas.toDataURL('image/png').split(',')[1]]. *)
Definition encodeResult (st : Buffers) : ImageData :=
  toDataURL (putImageData (result st) (ctx (data1 st))).

Definition maskUnion (mask1Base64 mask2Base64 : ImageData) : ImageData :=
  encodeResult (pairwise unionVal mask1Base64 mask2Base64).

Definition maskIntersection (mask1Base64 mask2Base64 : ImageData) : ImageData :=
  encodeResult (pairwise intersectionVal mask1Base64 mask2Base64).

Definition maskSubtract (mask1Base64 mask2Base64 : ImageData) : ImageData :=
  encodeResult (pairwise subtractVal mask1Base64 mask2Base64).

Definition maskXor (mask1Base64 mask2Base64 : ImageData) : ImageData :=
  encodeResult (pairwise xorVal mask1Base64 mask2Base64).

(** The lookup [{ union: maskUnion, ... }[operation]] among the own
    properties of the literal. The literal also inherits the members
    of [Object.prototype]: for such a name ([toString], [constructor],
    ...) the source's lookup finds a value that is no mask operation,
    and the call on two or more masks does not end the way it does for
    an unknown name. Those names are outside this model: what is stated
    below about [combineMasks] concerns the empty list, the four
    operations, and names the literal neither has nor inherits. *)
Definition operationFn (operation : string) : option (ImageData -> ImageData -> ImageData) :=
  if decide (operation = "union") then Some maskUnion
  else if decide (operation = "intersection") then Some maskIntersection
  else if decide (operation = "subtract") then Some maskSubtract
  else if decide (operation = "xor") then Some maskXor
  else None.

(** [combineMasks(maskBase64Array, operation)]; [None] is [null]. *)
Definition combineMasks (maskBase64Array : list ImageData) (operation : string)
  : Js.completion (option ImageData) :=
  match maskBase64Array with
  | [] => Js.Normal None
  | [m] => Js.Normal (Some m)
  | m0 :: rest =>
      match operationFn operation with
      | None => Js.Throw ("Unknown mask operation: " +:+ operation)
      | Some f => Js.Normal (Some (foldl f m0 rest))
      end
  end.

End WithEngine.

End MaskAlgebra.

(** *** Compositor (imageUtils.js, mask application) *)

Module Compositor.
Import Canvas2D.

Section WithEngine.
Context {E : Engine}.

(** The loop of [invertMask]:
    [for (i = 0; i < data.length; i += 4) { data[i] = 255 - data[i];
    data[i+1] = ...; data[i+2] = ... }]. *)
Fixpoint invertLoop (fuel : nat) (i : nat) (d : list Z) : list Z :=
  match fuel with
  | O => d
  | S fuel' =>
      if decide (i < length d) then
        let d := <[i := Js.toUint8Clamped (Js.sub (Some 255%Z) (d !! i))]> d in
        let d := <[i + 1 := Js.toUint8Clamped (Js.sub (Some 255%Z) (d !! (i + 1)))]> d in
        let d := <[i + 2 := Js.toUint8Clamped (Js.sub (Some 255%Z) (d !! (i + 2)))]> d in
        invertLoop fuel' (i + 4) d
      else d
  end.

(** [invertMask(maskBase64)]. *)
Definition invertMask (maskBase64 : ImageData) : ImageData :=
  let img := maskBase64 in
  let ctx := createCanvas (width img) (height img) in
  let ctx := drawImage img ctx in
  let imageData := getImageData ctx in
  let inverted :=
    {| width := width imageData; height := height imageData;
       data := invertLoop (length (data imageData)) 0 (data imageData) |} in
  toDataURL (putImageData inverted ctx).

(** [applyMaskToImage(imageBase64, maskBase64, invert = false)]. *)
Definition applyMaskToImage (imageBase64 maskBase64 : ImageData) (invert : bool) : ImageData :=
  let finalMask := if invert then invertMask maskBase64 else maskBase64 in
  let imageImg := imageBase64 in
  let maskImg := finalMask in
  let ctx := createCanvas (width imageImg) (height imageImg) in
  let ctx := drawImage imageImg ctx in
  let ctx := set_globalCompositeOperation (VStr "destination-in") ctx in
  let ctx := drawImageScaled maskImg (width imageImg) (height imageImg) ctx in
  toDataURL ctx.

(** [removeMaskFromImage(imageBase64, maskBase64)]. *)
Definition removeMaskFromImage (imageBase64 maskBase64 : ImageData) : ImageData :=
  let imageImg := imageBase64 in
  let maskImg := maskBase64 in
  let ctx := createCanvas (width imageImg) (height imageImg) in
  let ctx := drawImage imageImg ctx in
  let ctx := set_globalCompositeOperation (VStr "destination-out") ctx in
  let ctx := drawImageScaled maskImg (width imageImg) (height imageImg) ctx in
  toDataURL ctx.

End WithEngine.

End Compositor.

(** *** LayerStore (stores/editorStore.js) *)

Module LayerStore.

Record State : Type := mkState {
  layers : list Layer;
  activeLayerId : value;
  hasUnsavedChanges : bool;
  activeTool : string;
  zoom : Qc;
  panOffset : Qc * Qc
}.

Definition set_layers (ls : list Layer) (state : State) : State :=
  {| layers := ls; activeLayerId := activeLayerId state;
     hasUnsavedChanges := true; activeTool := activeTool state;
     zoom := zoom state; panOffset := panOffset state |}.

(** [setActiveLayerId]. *)
Definition setActiveLayerId (id : value) (state : State) : State :=
  {| layers := layers state; activeLayerId := id;
     hasUnsavedChanges := hasUnsavedChanges state; activeTool := activeTool state;
     zoom := zoom state; panOffset := panOffset state |}.

(** [addLayer: (layer) => set((state) => ({ layers: [...state.layers, layer],
    activeLayerId: layer.id, hasUnsavedChanges: true }))]. *)
Definition addLayer (layer : Layer) (state : State) : State :=
  {| layers := layers state ++ [layer];
     activeLayerId := Obj.get layer "id";
     hasUnsavedChanges := true;
     activeTool := activeTool state;
     zoom := zoom state; panOffset := panOffset state |}.

(** [updateLayer: (id, updates) => ... layers.map(l => l.id === id ?
    { ...l, ...updates } : l)]. *)
Definition updateOne (id : value) (updates : Layer) (l : Layer) : Layer :=
  if Obj.strict_eq (Obj.get l "id") id then Obj.spread l updates else l.

Definition updateLayer (id : value) (updates : Layer) (state : State) : State :=
  set_layers (map (updateOne id updates) (layers state)) state.

(** [removeLayer]. *)
Definition removeLayer (id : value) (state : State) : State :=
  {| layers := List.filter (fun l => negb (Obj.strict_eq (Obj.get l "id") id)) (layers state);
     activeLayerId := if Obj.strict_eq (activeLayerId state) id then VNull else activeLayerId state;
     hasUnsavedChanges := true;
     activeTool := activeTool state;
     zoom := zoom state; panOffset := panOffset state |}.

(** [reorderLayers(startIndex, endIndex)]. When [startIndex] removes
    nothing, [removed] is [undefined] and the array gains that entry;
    the spread of [undefined] in the final [map] has no properties. *)
Definition reorderLayers (startIndex endIndex : Z) (state : State) : State :=
  let newLayers : list (option Layer) := map Some (layers state) in
  let '(removed, newLayers) := Array.splice_out startIndex newLayers in
  let newLayers := Array.splice_in endIndex (mjoin removed) newLayers in
  set_layers
    (imap (fun i l => Obj.spread (default ∅ l) {[ "order" := VNum (Z.of_nat i) ]}) newLayers)
    state.

End LayerStore.

(** *** LayerPanel (components/Editor/LayerPanel.jsx) *)

Module LayerPanel.
Import LayerStore.

(** How a handler run ends: normally, or by an uncaught exception after
    the updates already applied to the store. *)
Inductive run : Type :=
| Completed (state : State)
| Thrown (msg : string) (state : State).

(** [(a, b) => b.order - a.order]. *)
Definition byOrderDesc (a b : Layer) : Js.number :=
  Js.sub (Obj.toNumber (Obj.get b "order")) (Obj.toNumber (Obj.get a "order")).

(** [const sortedLayers = [...layers].sort((a, b) => b.order - a.order)]. *)
Definition sortedLayers (state : State) : list Layer :=
  Array.sort byOrderDesc (layers state).

(** [items.forEach((item, i) => updateLayer(item.id, { order:
    items.length - 1 - i }))], from position [i] on; reading [item.id]
    of an [undefined] entry throws. *)
Fixpoint renumber (len : nat) (i : nat) (items : list (option Layer)) (state : State) : run :=
  match items with
  | [] => Completed state
  | None :: _ => Thrown "TypeError" state
  | Some item :: rest =>
      renumber len (S i) rest
        (updateLayer (Obj.get item "id")
           {[ "order" := VNum (Z.of_nat len - 1 - Z.of_nat i) ]} state)
  end.

(** [handleDrop(e, index)], with [draggedIndex] the component state
    ([None] is [null]). *)
Definition handleDrop (draggedIndex : option nat) (index : nat) (state : State) : run :=
  match draggedIndex with
  | None => Completed state
  | Some dragged =>
      if decide (dragged = index) then Completed state
      else
        let items : list (option Layer) := map Some (sortedLayers state) in
        let '(draggedItem, items) := Array.splice_out (Z.of_nat dragged) items in
        let items := Array.splice_in (Z.of_nat index) (mjoin draggedItem) items in
        renumber (length items) 0 items state
  end.

(** [handleMoveUp(index)]. *)
Definition handleMoveUp (index : nat) (state : State) : run :=
  if decide (0 < index) then
    match sortedLayers state !! index, sortedLayers state !! (index - 1) with
    | Some currentLayer, Some previousLayer =>
        let currentOrder := Obj.get currentLayer "order" in
        let previousOrder := Obj.get previousLayer "order" in
        let state := updateLayer (Obj.get currentLayer "id") {[ "order" := previousOrder ]} state in
        Completed (updateLayer (Obj.get previousLayer "id") {[ "order" := currentOrder ]} state)
    | _, _ => Thrown "TypeError" state
    end
  else Completed state.

(** [handleMoveDown(index)]. *)
Definition handleMoveDown (index : nat) (state : State) : run :=
  if decide (Z.of_nat index < Z.of_nat (length (sortedLayers state)) - 1)%Z then
    match sortedLayers state !! index, sortedLayers state !! (index + 1) with
    | Some currentLayer, Some nextLayer =>
        let currentOrder := Obj.get currentLayer "order" in
        let nextOrder := Obj.get nextLayer "order" in
        let state := updateLayer (Obj.get currentLayer "id") {[ "order" := nextOrder ]} state in
        Completed (updateLayer (Obj.get nextLayer "id") {[ "order" := currentOrder ]} state)
    | _, _ => Thrown "TypeError" state
    end
  else Completed state.

End LayerPanel.

(** *** Canvas (components/Editor/Canvas.jsx): coordinates and drawing *)

Module CanvasView.
Import LayerStore.

(** Screen coordinates are exact rationals: the arithmetic of
    [getCanvasCoords] is followed without rounding. *)
Record DOMRect : Type := mkRect {
  rect_left : Qc; rect_top : Qc; rect_width : Qc; rect_height : Qc
}.

Record MouseEvent : Type := mkEvent {
  button : Z;
  clientX : Qc;
  clientY : Qc;
  currentTargetRect : DOMRect  (* e.currentTarget.getBoundingClientRect() *)
}.

(** The overlay [<canvas>]: its bitmap as [getImageData] reads it, its
    rectangle on screen, and the image whose [onload] is still to draw
    on it. *)
Record Overlay : Type := mkOverlay {
  bitmap : ImageData;
  boundingClientRect : DOMRect;
  pendingImage : option ImageData
}.

(** The React state of the component and its overlay ref. *)
Record Component : Type := mkComponent {
  isDragging : bool;
  dragStart : Qc * Qc;
  canvasSize : nat * nat;
  isDrawing : bool;
  isErasing : bool;
  startPoint : option (Qc * Qc);
  lastPoint : option (Qc * Qc);
  overlayRef : option Overlay
}.

Definition ofNat (n : nat) : Qc := Qc_of_Z (Z.of_nat n).

(** [getCanvasCoords(e)]. *)
Definition getCanvasCoords (e : MouseEvent) (state : State) (c : Component) : Qc * Qc :=
  match overlayRef c with
  | None =>
      let rect := currentTargetRect e in
      ((clientX e - rect_left rect - fst (panOffset state)) / zoom state,
       (clientY e - rect_top rect - snd (panOffset state)) / zoom state)%Qc
  | Some overlay =>
      let rect := boundingClientRect overlay in
      let scaleX := (ofNat (width (bitmap overlay)) / rect_width rect)%Qc in
      let scaleY := (ofNat (height (bitmap overlay)) / rect_height rect)%Qc in
      ((clientX e - rect_left rect) * scaleX,
       (clientY e - rect_top rect) * scaleY)%Qc
  end.

Definition drawingTools : list string := ["brush"; "eraser"; "rectangle"; "ellipse"].

Definition includes (tools : list string) (tool : string) : bool :=
  bool_decide (tool ∈ tools).

(** [(a, b) => a.order - b.order]. *)
Definition byOrderAsc (a b : Layer) : Js.number :=
  Js.sub (Obj.toNumber (Obj.get a "order")) (Obj.toNumber (Obj.get b "order")).

(** [layers.filter(l => l.visible).sort((a, b) => a.order - b.order)]. *)
Definition visibleLayers (state : State) : list Layer :=
  Array.sort byOrderAsc
    (List.filter (fun l => Obj.truthy (Obj.get l "visible")) (layers state)).

(** [ctx.clearRect(0, 0, overlay.width, overlay.height)]. *)
Definition clearRect (o : Overlay) : Overlay :=
  {| bitmap := createImageData (width (bitmap o)) (height (bitmap o));
     boundingClientRect := boundingClientRect o;
     pendingImage := pendingImage o |}.

(** What [new Image()] decodes from a [src] built on [v]: a bitmap when
    [v] is the base64 of a PNG; otherwise [onload] never fires. *)
Definition decode (v : value) : option ImageData :=
  match v with
  | VImage png => Some png
  | _ => None
  end.

(** [handleMouseDown(e)]. *)
Definition handleMouseDown (e : MouseEvent) (sc : State * Component) : State * Component :=
  let '(state, c) := sc in
  if bool_decide (activeTool state = "move") || bool_decide (button e = 1%Z) then
    (state,
     {| isDragging := true;
        dragStart := (clientX e - fst (panOffset state), clientY e - snd (panOffset state))%Qc;
        canvasSize := canvasSize c; isDrawing := isDrawing c; isErasing := isErasing c;
        startPoint := startPoint c; lastPoint := lastPoint c; overlayRef := overlayRef c |})
  else if bool_decide (activeTool state = "select") && bool_decide (button e = 0%Z) then
    let coords := getCanvasCoords e state c in
    if bool_decide (0 <= fst coords)%Qc && bool_decide (fst coords <= ofNat (fst (canvasSize c)))%Qc
       && bool_decide (0 <= snd coords)%Qc && bool_decide (snd coords <= ofNat (snd (canvasSize c)))%Qc
    then
      match Array.find (fun layer => Obj.truthy (Obj.get layer "visible")) (reverse (visibleLayers state)) with
      | Some clickedLayer => (setActiveLayerId (Obj.get clickedLayer "id") state, c)
      | None => (state, c)
      end
    else (state, c)
  else if includes drawingTools (activeTool state) && bool_decide (button e = 0%Z) then
    let xy := getCanvasCoords e state c in
    let erasing_overlay :=
      match overlayRef c with
      | None => (isErasing c, None)
      | Some overlay =>
          let overlay := clearRect overlay in
          if bool_decide (activeTool state = "eraser") then
            match Array.find (fun l => Obj.strict_eq (Obj.get l "id") (activeLayerId state)) (layers state) with
            | Some activeLayer =>
                if Obj.truthy (Obj.get activeLayer "image_base64") then
                  (true,
                   Some {| bitmap := bitmap overlay;
                           boundingClientRect := boundingClientRect overlay;
                           pendingImage := decode (Obj.get activeLayer "image_base64") |})
                else (isErasing c, Some overlay)
            | None => (isErasing c, Some overlay)
            end
          else (isErasing c, Some overlay)
      end in
    (state,
     {| isDragging := isDragging c; dragStart := dragStart c; canvasSize := canvasSize c;
        isDrawing := true; isErasing := fst erasing_overlay;
        startPoint := Some xy; lastPoint := Some xy;
        overlayRef := snd erasing_overlay |})
  else (state, c).

(** [data.some(v => v !== 0)] on the overlay's pixel data. *)
Definition hasPixels (o : Overlay) : bool :=
  existsb (fun v => negb (v =? 0)%Z) (data (bitmap o)).

(** The layer [commitDrawing] adds; [now] is the reading of [Date.now()]. *)
Definition sketchLayer (now : Z) (tool : string) (base64 : value) (count : nat) : Layer :=
  {[ "id" := VStr ("layer-" +:+ pretty now);
     "name" := VStr ("Sketch (" +:+ tool +:+ ")");
     "type" := VStr "image";
     "image_base64" := base64;
     "visible" := VBool true;
     "opacity" := VNum 1;
     "blend_mode" := VStr "normal";
     "order" := VNum (Z.of_nat count) ]}.

(** [commitDrawing()]. *)
Definition commitDrawing (now : Z) (sc : State * Component) : State * Component :=
  let '(state, c) := sc in
  match overlayRef c with
  | None => (state, c)
  | Some overlay =>
      if negb (hasPixels overlay) && negb (isErasing c) then (state, c)
      else
        let base64 := VImage (bitmap overlay) in
        let state' :=
          if isErasing c && Obj.truthy (activeLayerId state) then
            updateLayer (activeLayerId state) {[ "image_base64" := base64 ]} state
          else
            addLayer (sketchLayer now (activeTool state) base64 (length (layers state))) state in
        (state',
         {| isDragging := isDragging c; dragStart := dragStart c; canvasSize := canvasSize c;
            isDrawing := isDrawing c; isErasing := isErasing c;
            startPoint := startPoint c; lastPoint := lastPoint c;
            overlayRef := Some (clearRect overlay) |})
  end.

(** [handleMouseUp()], which is also the [onMouseLeave] handler. *)
Definition handleMouseUp (now : Z) (sc : State * Component) : State * Component :=
  let '(state, c) :=
    if isDrawing (snd sc) && includes drawingTools (activeTool (fst sc))
    then commitDrawing now sc else sc in
  (state,
   {| isDragging := false; dragStart := dragStart c; canvasSize := canvasSize c;
      isDrawing := false; isErasing := false;
      startPoint := None; lastPoint := None;
      overlayRef := overlayRef c |}).

Definition onMouseUp := handleMouseUp.
Definition onMouseLeave := handleMouseUp.

End CanvasView.

(** *** Header (components/UI/Header.jsx): flattened export *)

Module Header.
Import Canvas2D.

(** How [handleExport] ends: it returns without producing anything, it
    hands a PNG to the download link, or it waits for ever on an image
    that does not load. *)
Inductive ExportOutcome : Type :=
| NothingExported
| Downloaded (png : ImageData)
| NeverSettles.

Section WithEngine.
Context {E : Engine}.

(** [layer.opacity ?? 1]. *)
Definition opacityOr1 (layer : Layer) : value :=
  match Obj.get layer "opacity" with
  | VUndefined | VNull => VNum 1
  | v => v
  end.

(** [for (const layer of visibleLayers) { await load; ctx.globalAlpha =
    ...; ctx.globalCompositeOperation = ...; ctx.drawImage(img, 0, 0) }];
    [None] when some image never loads. *)
Fixpoint drawLayers (visibleLayers : list Layer) (ctx : Context) : option Context :=
  match visibleLayers with
  | [] => Some ctx
  | layer :: rest =>
      match CanvasView.decode (Obj.get layer "image_base64") with
      | None => None
      | Some img =>
          let ctx := set_globalAlpha (opacityOr1 layer) ctx in
          let ctx :=
            set_globalCompositeOperation
              (if Obj.strict_eq (Obj.get layer "blend_mode") (VStr "normal")
               then VStr "source-over" else Obj.get layer "blend_mode") ctx in
          drawLayers rest (drawImage img ctx)
      end
  end.

(** [handleExport()]. *)
Definition handleExport (layers : list Layer) : ExportOutcome :=
  let visibleLayers :=
    Array.sort CanvasView.byOrderAsc
      (List.filter (fun l => Obj.truthy (Obj.get l "visible")
                             && Obj.truthy (Obj.get l "image_base64")) layers) in
  match visibleLayers with
  | [] => NothingExported
  | first :: _ =>
      match CanvasView.decode (Obj.get first "image_base64") with
      | None => NeverSettles
      | Some firstImg =>
          let ctx := createCanvas (width firstImg) (height firstImg) in
          match drawLayers visibleLayers ctx with
          | None => NeverSettles
          | Some ctx =>
              (* reset context state, then [canvas.toBlob] *)
              let ctx := set_globalAlpha (VNum 1) ctx in
              let ctx := set_globalCompositeOperation (VStr "source-over") ctx in
              Downloaded (toDataURL ctx)
          end
      end
  end.

End WithEngine.

End Header.

(** A rendering engine to run the model on: products and read-back
    rounded to nearest, nearest-neighbour resampling, and no composite
    operation beyond the three written out in [Canvas2D.blend]. *)
Module ReferenceEngine.
Import Canvas2D.

Definition mul255 (x y : Z) : Z := ((x * y + 127) / 255)%Z.

Definition unpremultiply (c a : Z) : Z :=
  if (a =? 0)%Z then 0%Z else Z.min 255 ((c * 255 + a / 2) / a)%Z.

Definition resample (img : ImageData) (w h : nat) : ImageData :=
  if decide (width img = w /\ height img = h) then img
  else
    {| width := w; height := h;
       data :=
         flat_map (fun p =>
                     let x := p `mod` w in
                     let y := p `div` w in
                     let sp := (y * height img) `div` h * width img
                               + (x * width img) `div` w in
                     take 4 (drop (4 * sp) (data img)))
                  (seq 0 (w * h)) |}.

Definition validOperation (v : value) : bool :=
  bool_decide (v = VStr "source-over" \/ v = VStr "destination-in" \/ v = VStr "destination-out").

Definition validAlpha (v : value) : bool := bool_decide (v = VNum 1).

Definition engine : Engine :=
  {| Canvas2D.mul255 := mul255;
     Canvas2D.unpremultiply := unpremultiply;
     Canvas2D.resample := resample;
     Canvas2D.blendOther := fun _ _ d _ => d;
     Canvas2D.validAlpha := validAlpha;
     Canvas2D.validOperation := validOperation |}.

End ReferenceEngine.

(** *** Vocabulary of the specification *)

(** Pixel [p] of [img] is the gray level [v], fully opaque: the
    single-channel mask representation. *)
Definition gray_pixel (img : ImageData) (p : nat) (v : Z) : Prop :=
  red_at img p = Some v /\ green_at img p = Some v /\
  blue_at img p = Some v /\ alpha_at img p = Some 255%Z.

(** Every pixel of [img] is fully opaque. *)
Definition opaque (img : ImageData) : Prop :=
  forall p, p < width img * height img -> alpha_at img p = Some 255%Z.

(** Some pixel of [img] is not fully transparent. *)
Definition nonTransparent (img : ImageData) : Prop :=
  exists p a, alpha_at img p = Some a /\ a <> 0%Z.

(** What [getImageData] returns for a canvas: four bytes per pixel, and
    no colour left where alpha is zero (the bitmap keeps colours
    premultiplied). *)
Definition readback (img : ImageData) : Prop :=
  length (data img) = 4 * (width img * height img) /\
  forall p, alpha_at img p = Some 0%Z ->
    red_at img p = Some 0%Z /\ green_at img p = Some 0%Z /\ blue_at img p = Some 0%Z.

(** What the channel arithmetic of the source relies on in an engine:
    multiplying by zero coverage gives zero, multiplying by full coverage
    changes nothing, a colour stored under full alpha reads back as it
    is, an image drawn at its own size is not resampled, and the two
    Porter-Duff operators the source names are known. Every rounding of
    x*y/255 in use satisfies the arithmetic laws. *)
Class EngineLaws (E : Canvas2D.Engine) : Prop := {
  mul255_0_l : forall y, Canvas2D.mul255 0 y = 0%Z;
  mul255_255_l : forall y, (0 <= y <= 255)%Z -> Canvas2D.mul255 255 y = y;
  mul255_255_r : forall x, (0 <= x <= 255)%Z -> Canvas2D.mul255 x 255 = x;
  unpremultiply_255 : forall x, (0 <= x <= 255)%Z -> Canvas2D.unpremultiply x 255 = x;
  resample_same : forall img, Canvas2D.resample img (width img) (height img) = img;
  valid_destination_in : Canvas2D.validOperation (VStr "destination-in") = true;
  valid_destination_out : Canvas2D.validOperation (VStr "destination-out") = true
}.

(** Channel [c] of the pixel a mask loop writes for the value [v]. *)
Definition written (v : Js.number) (c : nat) : Z :=
  if decide (c = 3) then 255%Z else Js.toUint8Clamped v.

(** The layer objects [handleDrop] leaves in the store, seen from one
    layer [l]: the updates of [renumber] that hit its id, in order.
    (Used to state what [renumber] computes.) *)
Fixpoint renumberOne (len i : nat) (items : list Layer) (l : Layer) : Layer :=
  match items with
  | [] => l
  | item :: rest =>
      renumberOne len (S i) rest
        (LayerStore.updateOne (Obj.get item "id")
           {[ "order" := VNum (Z.of_nat len - 1 - Z.of_nat i) ]} l)
  end.

(** *** Sample inputs *)

(** Two 2x1 masks, and a copy of the first with other green and blue
    bytes. *)
Definition maskA : ImageData :=
  {| width := 2; height := 1; data := [10; 10; 10; 255; 200; 200; 200; 255]%Z |}.
Definition maskB : ImageData :=
  {| width := 2; height := 1; data := [30; 30; 30; 255; 100; 100; 100; 255]%Z |}.
Definition maskA' : ImageData :=
  {| width := 2; height := 1; data := [10; 77; 0; 255; 200; 1; 2; 255]%Z |}.

(** An opaque 2x1 image and a mask whose first pixel covers it in part. *)
Definition photo : ImageData :=
  {| width := 2; height := 1; data := [10; 20; 30; 255; 200; 1; 2; 255]%Z |}.
Definition softMask : ImageData :=
  {| width := 2; height := 1; data := [255; 255; 255; 100; 0; 0; 0; 255]%Z |}.

(** Layers as the panels create them. *)
Definition sampleLayer (id : string) (order : Z) (image_base64 : value) : Layer :=
  {[ "id" := VStr id;
     "name" := VStr id;
     "type" := VStr "image";
     "image_base64" := image_base64;
     "visible" := VBool true;
     "opacity" := VNum 1;
     "blend_mode" := VStr "normal";
     "order" := VNum order ]}.

Definition sampleStore (ls : list Layer) (active : value) (tool : string) : LayerStore.State :=
  {| LayerStore.layers := ls;
     LayerStore.activeLayerId := active;
     LayerStore.hasUnsavedChanges := false;
     LayerStore.activeTool := tool;
     LayerStore.zoom := 1%Qc;
     LayerStore.panOffset := (0%Qc, 0%Qc) |}.

Definition layerA : Layer := sampleLayer "layer-a" 0 (VImage photo).
Definition layerB : Layer := sampleLayer "layer-b" 1 (VImage photo).
Definition layerC : Layer := sampleLayer "layer-c" 2 (VImage photo).

(** The layer "Add Layer" creates: no content yet. *)
Definition layerEmpty : Layer := sampleLayer "layer-e" 0 (VStr "").

(** A layer switched off in the panel. *)
Definition layerHidden : Layer := <[ "visible" := VBool false ]> layerA.

(** The overlay canvas, 2x1, shown at its own size: blank, and with one
    painted pixel. *)
Definition blankOverlay : CanvasView.Overlay :=
  {| CanvasView.bitmap := createImageData 2 1;
     CanvasView.boundingClientRect :=
       {| CanvasView.rect_left := (Qc_of_Z 8); CanvasView.rect_top := (Qc_of_Z 16);
          CanvasView.rect_width := (Qc_of_Z 2); CanvasView.rect_height := 1%Qc |};
     CanvasView.pendingImage := None |}.

Definition paintedOverlay : CanvasView.Overlay :=
  {| CanvasView.bitmap :=
       {| width := 2; height := 1; data := [0; 0; 0; 255; 0; 0; 0; 0]%Z |};
     CanvasView.boundingClientRect := CanvasView.boundingClientRect blankOverlay;
     CanvasView.pendingImage := None |}.

Definition idle (o : CanvasView.Overlay) : CanvasView.Component :=
  {| CanvasView.isDragging := false;
     CanvasView.dragStart := (0%Qc, 0%Qc);
     CanvasView.canvasSize := (2, 1);
     CanvasView.isDrawing := false;
     CanvasView.isErasing := false;
     CanvasView.startPoint := None;
     CanvasView.lastPoint := None;
     CanvasView.overlayRef := Some o |}.

Definition drawing (o : CanvasView.Overlay) : CanvasView.Component :=
  {| CanvasView.isDragging := false;
     CanvasView.dragStart := (0%Qc, 0%Qc);
     CanvasView.canvasSize := (2, 1);
     CanvasView.isDrawing := true;
     CanvasView.isErasing := false;
     CanvasView.startPoint := Some (0%Qc, 0%Qc);
     CanvasView.lastPoint := Some (1%Qc, 0%Qc);
     CanvasView.overlayRef := Some o |}.

(** Primary button pressed at screen position (9, 16). *)
Definition press : CanvasView.MouseEvent :=
  {| CanvasView.button := 0;
     CanvasView.clientX := (Qc_of_Z 9);
     CanvasView.clientY := (Qc_of_Z 16);
     CanvasView.currentTargetRect :=
       {| CanvasView.rect_left := 0%Qc; CanvasView.rect_top := 0%Qc;
          CanvasView.rect_width := (Qc_of_Z 800); CanvasView.rect_height := (Qc_of_Z 600) |} |}.

(** A layer object passed without an [order] property. *)
Definition layerNoOrder : Layer :=
  {[ "id" := VStr "layer-x"; "name" := VStr "x"; "visible" := VBool true ]}.

(** *** More of the canvas (operations the other utilities use) *)

Module Canvas2DMore.
Import Canvas2D.

Section WithEngine.
Context {E : Engine}.

(** [ctx.drawImage(img, dx, dy)] for whole-pixel offsets. *)
Definition drawImageAt (img : ImageData) (dx dy : Z) (ctx : Context) : Context :=
  let w := canvas_width ctx in
  {| canvas_width := w; canvas_height := canvas_height ctx;
     pixels :=
       imap (fun p d =>
               let x := Z.of_nat (p `mod` w) in
               let y := Z.of_nat (p `div` w) in
               if decide ((dx <= x < dx + Z.of_nat (width img))%Z /\
                          (dy <= y < dy + Z.of_nat (height img))%Z) then
                 blend (globalAlpha ctx) (globalCompositeOperation ctx) d
                       (pixelOf (data img)
                                (Z.to_nat (y - dy) * width img + Z.to_nat (x - dx)))
               else d)
            (pixels ctx);
     globalAlpha := globalAlpha ctx;
     globalCompositeOperation := globalCompositeOperation ctx |}.

(** [ctx.fillStyle = color; ctx.fillRect(x, y, w, h)] for an opaque
    colour given by its straight RGBA bytes. *)
Definition fillRect (color : Pixel) (x y w h : nat) (ctx : Context) : Context :=
  let cw := canvas_width ctx in
  {| canvas_width := cw; canvas_height := canvas_height ctx;
     pixels :=
       imap (fun p d =>
               let px := p `mod` cw in
               let py := p `div` cw in
               if decide ((x <= px < x + w) /\ (y <= py < y + h)) then
                 blend (globalAlpha ctx) (globalCompositeOperation ctx) d color
               else d)
            (pixels ctx);
     globalAlpha := globalAlpha ctx;
     globalCompositeOperation := globalCompositeOperation ctx |}.

End WithEngine.

End Canvas2DMore.

(** The laws of [EngineLaws] and three more: a product with zero
    coverage on the right is zero as well, and the default values of the
    two context attributes are values the engine accepts. *)
Class EngineLawsPlus (E : Canvas2D.Engine) : Prop := {
  base_laws :: EngineLaws E;
  mul255_0_r : forall x, Canvas2D.mul255 x 0 = 0%Z;
  valid_alpha_1 : Canvas2D.validAlpha (VNum 1) = true;
  valid_source_over : Canvas2D.validOperation (VStr "source-over") = true
}.

(** *** imageUtils.js: compositing two images *)

Module ImageUtils.
Import Canvas2D Canvas2DMore.

Section WithEngine.
Context {E : Engine}.

(** [compositeImages(backgroundBase64, foregroundBase64, x = 0, y = 0,
    opacity = 1)], for whole-pixel offsets. *)
Definition compositeImages (backgroundBase64 foregroundBase64 : ImageData)
           (x y : Z) (opacity : value) : ImageData :=
  let bgImg := backgroundBase64 in
  let fgImg := foregroundBase64 in
  let ctx := createCanvas (width bgImg) (height bgImg) in
  let ctx := drawImage bgImg ctx in
  let ctx := set_globalAlpha opacity ctx in
  let ctx := drawImageAt fgImg x y ctx in
  toDataURL ctx.

End WithEngine.

End ImageUtils.

(** *** Vocabulary for the further properties *)

(** The image [img] is a single-channel mask: every pixel is a gray
    level, fully opaque. *)
Definition gray_mask (img : ImageData) : Prop :=
  forall p, p < width img * height img -> exists v, gray_pixel img p v.

(** Every pixel of [img] is fully transparent. *)
Definition transparent_image (img : ImageData) : Prop :=
  forall p, p < width img * height img -> alpha_at img p = Some 0%Z.

(** The byte [invertMask] stores for channel [c] holding [v]. *)
Definition inverted_byte (c : nat) (v : Z) : Z :=
  if decide (c = 3) then v else (255 - v)%Z.

(** What one step of the loop of [invertMask] stores for the byte read. *)
Definition flipped (x : option Z) : Z := Js.toUint8Clamped (Js.sub (Some 255%Z) x).

(** [compositeImages]: the foreground drawn at [(x, y)] covers canvas
    position [p] of the background's canvas. *)
Definition covered_by (bg fg : ImageData) (x y : Z) (p : nat) : bool :=
  bool_decide ((x <= Z.of_nat (p `mod` width bg) < x + Z.of_nat (width fg))%Z /\
               (y <= Z.of_nat (p `div` width bg) < y + Z.of_nat (height fg))%Z).

(** The pixel of the foreground that lands on canvas position [p]. *)
Definition source_index (bg fg : ImageData) (x y : Z) (p : nat) : nat :=
  Z.to_nat (Z.of_nat (p `div` width bg) - y) * width fg
  + Z.to_nat (Z.of_nat (p `mod` width bg) - x).

(** *** imageUtils.js: data URLs *)

Module DataUrl.

(** The separator [','] (character code 44). *)
Definition comma : Ascii.ascii := Eval cbv in Ascii.ascii_of_nat 44.

(** [s.split(sep)] for a one-character separator: the fields between
    the separators, in order. *)
Fixpoint split (sep : Ascii.ascii) (s : string) : list string :=
  match s with
  | EmptyString => [EmptyString]
  | String c rest =>
      if decide (c = sep) then EmptyString :: split sep rest
      else match split sep rest with
           | field :: fields => String c field :: fields
           | [] => [String c EmptyString]
           end
  end.

(** [base64ToUrl(base64, mimeType = 'image/png')]. *)
Definition base64ToUrl (base64 mimeType : string) : string :=
  "data:" +:+ mimeType +:+ ";base64," +:+ base64.

(** [urlToBase64(url)]: [url.split(',')[1] || url]; the empty string is
    falsy. *)
Definition urlToBase64 (url : string) : string :=
  match split comma url !! 1 with
  | Some field => if decide (field = EmptyString) then url else field
  | None => url
  end.

(** What [fileToBase64] resolves with for the data URL the reader
    produced: [result.split(',')[1]], [None] for [undefined]. *)
Definition fileToBase64 (result : string) : option string :=
  split comma result !! 1.

End DataUrl.

(** The character [c] occurs in [s]. *)
Fixpoint has_char (c : Ascii.ascii) (s : string) : bool :=
  match s with
  | EmptyString => false
  | String c' rest => bool_decide (c' = c) || has_char c rest
  end.

(** *** [Math.min] and [Math.max] on rationals *)

Module QMath.

Definition Math_min (a b : Qc) : Qc := if Qclt_le_dec b a then b else a.
Definition Math_max (a b : Qc) : Qc := if Qclt_le_dec a b then b else a.

End QMath.

(** *** editorStore.js: the rest of the store *)

Module EditorStore.
Import Canvas2D Canvas2DMore LayerStore.

(** The fill colour ['#ffffff']. *)
Definition white : Pixel := {| red := 255; green := 255; blue := 255; alpha := 255 |}.

(** [initialLayer]. *)
Definition initialLayer : Layer :=
  {[ "id" := VStr "layer-background";
     "name" := VStr "Background";
     "type" := VStr "image";
     "image_base64" := VNull;
     "visible" := VBool true;
     "opacity" := VNum 1;
     "blend_mode" := VStr "normal";
     "order" := VNum 0 ]}.

Section WithEngine.
Context {E : Engine}.

(** [createWhiteCanvas(width = 1024, height = 1024)]. *)
Definition createWhiteCanvas (width height : nat) : ImageData :=
  let ctx := createCanvas width height in
  let ctx := fillRect white 0 0 width height ctx in
  toDataURL ctx.

(** [initializeCanvas(width = 1024, height = 1024)]. *)
Definition initializeCanvas (width height : nat) (state : State) : State :=
  if decide (length (layers state) = 0) then
    let whiteCanvas := createWhiteCanvas width height in
    let bgLayer := Obj.spread initialLayer {[ "image_base64" := VImage whiteCanvas ]} in
    {| layers := [bgLayer];
       activeLayerId := Obj.get bgLayer "id";
       hasUnsavedChanges := hasUnsavedChanges state;
       activeTool := activeTool state;
       zoom := zoom state; panOffset := panOffset state |}
  else state.

End WithEngine.

(** [clearLayers()]. *)
Definition clearLayers (state : State) : State :=
  {| layers := []; activeLayerId := VNull; hasUnsavedChanges := false;
     activeTool := activeTool state; zoom := zoom state; panOffset := panOffset state |}.

(** [loadImage(imageBase64, name = 'Image')]; [now] is the reading of
    [Date.now()]. *)
Definition loadImage (now : Z) (imageBase64 : value) (name : string) (state : State) : State :=
  let layerId := VStr ("layer-" +:+ pretty now) in
  let newLayers : list Layer :=
    [ {[ "id" := layerId;
         "name" := VStr name;
         "type" := VStr "image";
         "image_base64" := imageBase64;
         "visible" := VBool true;
         "opacity" := VNum 1;
         "blend_mode" := VStr "normal";
         "order" := VNum 0 ]} ] in
  {| layers := newLayers; activeLayerId := layerId; hasUnsavedChanges := false;
     activeTool := activeTool state; zoom := zoom state; panOffset := panOffset state |}.

(** [setZoom: (zoom) => set({ zoom: Math.max(0.1, Math.min(5, zoom)) })],
    on exact rationals. *)
Definition setZoom (z : Qc) (state : State) : State :=
  {| layers := layers state; activeLayerId := activeLayerId state;
     hasUnsavedChanges := hasUnsavedChanges state; activeTool := activeTool state;
     zoom := QMath.Math_max (Q2Qc (1 # 10)) (QMath.Math_min (Qc_of_Z 5) z);
     panOffset := panOffset state |}.

(** [setPanOffset]. *)
Definition setPanOffset (offset : Qc * Qc) (state : State) : State :=
  {| layers := layers state; activeLayerId := activeLayerId state;
     hasUnsavedChanges := hasUnsavedChanges state; activeTool := activeTool state;
     zoom := zoom state; panOffset := offset |}.

(** The undo/redo part of the store. [undo] and [redo] assign
    [history[i]] to [layers]; [None] stands for the [undefined] an index
    outside the array gives. *)
Record Timeline : Type := mkTimeline {
  current : option (list Layer);
  history : list (list Layer);
  historyIndex : Z
}.

(** [arr[i]] for an integer [i]. *)
Definition at_index {A} (arr : list A) (i : Z) : option A :=
  if (i <? 0)%Z then None else arr !! Z.to_nat i.

(** [arr.slice(0, end)]. *)
Definition slice_to {A} (arr : list A) (e : Z) : list A :=
  take (Array.actualStart (length arr) e) arr.

(** [pushHistory(state)]. *)
Definition pushHistory (snapshot : list Layer) (s : Timeline) : Timeline :=
  {| current := current s;
     history := slice_to (history s) (historyIndex s + 1) ++ [snapshot];
     historyIndex := historyIndex s + 1 |}.

(** [undo()]. *)
Definition undo (s : Timeline) : Timeline :=
  if (0 <? historyIndex s)%Z then
    {| current := at_index (history s) (historyIndex s - 1);
       history := history s;
       historyIndex := historyIndex s - 1 |}
  else s.

(** [redo()]. *)
Definition redo (s : Timeline) : Timeline :=
  if (historyIndex s <? Z.of_nat (length (history s)) - 1)%Z then
    {| current := at_index (history s) (historyIndex s + 1);
       history := history s;
       historyIndex := historyIndex s + 1 |}
  else s.

(** The store as created: [history: [], historyIndex: -1]. *)
Definition initialTimeline (ls : list Layer) : Timeline :=
  {| current := Some ls; history := []; historyIndex := -1 |}.

End EditorStore.

(** *** Header.jsx and Canvas.jsx: zooming *)

Module Zoom.
Import LayerStore EditorStore.

(** The header buttons: [setZoom(zoom - 0.1)] and [setZoom(zoom + 0.1)]. *)
Definition zoomOut (state : State) : State := setZoom (zoom state - Q2Qc (1 # 10))%Qc state.
Definition zoomIn (state : State) : State := setZoom (zoom state + Q2Qc (1 # 10))%Qc state.

Record WheelEvent : Type := mkWheel { ctrlKey : bool; metaKey : bool; deltaY : Qc }.

(** [handleWheel(e)] of the canvas. *)
Definition handleWheel (e : WheelEvent) (state : State) : State :=
  if ctrlKey e || metaKey e then
    let delta := if Qclt_le_dec 0%Qc (deltaY e) then (- Q2Qc (1 # 10))%Qc else Q2Qc (1 # 10) in
    let newZoom :=
      QMath.Math_max (Q2Qc (1 # 10)) (QMath.Math_min (Qc_of_Z 5) (zoom state + delta)%Qc) in
    setZoom newZoom state
  else state.

End Zoom.

(** *** LayerPanel.jsx: the other buttons *)

Module LayerButtons.
Import LayerStore.

(** [handleAddLayer()]; [now] is the reading of [Date.now()]. *)
Definition handleAddLayer (now : Z) (state : State) : State :=
  let newLayer : Layer :=
    {[ "id" := VStr ("layer-" +:+ pretty now);
       "name" := VStr ("Layer " +:+ pretty (length (layers state) + 1));
       "type" := VStr "image";
       "image_base64" := VStr "";
       "visible" := VBool true;
       "opacity" := VNum 1;
       "blend_mode" := VStr "normal";
       "order" := VNum (Z.of_nat (length (layers state))) ]} in
  addLayer newLayer state.

(** [!v]. *)
Definition not (v : value) : value := VBool (negb (Obj.truthy v)).

(** The eye button: [updateLayer(layer.id, { visible: !layer.visible })]. *)
Definition toggleVisible (layer : Layer) (state : State) : State :=
  updateLayer (Obj.get layer "id") {[ "visible" := not (Obj.get layer "visible") ]} state.

(** The bin button: [removeLayer(layer.id)]. *)
Definition deleteLayer (layer : Layer) (state : State) : State :=
  removeLayer (Obj.get layer "id") state.

End LayerButtons.

(** The clamp of [setZoom]. *)
Definition clampZoom (z : Qc) : Qc :=
  QMath.Math_max (Q2Qc (1 # 10)) (QMath.Math_min (Qc_of_Z 5) z).

(** The history index points into the history (or is -1 when there is
    none), and [layers] is an array. *)
Definition timeline_ok (s : EditorStore.Timeline) : Prop :=
  (-1 <= EditorStore.historyIndex s < Z.of_nat (length (EditorStore.history s)))%Z /\
  is_Some (EditorStore.current s).

(** *** Canvas.jsx: moving the mouse *)

Module CanvasMove.
Import LayerStore EditorStore CanvasView.

(** What the rasteriser of the browser makes of the three stroke calls
    of [handleMouseMove] (line width 4, black), given the composite
    operation in force and the bitmap drawn on: the new pixel data. A
    stroke never changes the size of the canvas. *)
Class Painter : Type := {
  strokeLine : value -> Qc * Qc -> Qc * Qc -> ImageData -> list Z;
  strokeRect : value -> Qc * Qc -> Qc -> Qc -> ImageData -> list Z;
  strokeEllipse : value -> Qc * Qc -> Qc -> Qc -> ImageData -> list Z
}.

(** How the handler ends: normally, or by an uncaught exception after
    what it had done already. *)
Inductive moved : Type :=
| Moved (sc : State * Component)
| MoveThrown (msg : string) (sc : State * Component).

Definition Math_abs (q : Qc) : Qc := if Qclt_le_dec q 0%Qc then (- q)%Qc else q.

Definition paint (pixels : list Z) (o : Overlay) : Overlay :=
  {| bitmap := {| width := width (bitmap o); height := height (bitmap o); data := pixels |};
     boundingClientRect := boundingClientRect o;
     pendingImage := pendingImage o |}.

Definition with_overlay (o : Overlay) (last : option (Qc * Qc)) (c : Component) : Component :=
  {| isDragging := isDragging c; dragStart := dragStart c; canvasSize := canvasSize c;
     isDrawing := isDrawing c; isErasing := isErasing c;
     startPoint := startPoint c; lastPoint := last;
     overlayRef := Some o |}.

Section WithPainter.
Context {P : Painter}.

(** [handleMouseMove(e)]. *)
Definition handleMouseMove (e : MouseEvent) (sc : State * Component) : moved :=
  let '(state, c) := sc in
  if isDragging c then
    Moved (setPanOffset (clientX e - fst (dragStart c), clientY e - snd (dragStart c))%Qc state,
           c)
  else if negb (isDrawing c) || negb (includes drawingTools (activeTool state)) then
    Moved (state, c)
  else
    let xy := getCanvasCoords e state c in
    match overlayRef c with
    | None => Moved (state, c)
    | Some overlay =>
        let op := if bool_decide (activeTool state = "eraser")
                  then VStr "destination-out" else VStr "source-over" in
        if bool_decide (activeTool state = "brush") || bool_decide (activeTool state = "eraser")
        then
          match lastPoint c with
          | Some last =>
              Moved (state,
                     with_overlay (paint (strokeLine op last xy (bitmap overlay)) overlay)
                                  (Some xy) c)
          | None => Moved (state, c)
          end
        else if bool_decide (activeTool state = "rectangle") then
          let overlay := clearRect overlay in
          match startPoint c with
          | None => MoveThrown "TypeError" (state, with_overlay overlay (lastPoint c) c)
          | Some start =>
              let width := (fst xy - fst start)%Qc in
              let height := (snd xy - snd start)%Qc in
              Moved (state,
                     with_overlay (paint (strokeRect op start width height (bitmap overlay))
                                         overlay)
                                  (lastPoint c) c)
          end
        else if bool_decide (activeTool state = "ellipse") then
          let overlay := clearRect overlay in
          match startPoint c with
          | None => MoveThrown "TypeError" (state, with_overlay overlay (lastPoint c) c)
          | Some start =>
              let centre := ((fst start + fst xy) / Qc_of_Z 2, (snd start + snd xy) / Qc_of_Z 2)%Qc in
              let rx := (Math_abs (fst xy - fst start) / Qc_of_Z 2)%Qc in
              let ry := (Math_abs (snd xy - snd start) / Qc_of_Z 2)%Qc in
              Moved (state,
                     with_overlay (paint (strokeEllipse op centre rx ry (bitmap overlay))
                                         overlay)
                                  (lastPoint c) c)
          end
        else Moved (state, c)
    end.

End WithPainter.

End CanvasMove.

(** The test of the [filter] in [handleExport]:
    [l.visible && l.image_base64]. *)
Definition exported (l : Layer) : bool :=
  Obj.truthy (Obj.get l "visible") && Obj.truthy (Obj.get l "image_base64").

(** The store after the view was dragged from the press [e1] to the
    pointer position of [e]: the pan offset is the pointer position
    minus the drag start, and the drag start is the position of the
    press minus the pan offset at that time -- the two subtractions of
    [handleMouseDown] and [handleMouseMove], in the order the handlers
    perform them. *)
Definition panned (e1 e : CanvasView.MouseEvent) (state : LayerStore.State) : LayerStore.State :=
  EditorStore.setPanOffset
    ((CanvasView.clientX e - (CanvasView.clientX e1 - fst (LayerStore.panOffset state)))%Qc,
     (CanvasView.clientY e - (CanvasView.clientY e1 - snd (LayerStore.panOffset state)))%Qc)
    state.

(** ** Part II: properties *)

(** *** The canvas *)

Section CanvasFacts.
Import Canvas2D.
Context {E : Engine} {L : EngineLaws E}.

Lemma straight_lookup (px : list Pixel) : forall p c,
  c < 4 ->
  flat_map straight px !! (4 * p + c) = px !! p ≫= (fun d => straight d !! c).
Proof.
  induction px as [|d px IH]; intros p c Hc; [reflexivity|].
  cbn [flat_map]. destruct p as [|p].
  - rewrite lookup_app_l by (cbn; lia). reflexivity.
  - rewrite lookup_app_r by (cbn; lia).
    replace (4 * S p + c - length (straight d)) with (4 * p + c) by (cbn; lia).
    apply IH. assumption.
Qed.

Lemma straight_length (px : list Pixel) :
  length (flat_map straight px) = 4 * length px.
Proof.
  induction px as [|d px IH]; [reflexivity|].
  cbn [flat_map]. rewrite length_app, IH. cbn. lia.
Qed.

Lemma alpha_at_toDataURL ctx p :
  alpha_at (toDataURL ctx) p = alpha <$> pixels ctx !! p.
Proof.
  unfold alpha_at, toDataURL, getImageData; cbn [data].
  rewrite straight_lookup by lia. destruct (pixels ctx !! p); reflexivity.
Qed.

Lemma position_in_image (w h p : nat) :
  p < w * h -> p `mod` w < w /\ p `div` w < h /\ p `div` w * w + p `mod` w = p.
Proof.
  intros Hp. assert (w <> 0) by lia.
  split; [apply Nat.mod_upper_bound; assumption|].
  split.
  - apply Nat.Div0.div_lt_upper_bound. lia.
  - pose proof (Nat.div_mod p w ltac:(assumption)). lia.
Qed.

(** A pixel of the canvas that the drawn image covers. *)
Lemma drawImage_covered img ctx p d :
  canvas_width ctx = width img ->
  p < width img * height img ->
  pixels ctx !! p = Some d ->
  pixels (drawImage img ctx) !! p
  = Some (blend (globalAlpha ctx) (globalCompositeOperation ctx) d (pixelOf (data img) p)).
Proof.
  intros Hw Hp Hd. unfold drawImage; cbn [pixels].
  rewrite list_lookup_imap, Hd. cbn [fmap option_fmap option_map].
  rewrite Hw. destruct (position_in_image _ _ _ Hp) as (Hx & Hy & Hxy).
  rewrite decide_True by (split; assumption). rewrite Hxy. reflexivity.
Qed.

(** The first [drawImage] of an image onto the fresh canvas of its size. *)
Lemma first_draw img p :
  p < width img * height img ->
  pixels (drawImage img (createCanvas (width img) (height img))) !! p
  = Some (blend (VNum 1) (VStr "source-over") transparent (pixelOf (data img) p)).
Proof.
  intros Hp. apply drawImage_covered; [reflexivity|assumption|].
  cbn [createCanvas pixels]. apply lookup_replicate_2. assumption.
Qed.

Lemma first_draw_length img :
  length (pixels (drawImage img (createCanvas (width img) (height img))))
  = width img * height img.
Proof.
  unfold drawImage; cbn [pixels createCanvas canvas_width].
  rewrite length_imap, length_replicate. reflexivity.
Qed.

Lemma alpha_pixelOf (img : ImageData) p v :
  alpha_at img p = Some v -> alpha (pixelOf (data img) p) = v.
Proof. unfold alpha_at, pixelOf. intros ->. reflexivity. Qed.

Lemma byte_at (img : ImageData) j :
  wf_image img -> j < 4 * (width img * height img) ->
  exists v, data img !! j = Some v /\ (0 <= v <= 255)%Z.
Proof.
  intros [Hlen Hbytes] Hj.
  destruct (data img !! j) as [x|] eqn:Hx.
  - exists x. split; [reflexivity|].
    rewrite Forall_forall in Hbytes. apply Hbytes.
    apply list_elem_of_lookup. eauto.
  - apply lookup_ge_None in Hx. lia.
Qed.

Lemma alpha_at_defined (img : ImageData) p :
  wf_image img -> p < width img * height img ->
  exists v, alpha_at img p = Some v /\ (0 <= v <= 255)%Z.
Proof. intros Hwf Hp. apply byte_at; [assumption|lia]. Qed.

Lemma red_at_defined (img : ImageData) p :
  wf_image img -> p < width img * height img ->
  exists x, red_at img p = Some x /\ (0 <= x <= 255)%Z.
Proof. intros Hwf Hp. apply byte_at; [assumption|lia]. Qed.

Lemma clamp8_byte v : (0 <= v <= 255)%Z -> clamp8 v = v.
Proof. unfold clamp8. lia. Qed.

(** An opaque pixel drawn on the fresh canvas and read back is itself. *)
Lemma opaque_pixel_roundtrip r g b :
  (0 <= r <= 255)%Z -> (0 <= g <= 255)%Z -> (0 <= b <= 255)%Z ->
  straight (blend (VNum 1) (VStr "source-over") transparent
                  {| red := r; green := g; blue := b; alpha := 255 |})
  = [r; g; b; 255%Z].
Proof.
  intros Hr Hg Hb. unfold blend. rewrite !decide_True by reflexivity.
  cbn [premultiply transparent red green blue alpha].
  rewrite !mul255_0_l, !mul255_255_r by lia.
  rewrite !Z.add_0_r, !clamp8_byte by lia.
  unfold straight; cbn [red green blue alpha].
  rewrite !unpremultiply_255 by assumption. reflexivity.
Qed.

(** A gray, opaque pixel put on a canvas and read back is itself. *)
Lemma gray_pixel_roundtrip v :
  (0 <= v <= 255)%Z ->
  straight (premultiply {| red := v; green := v; blue := v; alpha := 255 |})
  = [v; v; v; 255%Z].
Proof.
  intros Hv. unfold straight, premultiply; cbn [red green blue alpha].
  rewrite !mul255_255_r, !unpremultiply_255 by assumption. reflexivity.
Qed.

End CanvasFacts.

(** *** MaskAlgebra *)

Section MaskAlgebraFacts.
Import Canvas2D MaskAlgebra.
Context {E : Engine}.

Lemma storePixel_frame i v st :
  data1 (storePixel i v st) = data1 st /\
  data2 (storePixel i v st) = data2 st /\
  width (result (storePixel i v st)) = width (result st) /\
  height (result (storePixel i v st)) = height (result st) /\
  length (data (result (storePixel i v st))) = length (data (result st)).
Proof.
  unfold storePixel; simpl. rewrite !length_insert. auto.
Qed.

Lemma storePixel_below i v st j :
  j < i -> data (result (storePixel i v st)) !! j = data (result st) !! j.
Proof.
  intros Hj. unfold storePixel; simpl.
  rewrite !list_lookup_insert_ne by lia. reflexivity.
Qed.

Lemma storePixel_at i v st c :
  i + 3 < length (data (result st)) -> c < 4 ->
  data (result (storePixel i v st)) !! (i + c) = Some (written v c).
Proof.
  intros Hlen Hc. unfold storePixel, written; simpl.
  destruct c as [|[|[|[|c]]]]; try lia; simpl.
  - rewrite !list_lookup_insert_ne by lia.
    rewrite Nat.add_0_r. apply list_lookup_insert_eq. lia.
  - rewrite !list_lookup_insert_ne by lia.
    apply list_lookup_insert_eq. rewrite length_insert. lia.
  - rewrite list_lookup_insert_ne by lia.
    apply list_lookup_insert_eq. rewrite !length_insert. lia.
  - apply list_lookup_insert_eq. rewrite !length_insert. lia.
Qed.

Lemma forPixels_S fuel val i st :
  forPixels (S fuel) val i st =
  if decide (i < length (data (result st))) then
    forPixels fuel val (i + 4)
      (storePixel i (val (data (imageData (data1 st)) !! i)
                         (data (imageData (data2 st)) !! i)) st)
  else st.
Proof. reflexivity. Qed.

Lemma forPixels_frame fuel val : forall i st,
  data1 (forPixels fuel val i st) = data1 st /\
  data2 (forPixels fuel val i st) = data2 st /\
  width (result (forPixels fuel val i st)) = width (result st) /\
  height (result (forPixels fuel val i st)) = height (result st) /\
  length (data (result (forPixels fuel val i st))) = length (data (result st)).
Proof.
  induction fuel as [|fuel IH]; intros i st; [simpl; auto|].
  rewrite forPixels_S. case_decide; [|auto].
  match goal with |- context [forPixels fuel val (i + 4) ?st1] =>
    destruct (IH (i + 4) st1) as (H1 & H2 & H3 & H4 & H5) end.
  match goal with |- context [storePixel i ?v st] =>
    destruct (storePixel_frame i v st) as (G1 & G2 & G3 & G4 & G5) end.
  repeat split; congruence.
Qed.

Lemma forPixels_below fuel val : forall i st j,
  j < i -> data (result (forPixels fuel val i st)) !! j = data (result st) !! j.
Proof.
  induction fuel as [|fuel IH]; intros i st j Hj; [reflexivity|].
  rewrite forPixels_S. case_decide; [|reflexivity].
  rewrite IH by lia. apply storePixel_below; assumption.
Qed.

(** With enough fuel the loop writes every pixel from [k] on. *)
Lemma forPixels_from fuel val : forall k st n,
  length (data (result st)) = 4 * n ->
  n <= k + fuel ->
  forall q c, k <= q < n -> c < 4 ->
    data (result (forPixels fuel val (4 * k) st)) !! (4 * q + c)
    = Some (written (val (data (imageData (data1 st)) !! (4 * q))
                         (data (imageData (data2 st)) !! (4 * q))) c).
Proof.
  induction fuel as [|fuel IH]; intros k st n Hlen Hfuel q c Hq Hc; [lia|].
  rewrite forPixels_S. case_decide as Hi; [|lia].
  match goal with |- context [storePixel (4 * k) ?v st] =>
    set (st1 := storePixel (4 * k) v st);
    destruct (storePixel_frame (4 * k) v st) as (G1 & G2 & _ & _ & G5) end.
  fold st1 in G1, G2, G5.
  destruct (decide (q = k)) as [->|Hne].
  - rewrite forPixels_below by lia.
    apply storePixel_at; lia.
  - replace (4 * k + 4) with (4 * (k + 1)) by lia.
    rewrite (IH (k + 1) st1 n) by lia.
    rewrite G1, G2. reflexivity.
Qed.

Lemma pairwise_frame val a b :
  data1 (pairwise val a b) = loadImageData a /\
  data2 (pairwise val a b) = loadImageData b /\
  width (result (pairwise val a b)) = width a /\
  height (result (pairwise val a b)) = height a /\
  length (data (result (pairwise val a b))) = 4 * (width a * height a).
Proof.
  unfold pairwise.
  match goal with |- context [forPixels ?f val 0 ?st] =>
    destruct (forPixels_frame f val 0 st) as (H1 & H2 & H3 & H4 & H5) end.
  rewrite H1, H2, H3, H4, H5. simpl. rewrite length_replicate. auto.
Qed.

(** What the loop leaves in [result.data]. *)
Lemma pairwise_pixel val a b p c :
  p < width a * height a -> c < 4 ->
  data (result (pairwise val a b)) !! (4 * p + c)
  = Some (written (val (red_at (imageData (loadImageData a)) p)
                       (red_at (imageData (loadImageData b)) p)) c).
Proof.
  intros Hp Hc. unfold pairwise.
  change 0 with (4 * 0) at 2.
  rewrite (forPixels_from _ val 0 _ (width a * height a)); simpl;
    rewrite ?length_replicate; try lia.
  reflexivity.
Qed.

Lemma loadImageData_length a :
  length (data (imageData (loadImageData a))) = 4 * (width a * height a).
Proof.
  cbn [loadImageData imageData getImageData data].
  rewrite straight_length, first_draw_length. reflexivity.
Qed.

Lemma toUint8Clamped_byte v : (0 <= Js.toUint8Clamped v <= 255)%Z.
Proof. destruct v as [z|]; simpl; lia. Qed.

Lemma red_only_result fuel val : forall i st st',
  result st = result st' ->
  (forall j, data (imageData (data1 st)) !! (4 * j) = data (imageData (data1 st')) !! (4 * j)) ->
  (forall j, data (imageData (data2 st)) !! (4 * j) = data (imageData (data2 st')) !! (4 * j)) ->
  result (forPixels fuel val (4 * i) st) = result (forPixels fuel val (4 * i) st').
Proof.
  induction fuel as [|fuel IH]; intros i st st' Hr H1 H2; [assumption|].
  rewrite !forPixels_S. rewrite <- Hr. case_decide; [|assumption].
  replace (4 * i + 4) with (4 * (i + 1)) by lia.
  apply IH.
  - unfold storePixel; cbn [result data1 data2]. rewrite <- Hr, H1, H2. reflexivity.
  - intros j. apply H1.
  - intros j. apply H2.
Qed.

Context {L : EngineLaws E}.

Lemma encodeResult_size val a b :
  width (encodeResult (pairwise val a b)) = width a /\
  height (encodeResult (pairwise val a b)) = height a /\
  length (data (encodeResult (pairwise val a b))) = 4 * (width a * height a).
Proof.
  destruct (pairwise_frame val a b) as (H1 & _).
  unfold encodeResult, toDataURL, getImageData, putImageData.
  cbn [width height data canvas_width canvas_height pixels].
  rewrite H1. cbn [ctx loadImageData].
  rewrite straight_length, length_imap, first_draw_length.
  unfold drawImage; cbn [canvas_width canvas_height createCanvas]. auto.
Qed.

(** Every pixel a pairwise operation returns is a gray level: the
    value the loop computed from the two red bytes it read. *)
Lemma pairwise_gray val a b p :
  p < width a * height a ->
  gray_pixel (encodeResult (pairwise val a b)) p
             (Js.toUint8Clamped (val (red_at (imageData (loadImageData a)) p)
                                     (red_at (imageData (loadImageData b)) p))).
Proof.
  intros Hp.
  set (v := Js.toUint8Clamped _).
  assert (Hpx : pixelOf (data (result (pairwise val a b))) p
                = {| red := v; green := v; blue := v; alpha := 255 |}).
  { unfold pixelOf. rewrite <- (Nat.add_0_r (4 * p)) at 1.
    rewrite !pairwise_pixel by lia. reflexivity. }
  assert (Hrow : forall c, c < 4 ->
            data (encodeResult (pairwise val a b)) !! (4 * p + c) = [v; v; v; 255%Z] !! c).
  { intros c Hc. unfold encodeResult, toDataURL, getImageData; cbn [data].
    rewrite straight_lookup by assumption.
    unfold putImageData; cbn [pixels]. rewrite list_lookup_imap.
    destruct (pairwise_frame val a b) as (H1 & _). rewrite H1. cbn [ctx loadImageData].
    destruct (lookup_lt_is_Some_2
                (pixels (drawImage a (createCanvas (width a) (height a)))) p) as [d Hd];
      [rewrite first_draw_length; assumption|].
    rewrite Hd. cbn [fmap option_fmap option_map mbind option_bind].
    rewrite Hpx, gray_pixel_roundtrip by apply toUint8Clamped_byte. reflexivity. }
  unfold gray_pixel, red_at, green_at, blue_at, alpha_at.
  rewrite <- (Nat.add_0_r (4 * p)) at 1.
  rewrite !Hrow by lia. auto.
Qed.

(** The result is a function of the size of the first operand and of
    the red bytes read from both. *)
Lemma pairwise_red_only val a a' b b' :
  width a = width a' -> height a = height a' ->
  (forall p, red_at (imageData (loadImageData a)) p = red_at (imageData (loadImageData a')) p) ->
  (forall p, red_at (imageData (loadImageData b)) p = red_at (imageData (loadImageData b')) p) ->
  encodeResult (pairwise val a b) = encodeResult (pairwise val a' b').
Proof.
  intros Hw Hh Ha Hb.
  assert (Hres : result (pairwise val a b) = result (pairwise val a' b')).
  { unfold pairwise. cbn [loaded_width loaded_height loadImageData].
    rewrite <- Hw, <- Hh. change 0 with (4 * 0).
    apply red_only_result; cbn [result data1 data2]; auto. }
  unfold encodeResult, toDataURL, getImageData, putImageData.
  cbn [width height data canvas_width canvas_height pixels].
  destruct (pairwise_frame val a b) as (H1 & _).
  destruct (pairwise_frame val a' b') as (H1' & _).
  rewrite H1, H1', Hres. cbn [ctx loadImageData].
  unfold drawImage; cbn [canvas_width canvas_height createCanvas pixels].
  rewrite <- Hw, <- Hh. f_equal. f_equal.
  apply list_eq. intros i. rewrite !list_lookup_imap.
  destruct (decide (i < width a * height a)) as [Hi|Hi].
  - rewrite !lookup_replicate_2 by assumption. reflexivity.
  - rewrite !lookup_ge_None_2 by (rewrite length_replicate; lia). reflexivity.
Qed.

(** Loading an opaque mask gives back its bytes. *)
Lemma loadImageData_opaque a p :
  wf_image a -> opaque a -> p < width a * height a ->
  red_at (imageData (loadImageData a)) p = red_at a p.
Proof.
  intros Hwf Hop Hp.
  destruct (byte_at a (4 * p) Hwf) as (r & Hr & Hrr); [lia|].
  destruct (byte_at a (4 * p + 1) Hwf) as (g & Hg & Hgr); [lia|].
  destruct (byte_at a (4 * p + 2) Hwf) as (b & Hb & Hbr); [lia|].
  pose proof (Hop p Hp) as Hal. unfold alpha_at in Hal.
  unfold red_at. cbn [loadImageData imageData getImageData data].
  rewrite <- (Nat.add_0_r (4 * p)) at 1.
  rewrite straight_lookup by lia. rewrite first_draw by assumption.
  cbn [mbind option_bind]. unfold pixelOf. rewrite Hr, Hg, Hb, Hal.
  cbn [default]. rewrite opaque_pixel_roundtrip by assumption.
  reflexivity.
Qed.

(** C1, as the code has it: on an empty list [combineMasks] returns
    [null], whatever the operation (the length test comes before the
    operation is looked up); no error is raised. *)
Theorem C1_combineMasks_empty_returns_null (operation : string) :
  combineMasks [] operation = Js.Normal None /\
  (forall msg, combineMasks [] operation <> Js.Throw msg).
Proof.
  split; [reflexivity|]. intros msg H. discriminate H.
Qed.

(** C2: for equal-dimension opaque masks [a] and [b] (four bytes per
    pixel, alpha 255), every pixel of the result is the gray level
    max(a,b) for union, min(a,b) for intersection, max(0,a-b) for
    subtract and |a-b| for xor, computed on the operands' pixel values;
    the result has the dimensions of the first operand; and the pixel
    data read from both operands is what it was when the loop has run. *)
Theorem C2_pairwise_formulas (a b : ImageData) :
  wf_image a -> wf_image b -> opaque a -> opaque b ->
  width a = width b -> height a = height b ->
  (forall p, p < width a * height a ->
     exists x y, red_at a p = Some x /\ red_at b p = Some y /\
       gray_pixel (maskUnion a b) p (Z.max x y) /\
       gray_pixel (maskIntersection a b) p (Z.min x y) /\
       gray_pixel (maskSubtract a b) p (Z.max 0 (x - y)) /\
       gray_pixel (maskXor a b) p (Z.abs (x - y))) /\
  (forall f, In f [maskUnion; maskIntersection; maskSubtract; maskXor] ->
     width (f a b) = width a /\ height (f a b) = height a /\
     length (data (f a b)) = 4 * (width a * height a)) /\
  (forall val, In val [unionVal; intersectionVal; subtractVal; xorVal] ->
     imageData (data1 (pairwise val a b)) = imageData (loadImageData a) /\
     imageData (data2 (pairwise val a b)) = imageData (loadImageData b)).
Proof.
  intros Ha Hb Hoa Hob Hw Hh. split; [|split].
  - intros p Hp.
    assert (Hp' : p < width b * height b) by (rewrite <- Hw, <- Hh; exact Hp).
    destruct (red_at_defined a p Ha Hp) as (x & Hx & Hxr).
    destruct (red_at_defined b p Hb Hp') as (y & Hy & Hyr).
    exists x, y. split; [exact Hx|]. split; [exact Hy|].
    unfold maskUnion, maskIntersection, maskSubtract, maskXor.
    pose proof (pairwise_gray unionVal a b p Hp) as H1.
    pose proof (pairwise_gray intersectionVal a b p Hp) as H2.
    pose proof (pairwise_gray subtractVal a b p Hp) as H3.
    pose proof (pairwise_gray xorVal a b p Hp) as H4.
    rewrite (loadImageData_opaque a p Ha Hoa Hp), (loadImageData_opaque b p Hb Hob Hp'),
      Hx, Hy in H1, H2, H3, H4.
    unfold unionVal, intersectionVal, subtractVal, xorVal in H1, H2, H3, H4.
    simpl in H1, H2, H3, H4.
    replace (Z.max 0 (Z.min 255 (Z.max x y))) with (Z.max x y) in H1 by lia.
    replace (Z.max 0 (Z.min 255 (Z.min x y))) with (Z.min x y) in H2 by lia.
    replace (Z.max 0 (Z.min 255 (Z.max 0 (x - y)))) with (Z.max 0 (x - y)) in H3 by lia.
    replace (Z.max 0 (Z.min 255 (Z.abs (x - y)))) with (Z.abs (x - y)) in H4 by lia.
    auto.
  - intros f Hf. simpl in Hf.
    destruct Hf as [<-|[<-|[<-|[<-|[]]]]];
      unfold maskUnion, maskIntersection, maskSubtract, maskXor;
      apply encodeResult_size.
  - intros val _. destruct (pairwise_frame val a b) as (G1 & G2 & _).
    rewrite G1, G2. auto.
Qed.

Lemma straight_red d : straight d !! 0 = Some (unpremultiply (red d) (alpha d)).
Proof. reflexivity. Qed.

(** What the first draw on a fresh canvas stores for the red and the
    alpha of a pixel depends on the red and the alpha of the source. *)
Lemma first_blend_red_alpha s s' :
  red s = red s' -> alpha s = alpha s' ->
  red (blend (VNum 1) (VStr "source-over") transparent s)
  = red (blend (VNum 1) (VStr "source-over") transparent s') /\
  alpha (blend (VNum 1) (VStr "source-over") transparent s)
  = alpha (blend (VNum 1) (VStr "source-over") transparent s').
Proof.
  intros Hr Ha. unfold blend. rewrite !decide_True by reflexivity.
  cbn [premultiply red alpha]. rewrite Hr, Ha. split; reflexivity.
Qed.

(** The red bytes [loadImageData] returns are a function of the size
    and of the red and alpha bytes of the mask. *)
Lemma loadImageData_red_alpha a a' :
  width a = width a' -> height a = height a' ->
  (forall p, red_at a p = red_at a' p /\ alpha_at a p = alpha_at a' p) ->
  forall p, red_at (imageData (loadImageData a)) p = red_at (imageData (loadImageData a')) p.
Proof.
  intros Hw Hh Hch p.
  destruct (decide (p < width a * height a)) as [Hp|Hp].
  - assert (Hp' : p < width a' * height a') by (rewrite <- Hw, <- Hh; assumption).
    unfold red_at at 1 2. cbn [loadImageData imageData getImageData data].
    rewrite <- (Nat.add_0_r (4 * p)).
    rewrite !straight_lookup by lia. rewrite !first_draw by assumption.
    cbn [mbind option_bind]. rewrite !straight_red.
    destruct (Hch p) as [Hr Ha]. unfold red_at, alpha_at in Hr, Ha.
    destruct (first_blend_red_alpha (pixelOf (data a) p) (pixelOf (data a') p)) as [Er Ea].
    + unfold pixelOf; cbn [red]. rewrite Hr. reflexivity.
    + unfold pixelOf; cbn [alpha]. rewrite Ha. reflexivity.
    + rewrite Er, Ea. reflexivity.
  - unfold red_at. rewrite !lookup_ge_None_2; [reflexivity| |];
      rewrite loadImageData_length; rewrite <- ?Hw, <- ?Hh; lia.
Qed.

(** C9, as the code has it: every pixel a pairwise mask operation
    produces has R = G = B and A = 255, whatever the channels of the
    operands hold; and masks of the same sizes that agree on their red
    and alpha bytes give the same result: the green and blue bytes of
    the inputs never reach it. (The alpha bytes do, through the canvas
    the masks are decoded on.) *)
Theorem C9_outputs_are_gray_and_depend_on_red_and_alpha (a b : ImageData) :
  (forall f, In f [maskUnion; maskIntersection; maskSubtract; maskXor] ->
     forall p, p < width (f a b) * height (f a b) -> exists v, gray_pixel (f a b) p v) /\
  (forall a' b',
     width a = width a' -> height a = height a' ->
     width b = width b' -> height b = height b' ->
     (forall p, red_at a p = red_at a' p /\ alpha_at a p = alpha_at a' p) ->
     (forall p, red_at b p = red_at b' p /\ alpha_at b p = alpha_at b' p) ->
     forall f, In f [maskUnion; maskIntersection; maskSubtract; maskXor] ->
       f a b = f a' b').
Proof.
  split.
  - intros f Hf. simpl in Hf.
    destruct Hf as [<-|[<-|[<-|[<-|[]]]]];
      unfold maskUnion, maskIntersection, maskSubtract, maskXor;
      intros p Hp;
      match goal with |- context [pairwise ?v a b] =>
        destruct (encodeResult_size v a b) as (G1 & G2 & _);
        rewrite G1, G2 in Hp;
        eexists; apply (pairwise_gray v a b p Hp) end.
  - intros a' b' Hwa Hha Hwb Hhb Ha Hb f Hf. simpl in Hf.
    pose proof (loadImageData_red_alpha a a' Hwa Hha Ha) as Hra.
    pose proof (loadImageData_red_alpha b b' Hwb Hhb Hb) as Hrb.
    destruct Hf as [<-|[<-|[<-|[<-|[]]]]];
      unfold maskUnion, maskIntersection, maskSubtract, maskXor;
      apply pairwise_red_only; assumption.
Qed.

End MaskAlgebraFacts.

Lemma reference_engine_laws : EngineLaws ReferenceEngine.engine.
Proof.
  split; cbn.
  - intros y. reflexivity.
  - intros y Hy. unfold ReferenceEngine.mul255.
    symmetry. apply (Z.div_unique _ _ _ 127); lia.
  - intros x Hx. unfold ReferenceEngine.mul255.
    symmetry. apply (Z.div_unique _ _ _ 127); lia.
  - intros x Hx. unfold ReferenceEngine.unpremultiply.
    change (255 =? 0)%Z with false. change (255 / 2)%Z with 127%Z. cbn match.
    replace ((x * 255 + 127) / 255)%Z with x; [lia|].
    apply (Z.div_unique _ _ _ 127); lia.
  - intros img. unfold ReferenceEngine.resample.
    rewrite decide_True by auto. reflexivity.
  - reflexivity.
  - reflexivity.
Qed.

(** C1, refuted as stated: the call with an empty list of masks ends
    normally with [null]; it does not fail with an [EmptyMaskSet] (or
    any other) error. *)
Lemma C1_counterexample_no_EmptyMaskSet_error :
  MaskAlgebra.combineMasks (E := ReferenceEngine.engine) [] "union" = Js.Normal None /\
  ~ (exists msg, MaskAlgebra.combineMasks (E := ReferenceEngine.engine) [] "union"
                 = Js.Throw msg).
Proof.
  split; [reflexivity|]. intros [msg H]. discriminate H.
Qed.

Lemma wf_maskA : wf_image maskA.
Proof. split; [reflexivity|]. repeat constructor; lia. Qed.

Lemma wf_maskB : wf_image maskB.
Proof. split; [reflexivity|]. repeat constructor; lia. Qed.

Lemma opaque_maskA : opaque maskA.
Proof.
  intros p Hp. destruct p as [|[|p]]; [reflexivity|reflexivity|].
  cbn in Hp. lia.
Qed.

Lemma opaque_maskB : opaque maskB.
Proof.
  intros p Hp. destruct p as [|[|p]]; [reflexivity|reflexivity|].
  cbn in Hp. lia.
Qed.

Lemma C2_pairwise_formulas_witness :
  gray_pixel (MaskAlgebra.maskUnion (E := ReferenceEngine.engine) maskA maskB) 1 200 /\
  gray_pixel (MaskAlgebra.maskIntersection (E := ReferenceEngine.engine) maskA maskB) 1 100 /\
  gray_pixel (MaskAlgebra.maskSubtract (E := ReferenceEngine.engine) maskA maskB) 1 100 /\
  gray_pixel (MaskAlgebra.maskXor (E := ReferenceEngine.engine) maskA maskB) 1 100.
Proof.
  destruct (proj1 (C2_pairwise_formulas
                     (E := ReferenceEngine.engine) (L := reference_engine_laws)
                     maskA maskB wf_maskA wf_maskB opaque_maskA opaque_maskB eq_refl eq_refl)
                  1 ltac:(cbn; lia))
    as (x & y & Hx & Hy & H).
  cbv in Hx, Hy. injection Hx as <-. injection Hy as <-. exact H.
Defined.

Lemma same_red_alpha_maskA p :
  red_at maskA p = red_at maskA' p /\ alpha_at maskA p = alpha_at maskA' p.
Proof.
  destruct p as [|[|p]]; [split; reflexivity|split; reflexivity|].
  unfold red_at, alpha_at. rewrite !lookup_ge_None_2 by (cbn; lia). split; reflexivity.
Qed.

Lemma C9_outputs_are_gray_and_depend_on_red_and_alpha_witness :
  MaskAlgebra.maskXor (E := ReferenceEngine.engine) maskA maskB
  = MaskAlgebra.maskXor (E := ReferenceEngine.engine) maskA' maskB.
Proof.
  refine (proj2 (C9_outputs_are_gray_and_depend_on_red_and_alpha
                   (E := ReferenceEngine.engine) (L := reference_engine_laws) maskA maskB)
                maskA' maskB eq_refl eq_refl eq_refl eq_refl same_red_alpha_maskA _
                MaskAlgebra.maskXor _).
  - intros p. split; reflexivity.
  - simpl. auto.
Defined.

(** C9, refuted as stated: two masks with the same red (and green and
    blue) bytes that differ in alpha only. The transparent one is
    decoded with red 0, the opaque one with red 255, and the
    exclusive-or with a third mask gives 30 for the one and 225 for the
    other: the inputs' alpha channel does influence the result. *)
Lemma C9_counterexample_alpha_reaches_the_result :
  let clear := {| width := 1; height := 1; data := [255; 255; 255; 0]%Z |} in
  let solid := {| width := 1; height := 1; data := [255; 255; 255; 255]%Z |} in
  let other := {| width := 1; height := 1; data := [30; 30; 30; 255]%Z |} in
  red_at clear 0 = red_at solid 0 /\
  green_at clear 0 = green_at solid 0 /\
  blue_at clear 0 = blue_at solid 0 /\
  data (MaskAlgebra.maskXor (E := ReferenceEngine.engine) clear other)
  = [30; 30; 30; 255]%Z /\
  data (MaskAlgebra.maskXor (E := ReferenceEngine.engine) solid other)
  = [225; 225; 225; 255]%Z /\
  MaskAlgebra.maskXor (E := ReferenceEngine.engine) clear other
  <> MaskAlgebra.maskXor (E := ReferenceEngine.engine) solid other.
Proof.
  intros clear solid other.
  split; [reflexivity|]. split; [reflexivity|]. split; [reflexivity|].
  split; [vm_compute; reflexivity|]. split; [vm_compute; reflexivity|].
  vm_compute. discriminate.
Qed.

(** *** Compositor *)

Section CompositorFacts.
Import Canvas2D Compositor.
Context {E : Engine} {L : EngineLaws E}.

(** The image drawn on the fresh canvas keeps its alpha. *)
Lemma first_draw_alpha image p :
  opaque image -> p < width image * height image ->
  exists d, pixels (drawImage image (createCanvas (width image) (height image))) !! p = Some d
            /\ alpha d = 255%Z.
Proof.
  intros Hop Hp. eexists. split; [apply first_draw; assumption|].
  unfold blend. rewrite !decide_True by reflexivity.
  cbn [alpha premultiply transparent].
  rewrite (alpha_pixelOf image p 255%Z) by (apply Hop; assumption).
  rewrite mul255_0_l. reflexivity.
Qed.

(** Alpha of a pixel after the mask has been drawn with destination-in
    onto the image. *)
Lemma applyMaskToImage_alpha image mask p sa :
  opaque image ->
  width mask = width image -> height mask = height image ->
  p < width image * height image ->
  alpha_at mask p = Some sa -> (0 <= sa <= 255)%Z ->
  alpha_at (applyMaskToImage image mask false) p = Some sa.
Proof.
  intros Hop Hw Hh Hp Hsa Hr.
  unfold applyMaskToImage, drawImageScaled.
  rewrite alpha_at_toDataURL.
  destruct (first_draw_alpha image p Hop Hp) as (d & Hd & Hda).
  rewrite <- Hw, <- Hh, resample_same.
  erewrite drawImage_covered;
    [|cbn; congruence|rewrite Hw, Hh; assumption|cbn [set_globalCompositeOperation pixels]; rewrite Hw, Hh; exact Hd].
  cbn [set_globalCompositeOperation globalAlpha globalCompositeOperation drawImage createCanvas].
  rewrite valid_destination_in. unfold blend.
  rewrite decide_True by reflexivity.
  rewrite decide_False by discriminate.
  rewrite decide_True by reflexivity.
  cbn [fmap option_fmap option_map alpha].
  rewrite Hda, (alpha_pixelOf mask p sa Hsa), mul255_255_l by assumption.
  reflexivity.
Qed.

(** Alpha of a pixel after the mask has been drawn with
    destination-out onto the image. *)
Lemma removeMaskFromImage_alpha image mask p sa :
  opaque image ->
  width mask = width image -> height mask = height image ->
  p < width image * height image ->
  alpha_at mask p = Some sa -> (0 <= sa <= 255)%Z ->
  alpha_at (removeMaskFromImage image mask) p = Some (255 - sa)%Z.
Proof.
  intros Hop Hw Hh Hp Hsa Hr.
  unfold removeMaskFromImage, drawImageScaled.
  rewrite alpha_at_toDataURL.
  destruct (first_draw_alpha image p Hop Hp) as (d & Hd & Hda).
  rewrite <- Hw, <- Hh, resample_same.
  erewrite drawImage_covered;
    [|cbn; congruence|rewrite Hw, Hh; assumption|cbn [set_globalCompositeOperation pixels]; rewrite Hw, Hh; exact Hd].
  cbn [set_globalCompositeOperation globalAlpha globalCompositeOperation drawImage createCanvas].
  rewrite valid_destination_out. unfold blend.
  rewrite decide_True by reflexivity.
  rewrite decide_False by discriminate.
  rewrite decide_False by discriminate.
  rewrite decide_True by reflexivity.
  cbn [fmap option_fmap option_map alpha].
  rewrite Hda, (alpha_pixelOf mask p sa Hsa), mul255_255_l by lia.
  reflexivity.
Qed.

(** C3: for a fully opaque image and a mask of the same dimensions,
    at every pixel the alpha of [applyMaskToImage] plus the alpha of
    [removeMaskFromImage] is the alpha of the image. *)
Theorem C3_extract_remove_alpha_complementary (image mask : ImageData) :
  opaque image ->
  wf_image mask ->
  width mask = width image -> height mask = height image ->
  forall p, p < width image * height image ->
    exists ae ar,
      alpha_at (applyMaskToImage image mask false) p = Some ae /\
      alpha_at (removeMaskFromImage image mask) p = Some ar /\
      alpha_at image p = Some (ae + ar)%Z.
Proof.
  intros Hop Hm Hw Hh p Hp.
  destruct (alpha_at_defined mask p Hm) as (sa & Hsa & Hr);
    [rewrite Hw, Hh; assumption|].
  exists sa, (255 - sa)%Z. split; [|split].
  - apply applyMaskToImage_alpha; assumption.
  - apply removeMaskFromImage_alpha; assumption.
  - rewrite (Hop p Hp). f_equal. lia.
Qed.

End CompositorFacts.

Lemma wf_softMask : wf_image softMask.
Proof. split; [reflexivity|]. repeat constructor; lia. Qed.

Lemma opaque_photo : opaque photo.
Proof.
  intros p Hp. destruct p as [|[|p]]; [reflexivity|reflexivity|].
  cbn in Hp. lia.
Qed.

Lemma C3_extract_remove_alpha_complementary_witness :
  exists ae ar,
    alpha_at (Compositor.applyMaskToImage (E := ReferenceEngine.engine) photo softMask false) 0
      = Some ae /\
    alpha_at (Compositor.removeMaskFromImage (E := ReferenceEngine.engine) photo softMask) 0
      = Some ar /\
    alpha_at photo 0 = Some (ae + ar)%Z.
Proof.
  apply (C3_extract_remove_alpha_complementary
           (E := ReferenceEngine.engine) (L := reference_engine_laws)
           photo softMask opaque_photo wf_softMask eq_refl eq_refl 0).
  cbn. lia.
Defined.

Example maskUnion_sample :
  data (MaskAlgebra.maskUnion (E := ReferenceEngine.engine) maskA maskB)
  = [30; 30; 30; 255; 200; 200; 200; 255]%Z.
Proof. vm_compute. reflexivity. Qed.

Example maskSubtract_sample :
  data (MaskAlgebra.maskSubtract (E := ReferenceEngine.engine) maskA maskB)
  = [0; 0; 0; 255; 100; 100; 100; 255]%Z.
Proof. vm_compute. reflexivity. Qed.

Example combineMasks_unknown_operation :
  MaskAlgebra.combineMasks (E := ReferenceEngine.engine) [maskA; maskB] "average"
  = Js.Throw "Unknown mask operation: average".
Proof. vm_compute. reflexivity. Qed.

Example applyMaskToImage_sample :
  data (Compositor.applyMaskToImage (E := ReferenceEngine.engine) photo softMask false)
  = [10; 20; 31; 100; 200; 1; 2; 255]%Z.
Proof. vm_compute. reflexivity. Qed.

Example removeMaskFromImage_sample :
  data (Compositor.removeMaskFromImage (E := ReferenceEngine.engine) photo softMask)
  = [10; 20; 30; 155; 0; 0; 0; 0]%Z.
Proof. vm_compute. reflexivity. Qed.

(** *** LayerStore and LayerPanel *)

Section LayerFacts.
Import LayerStore LayerPanel.
Local Arguments Obj.get : simpl never.

Lemma spread_order (l : Layer) v :
  Obj.spread l {[ "order" := v ]} = <[ "order" := v ]> l.
Proof. unfold Obj.spread. symmetry. apply insert_union_singleton_l. Qed.

Lemma get_insert_eq (l : Layer) k v : Obj.get (<[ k := v ]> l) k = v.
Proof. unfold Obj.get. rewrite lookup_insert_eq. reflexivity. Qed.

Lemma get_insert_ne (l : Layer) k k' v :
  k <> k' -> Obj.get (<[ k := v ]> l) k' = Obj.get l k'.
Proof. intros H. unfold Obj.get. rewrite lookup_insert_ne by assumption. reflexivity. Qed.

Lemma updateOne_hit id v (l : Layer) :
  Obj.get l "id" = id ->
  updateOne id {[ "order" := v ]} l = <[ "order" := v ]> l.
Proof.
  intros H. unfold updateOne, Obj.strict_eq.
  rewrite bool_decide_eq_true_2 by assumption. apply spread_order.
Qed.

Lemma updateOne_miss id upd (l : Layer) :
  Obj.get l "id" <> id -> updateOne id upd l = l.
Proof.
  intros H. unfold updateOne, Obj.strict_eq.
  rewrite bool_decide_eq_false_2 by assumption. reflexivity.
Qed.

(** C4, as the code has it: [addLayer] appends the layer object it is
    given, unchanged (an [order] the caller left out stays left out),
    makes it the active layer, and is total. *)
Theorem C4_addLayer_appends_as_given (layer : Layer) (state : State) :
  layers (addLayer layer state) = layers state ++ [layer] /\
  layers (addLayer layer state) !! length (layers state) = Some layer /\
  activeLayerId (addLayer layer state) = Obj.get layer "id" /\
  hasUnsavedChanges (addLayer layer state) = true.
Proof.
  cbn. repeat split.
  rewrite lookup_app_r by lia. rewrite Nat.sub_diag. reflexivity.
Qed.

(** C4, refuted as stated: a layer passed without [order] to a store
    holding one layer is stored without [order]; it is not given the
    order 1, the layer count. *)
Lemma C4_counterexample_order_not_assigned :
  let state := sampleStore [layerA] (VStr "layer-a") "select" in
  let added := addLayer layerNoOrder state in
  layerNoOrder !! "order" = None /\
  length (layers state) = 1 /\
  exists l, layers added !! 1 = Some l /\
            l !! "order" = None /\
            Obj.get l "order" <> VNum 1.
Proof.
  intros state added.
  split; [vm_compute; reflexivity|]. split; [reflexivity|].
  exists layerNoOrder. split; [reflexivity|].
  split; [vm_compute; reflexivity|].
  vm_compute. discriminate.
Qed.






End LayerFacts.


(** *** Renumbering the stack *)

Section ReorderFacts.
Import LayerStore LayerPanel.
Local Arguments Obj.get : simpl never.

Lemma place_Permutation {A} (cmp : A -> A -> Js.number) x (l : list A) :
  Array.place cmp x l ≡ₚ x :: l.
Proof.
  induction l as [|y l IH]; cbn [Array.place]; [reflexivity|].
  destruct (Array.behind cmp y x); [reflexivity|].
  rewrite IH. apply Permutation_swap.
Qed.

Lemma sort_from_Permutation {A} (cmp : A -> A -> Js.number) (arr : list A) :
  forall acc, foldl (fun sorted x => Array.place cmp x sorted) acc arr ≡ₚ acc ++ arr.
Proof.
  induction arr as [|x arr IH]; intros acc; cbn [foldl].
  - rewrite app_nil_r. reflexivity.
  - rewrite IH, place_Permutation. cbn [app]. apply Permutation_middle.
Qed.

Lemma sort_Permutation {A} (cmp : A -> A -> Js.number) (arr : list A) :
  Array.sort cmp arr ≡ₚ arr.
Proof. unfold Array.sort. rewrite sort_from_Permutation. reflexivity. Qed.

(** [reorderLayers] numbers every entry by its position. *)
Lemma reorderLayers_order startIndex endIndex state i l :
  layers (reorderLayers startIndex endIndex state) !! i = Some l ->
  Obj.get l "order" = VNum (Z.of_nat i).
Proof.
  unfold reorderLayers.
  destruct (Array.splice_out startIndex (map Some (layers state))) as [removed rest].
  cbn [layers set_layers]. rewrite list_lookup_imap.
  destruct (_ !! i) as [x|]; [|discriminate].
  cbn [fmap option_fmap option_map]. intros [= <-].
  rewrite spread_order. apply get_insert_eq.
Qed.

Lemma renumber_layers len : forall items i state,
  exists state',
    renumber len i (map Some items) state = Completed state' /\
    layers state' = map (renumberOne len i items) (layers state).
Proof.
  induction items as [|item rest IH]; intros i state; cbn [map renumber renumberOne].
  - exists state. split; [reflexivity|]. rewrite map_id. reflexivity.
  - destruct (IH (S i) (updateLayer (Obj.get item "id")
                          {[ "order" := VNum (Z.of_nat len - 1 - Z.of_nat i) ]} state))
      as (state' & Hrun & Hl).
    exists state'. split; [exact Hrun|].
    rewrite Hl. unfold updateLayer. cbn [layers set_layers].
    rewrite map_map. reflexivity.
Qed.

Lemma updateOne_order_id id v (l : Layer) :
  Obj.get (updateOne id {[ "order" := v ]} l) "id" = Obj.get l "id".
Proof.
  unfold updateOne. destruct (Obj.strict_eq _ _); [|reflexivity].
  rewrite spread_order. apply get_insert_ne. discriminate.
Qed.

Lemma renumberOne_miss len : forall items i (l : Layer),
  Obj.get l "id" ∉ map (fun x => Obj.get x "id") items ->
  renumberOne len i items l = l.
Proof.
  induction items as [|item rest IH]; intros i l Hnotin; cbn [renumberOne]; [reflexivity|].
  cbn [map] in Hnotin. apply not_elem_of_cons in Hnotin as [Hne Hrest].
  rewrite updateOne_miss by assumption. apply IH. assumption.
Qed.

Lemma renumberOne_hit len : forall items i j (l : Layer),
  NoDup (map (fun x => Obj.get x "id") items) ->
  items !! j = Some l ->
  renumberOne len i items l
  = <[ "order" := VNum (Z.of_nat len - 1 - Z.of_nat (i + j)) ]> l.
Proof.
  induction items as [|item rest IH]; intros i j l Hnd Hj; [discriminate|].
  cbn [map] in Hnd. apply NoDup_cons in Hnd as [Hnotin Hnd].
  cbn [renumberOne]. destruct j as [|j].
  - injection Hj as ->. rewrite updateOne_hit by reflexivity.
    rewrite renumberOne_miss.
    + rewrite Nat.add_0_r. reflexivity.
    + rewrite get_insert_ne by discriminate. assumption.
  - cbn in Hj. rewrite updateOne_miss.
    + rewrite (IH (S i) j l Hnd Hj). do 3 f_equal. lia.
    + intros Heq. apply Hnotin. rewrite <- Heq.
      apply list_elem_of_fmap. exists l. split; [reflexivity|].
      apply list_elem_of_lookup. eauto.
Qed.

(** The orders [len-1, len-2, .., 0] handed out by [renumber] are the
    integers [0 .. len-1]. *)
Lemma countdown_Permutation len :
  map (fun j => VNum (Z.of_nat len - 1 - Z.of_nat j)) (seq 0 len)
  ≡ₚ map (fun j => VNum (Z.of_nat j)) (seq 0 len).
Proof.
  assert (H : map (fun j => VNum (Z.of_nat len - 1 - Z.of_nat j)) (seq 0 len)
              = reverse (map (fun j => VNum (Z.of_nat j)) (seq 0 len))).
  { apply list_eq. intros i.
    destruct (decide (i < len)) as [Hi|Hi].
    - rewrite reverse_lookup by (rewrite length_map, length_seq; assumption).
      rewrite length_map, length_seq.
      change map with (@fmap list _) at 1 2. rewrite !list_lookup_fmap.
      rewrite !lookup_seq_lt by lia. cbn. do 2 f_equal. lia.
    - rewrite !lookup_ge_None_2; [reflexivity| |].
      + rewrite length_reverse, length_map, length_seq. lia.
      + rewrite length_map, length_seq. lia. }
  rewrite H. apply reverse_Permutation.
Qed.

Lemma map_renumber_items len (items : list Layer) :
  NoDup (map (fun x => Obj.get x "id") items) ->
  map (fun l => Obj.get l "order") (map (renumberOne len 0 items) items)
  = map (fun j => VNum (Z.of_nat len - 1 - Z.of_nat j)) (seq 0 (length items)).
Proof.
  intros Hnd. apply list_eq. intros j.
  change map with (@fmap list _). rewrite !list_lookup_fmap.
  destruct (items !! j) as [l|] eqn:Hj.
  - rewrite lookup_seq_lt by (apply lookup_lt_Some in Hj; assumption).
    cbn. rewrite (renumberOne_hit len items 0 j l Hnd Hj).
    rewrite get_insert_eq. reflexivity.
  - rewrite lookup_seq_ge by (apply lookup_ge_None in Hj; assumption).
    reflexivity.
Qed.

Lemma actualStart_nat (len k : nat) :
  k <= len -> Array.actualStart len (Z.of_nat k) = k.
Proof.
  intros Hk. unfold Array.actualStart.
  destruct (Z.ltb_spec (Z.of_nat k) 0); lia.
Qed.

(** The panel's list after the dragged row has been taken out and put
    back at the drop position. *)
Lemma dropped_items (sorted : list Layer) dragged index x :
  sorted !! dragged = Some x -> index < length sorted ->
  exists items,
    (let '(draggedItem, rest) := Array.splice_out (Z.of_nat dragged) (map Some sorted) in
     Array.splice_in (Z.of_nat index) (mjoin draggedItem) rest) = map Some items /\
    items ≡ₚ sorted.
Proof.
  intros Hx Hi.
  pose proof (lookup_lt_Some _ _ _ Hx) as Hd.
  exists (take index (delete dragged sorted) ++ x :: drop index (delete dragged sorted)).
  split.
  - unfold Array.splice_out, Array.splice_in.
    rewrite length_map, (actualStart_nat (length sorted) dragged) by lia.
    change map with (@fmap list _). rewrite list_lookup_fmap, Hx.
    cbn [fmap option_fmap option_map mjoin option_join].
    rewrite <- list_fmap_delete, length_fmap, length_delete by eauto.
    rewrite (actualStart_nat _ index) by lia.
    rewrite fmap_app, fmap_cons, fmap_take, fmap_drop. reflexivity.
  - rewrite <- Permutation_middle, take_drop.
    symmetry. apply delete_Permutation. assumption.
Qed.

Lemma handleDrop_renumbers (dragged index : nat) (state : State) :
  NoDup (map (fun l => Obj.get l "id") (layers state)) ->
  dragged < length (layers state) -> index < length (layers state) ->
  dragged <> index ->
  exists state',
    handleDrop (Some dragged) index state = Completed state' /\
    length (layers state') = length (layers state) /\
    map (fun l => Obj.get l "order") (layers state')
    ≡ₚ map (fun j => VNum (Z.of_nat j)) (seq 0 (length (layers state))).
Proof.
  intros Hnd Hd Hi Hne.
  pose proof (sort_Permutation byOrderDesc (layers state)) as Hsort.
  fold (sortedLayers state) in Hsort.
  assert (Hlen : length (sortedLayers state) = length (layers state))
    by (rewrite Hsort; reflexivity).
  destruct (lookup_lt_is_Some_2 (sortedLayers state) dragged) as [x Hx]; [lia|].
  destruct (dropped_items (sortedLayers state) dragged index x Hx) as (items & Hitems & Hperm);
    [lia|].
  assert (Hn : length items = length (layers state)) by (rewrite Hperm; assumption).
  destruct (renumber_layers (length items) items 0 state) as (state' & Hrun & Hl).
  exists state'. split; [|split].
  - unfold handleDrop. rewrite decide_False by assumption.
    destruct (Array.splice_out (Z.of_nat dragged) (map Some (sortedLayers state)))
      as [draggedItem rest].
    rewrite Hitems, length_map. exact Hrun.
  - rewrite Hl, length_map. reflexivity.
  - rewrite Hl. rewrite <- Hn.
    rewrite <- countdown_Permutation.
    rewrite <- (map_renumber_items (length items) items).
    + change map with (@fmap list _).
      apply fmap_Permutation, fmap_Permutation.
      rewrite Hperm, Hsort. reflexivity.
    + change map with (@fmap list _).
      rewrite Hperm, Hsort. exact Hnd.
Qed.

(** [reorderLayers] with a [startIndex] that designates a layer: that
    layer is taken out and put back at [endIndex], then every layer gets
    its position as [order]; nothing else of a layer is rewritten. *)
Lemma reorderLayers_moves startIndex endIndex state x :
  layers state !! Array.actualStart (length (layers state)) startIndex = Some x ->
  layers (reorderLayers startIndex endIndex state)
  = imap (fun i l => <[ "order" := VNum (Z.of_nat i) ]> l)
         (Array.splice_in endIndex x
            (delete (Array.actualStart (length (layers state)) startIndex) (layers state))).
Proof.
  intros Hx. unfold reorderLayers, Array.splice_out.
  rewrite length_map. change map with (@fmap list _).
  rewrite list_lookup_fmap, Hx.
  cbn [fmap option_fmap option_map mjoin option_join layers set_layers].
  rewrite <- list_fmap_delete. unfold Array.splice_in. rewrite length_fmap.
  rewrite <- fmap_take, <- fmap_drop, <- fmap_cons, <- fmap_app.
  rewrite imap_fmap. apply imap_ext. intros i l _. cbn [compose default].
  apply spread_order.
Qed.

Lemma splice_in_Permutation {A} (start : Z) (x : A) (arr : list A) :
  Array.splice_in start x arr ≡ₚ x :: arr.
Proof.
  unfold Array.splice_in. rewrite <- Permutation_middle, take_drop. reflexivity.
Qed.

(** C10, as the code has it: after [reorderLayers(startIndex,
    endIndex)] with a [startIndex] that designates a layer, the store
    holds the same n layers, the designated one moved to [endIndex], and
    the layer at position i has order i whatever the orders were before
    (no other property of a layer is touched): the orders are 0 .. n-1;
    and after a drag-and-drop in the layer panel (a row dropped on
    another row, layers with pairwise distinct ids) the orders of the n
    layers are a rearrangement of 0 .. n-1. *)
Theorem C10_reorder_renumbers_contiguously (state : State) :
  (forall startIndex endIndex x,
     layers state !! Array.actualStart (length (layers state)) startIndex = Some x ->
     exists moved,
       moved = Array.splice_in endIndex x
                 (delete (Array.actualStart (length (layers state)) startIndex) (layers state)) /\
       moved ≡ₚ layers state /\
       layers (reorderLayers startIndex endIndex state)
       = imap (fun i l => <[ "order" := VNum (Z.of_nat i) ]> l) moved /\
       length (layers (reorderLayers startIndex endIndex state)) = length (layers state) /\
       map (fun l => Obj.get l "order") (layers (reorderLayers startIndex endIndex state))
       = map (fun j => VNum (Z.of_nat j)) (seq 0 (length (layers state)))) /\
  (forall dragged index,
     NoDup (map (fun l => Obj.get l "id") (layers state)) ->
     dragged < length (layers state) -> index < length (layers state) ->
     dragged <> index ->
     exists state',
       handleDrop (Some dragged) index state = Completed state' /\
       length (layers state') = length (layers state) /\
       map (fun l => Obj.get l "order") (layers state')
       ≡ₚ map (fun j => VNum (Z.of_nat j)) (seq 0 (length (layers state)))).
Proof.
  split.
  - intros startIndex endIndex x Hx. eexists. split; [reflexivity|].
    assert (Hperm : Array.splice_in endIndex x
                      (delete (Array.actualStart (length (layers state)) startIndex)
                              (layers state)) ≡ₚ layers state).
    { rewrite splice_in_Permutation. symmetry. apply delete_Permutation. exact Hx. }
    assert (Hlen : length (layers (reorderLayers startIndex endIndex state))
                   = length (layers state)).
    { rewrite (reorderLayers_moves _ _ _ _ Hx), length_imap, Hperm. reflexivity. }
    split; [exact Hperm|]. split; [exact (reorderLayers_moves _ _ _ _ Hx)|].
    split; [exact Hlen|].
    rewrite <- Hlen. apply list_eq. intros i.
    change map with (@fmap list _). rewrite !list_lookup_fmap.
    destruct (layers (reorderLayers startIndex endIndex state) !! i) as [l|] eqn:Hl.
    + rewrite lookup_seq_lt by (apply lookup_lt_Some in Hl; assumption).
      cbn. f_equal. eapply reorderLayers_order. eassumption.
    + rewrite lookup_seq_ge by (apply lookup_ge_None in Hl; assumption).
      reflexivity.
  - intros dragged index. apply handleDrop_renumbers.
Qed.

End ReorderFacts.

Lemma C10_reorder_renumbers_contiguously_witness :
  map (fun l => (Obj.get l "id", Obj.get l "order"))
      (LayerStore.layers
         (LayerStore.reorderLayers 0 2 (sampleStore [layerA; layerB; layerC] VNull "select")))
  = [(VStr "layer-b", VNum 0); (VStr "layer-c", VNum 1); (VStr "layer-a", VNum 2)] /\
  exists state',
    LayerPanel.handleDrop (Some 2) 0 (sampleStore [layerA; layerB; layerC] VNull "select")
      = LayerPanel.Completed state' /\
    length (LayerStore.layers state') = 3 /\
    map (fun l => Obj.get l "order") (LayerStore.layers state')
    ≡ₚ [VNum 0; VNum 1; VNum 2].
Proof.
  destruct (C10_reorder_renumbers_contiguously
              (sampleStore [layerA; layerB; layerC] VNull "select")) as [Hmove Hdrop].
  split.
  - destruct (Hmove 0%Z 2%Z layerA eq_refl) as (moved & -> & _ & -> & _).
    vm_compute. reflexivity.
  - refine (Hdrop 2 0 _ _ _ _).
    + refine (bool_decide_unpack _ _). vm_compute. exact I.
    + cbn; lia.
    + cbn; lia.
    + lia.
Defined.

(** C10, refuted as stated: a call whose [startIndex] is past the end
    of the array. Nothing is removed, [undefined] is inserted at
    [endIndex], and the store ends with three entries: one without an
    id, holding order 0, and the two layers with orders 1 and 2 -- not
    0 and 1. *)
Lemma C10_counterexample_startIndex_past_the_end :
  let state := sampleStore [layerA; layerB] VNull "select" in
  let state' := LayerStore.reorderLayers 5 0 state in
  length (LayerStore.layers state) = 2 /\
  length (LayerStore.layers state') = 3 /\
  map (fun l => (Obj.get l "id", Obj.get l "order")) (LayerStore.layers state')
  = [(VUndefined, VNum 0); (VStr "layer-a", VNum 1); (VStr "layer-b", VNum 2)] /\
  map (fun l => Obj.get l "order")
      (List.filter (fun l => bool_decide (Obj.get l "id" ∈ [VStr "layer-a"; VStr "layer-b"]))
                   (LayerStore.layers state'))
  <> [VNum 0; VNum 1].
Proof.
  intros state state'.
  split; [reflexivity|]. split; [vm_compute; reflexivity|].
  split; [vm_compute; reflexivity|]. vm_compute. discriminate.
Qed.

Example reorderLayers_sample :
  map (fun l => (Obj.get l "id", Obj.get l "order"))
      (LayerStore.layers
         (LayerStore.reorderLayers (-1) 0 (sampleStore [layerA; layerB; layerC] VNull "select")))
  = [(VStr "layer-c", VNum 0); (VStr "layer-a", VNum 1); (VStr "layer-b", VNum 2)].
Proof. vm_compute. reflexivity. Qed.

(** The bottom row (A) dragged to the top of the panel. *)
Example handleDrop_sample :
  exists state',
    LayerPanel.handleDrop (Some 2) 0 (sampleStore [layerA; layerB; layerC] VNull "select")
    = LayerPanel.Completed state' /\
    map (fun l => (Obj.get l "id", Obj.get l "order")) (LayerStore.layers state')
    = [(VStr "layer-a", VNum 2); (VStr "layer-b", VNum 0); (VStr "layer-c", VNum 1)].
Proof. eexists. split; [reflexivity|]. vm_compute. reflexivity. Qed.

(** *** Coordinates *)

Section CoordinateFacts.
Import LayerStore CanvasView.

Lemma ofNat_nonzero n : n <> 0 -> ofNat n <> 0%Qc.
Proof.
  intros Hn H. unfold ofNat in H. rewrite <- Z2Qc_inj_0 in H.
  apply Z2Qc_inj in H. lia.
Qed.

Lemma Qc_scale_by_self (d w : Qc) : w <> 0%Qc -> (d * (w / w))%Qc = d.
Proof.
  intros Hw. unfold Qcdiv. rewrite Qcmult_inv_r by assumption.
  apply Qcmult_1_r.
Qed.

(** The fallback of [getCanvasCoords], taken while the overlay is not
    mounted: at zoom 1 without pan it is the offset from the handler's
    element. *)
Lemma getCanvasCoords_fallback e state c :
  overlayRef c = None -> zoom state = 1%Qc -> panOffset state = (0%Qc, 0%Qc) ->
  getCanvasCoords e state c
  = ((clientX e - rect_left (currentTargetRect e))%Qc,
     (clientY e - rect_top (currentTargetRect e))%Qc).
Proof.
  intros Ho Hz Hp. unfold getCanvasCoords. rewrite Ho, Hz, Hp. cbn [fst snd].
  f_equal; field; discriminate.
Qed.

(** C8: with the overlay mounted, a pointer event at (clientX,
    clientY) is mapped to
    ((clientX - rect.left) * (width / rect.width),
     (clientY - rect.top) * (height / rect.height)),
    [rect] the overlay's rectangle on screen and [width], [height] its
    intrinsic size; and when the displayed size is the intrinsic size
    (zoom 1), the result is exactly the offset of the pointer from the
    top-left corner of the overlay. *)
Theorem C8_getCanvasCoords_formula (e : MouseEvent) (state : State) (c : Component)
        (overlay : Overlay) :
  overlayRef c = Some overlay ->
  let rect := boundingClientRect overlay in
  let intrinsicWidth := ofNat (width (bitmap overlay)) in
  let intrinsicHeight := ofNat (height (bitmap overlay)) in
  getCanvasCoords e state c
  = (((clientX e - rect_left rect) * (intrinsicWidth / rect_width rect))%Qc,
     ((clientY e - rect_top rect) * (intrinsicHeight / rect_height rect))%Qc) /\
  (rect_width rect = intrinsicWidth -> rect_height rect = intrinsicHeight ->
   width (bitmap overlay) <> 0 -> height (bitmap overlay) <> 0 ->
   getCanvasCoords e state c
   = ((clientX e - rect_left rect)%Qc, (clientY e - rect_top rect)%Qc)).
Proof.
  intros Ho rect iw ih. unfold getCanvasCoords. rewrite Ho. fold rect iw ih.
  split; [reflexivity|].
  intros Hw Hh Hw0 Hh0. rewrite Hw, Hh.
  rewrite !Qc_scale_by_self by (apply ofNat_nonzero; assumption).
  reflexivity.
Qed.

End CoordinateFacts.

Lemma C8_getCanvasCoords_formula_witness :
  CanvasView.getCanvasCoords press (sampleStore [layerA] VNull "brush") (idle blankOverlay)
  = ((Qc_of_Z 9 - Qc_of_Z 8)%Qc, (Qc_of_Z 16 - Qc_of_Z 16)%Qc).
Proof.
  refine (proj2 (C8_getCanvasCoords_formula press (sampleStore [layerA] VNull "brush")
                   (idle blankOverlay) blankOverlay eq_refl) _ _ _ _).
  - apply Qc_is_canon. reflexivity.
  - apply Qc_is_canon. reflexivity.
  - cbn. lia.
  - cbn. lia.
Defined.

(** *** Flattened export *)

Section ExportFacts.
Import Canvas2D Header.
Context {E : Engine}.

Lemma filter_none {A} (f : A -> bool) (l : list A) :
  Forall (fun x => f x = false) l -> List.filter f l = [].
Proof.
  induction 1 as [|x l Hx _ IH]; cbn [List.filter]; [reflexivity|].
  rewrite Hx. exact IH.
Qed.

(** C6, as the code has it: when no layer is both visible and holding
    content, [handleExport] returns at once; nothing is drawn and no
    file, blank or otherwise, is produced. No exception is raised. *)
Theorem C6_export_without_visible_layers (layers : list Layer) :
  Forall (fun l => Obj.truthy (Obj.get l "visible")
                   && Obj.truthy (Obj.get l "image_base64") = false) layers ->
  handleExport layers = NothingExported.
Proof.
  intros H. unfold handleExport. rewrite (filter_none _ _ H). reflexivity.
Qed.

End ExportFacts.

Lemma C6_export_without_visible_layers_witness :
  Header.handleExport (E := ReferenceEngine.engine) [layerHidden] = Header.NothingExported.
Proof.
  apply (C6_export_without_visible_layers (E := ReferenceEngine.engine) [layerHidden]).
  constructor; [vm_compute; reflexivity|constructor].
Defined.

(** C6, refuted as stated: exporting a stack whose only layer is hidden
    gives no raster at all, so in particular not a blank one. *)
Lemma C6_counterexample_no_blank_raster :
  Header.handleExport (E := ReferenceEngine.engine) [layerHidden] = Header.NothingExported /\
  ~ (exists png, Header.handleExport (E := ReferenceEngine.engine) [layerHidden]
                 = Header.Downloaded png).
Proof.
  assert (H : Header.handleExport (E := ReferenceEngine.engine) [layerHidden]
              = Header.NothingExported) by (vm_compute; reflexivity).
  split; [exact H|]. intros [png Hpng]. rewrite H in Hpng. discriminate Hpng.
Qed.

(** *** Drawing overlay *)

Section DrawingFacts.
Import LayerStore CanvasView.
Local Arguments Obj.get : simpl never.

Lemma hasPixels_true_iff o :
  hasPixels o = true <-> exists j v, data (bitmap o) !! j = Some v /\ v <> 0%Z.
Proof.
  unfold hasPixels. rewrite existsb_exists. split.
  - intros (v & Hin & Hv). apply list_elem_of_In, list_elem_of_lookup in Hin as [j Hj].
    exists j, v. split; [assumption|]. intros ->. discriminate Hv.
  - intros (j & v & Hj & Hv). exists v. split.
    + apply list_elem_of_In, list_elem_of_lookup. eauto.
    + apply negb_true_iff, Z.eqb_neq. assumption.
Qed.

(** On a bitmap read back from a canvas, "some byte is not zero" is
    "some pixel is not transparent". *)
Lemma hasPixels_nonTransparent o :
  readback (bitmap o) -> (hasPixels o = true <-> nonTransparent (bitmap o)).
Proof.
  intros [Hlen Hzero]. rewrite hasPixels_true_iff. split.
  - intros (j & v & Hj & Hv).
    pose proof (lookup_lt_Some _ _ _ Hj) as Hlt.
    pose proof (Nat.div_mod j 4 ltac:(lia)) as Hdm.
    pose proof (Nat.mod_upper_bound j 4 ltac:(lia)) as Hm.
    set (p := j `div` 4) in *. set (ch := j `mod` 4) in *.
    destruct (alpha_at (bitmap o) p) as [a|] eqn:Ha.
    + exists p, a. split; [exact Ha|]. intros ->.
      destruct (Hzero p Ha) as (Hr & Hg & Hb).
      unfold red_at, green_at, blue_at, alpha_at in *.
      assert (Hc : ch = 0 \/ ch = 1 \/ ch = 2 \/ ch = 3) by lia.
      destruct Hc as [Hc|[Hc|[Hc|Hc]]]; rewrite Hc in Hdm; rewrite Hdm in Hj.
      * rewrite Nat.add_0_r in Hj. congruence.
      * congruence.
      * congruence.
      * congruence.
    + unfold alpha_at in Ha. apply lookup_ge_None in Ha. lia.
  - intros (p & a & Ha & Hne). exists (4 * p + 3), a. auto.
Qed.

Lemma drawing_tool_not_move_select tool :
  tool ∈ drawingTools -> tool <> "move" /\ tool <> "select".
Proof.
  unfold drawingTools. rewrite !elem_of_cons, elem_of_nil.
  intros H. split; intros ->; intuition discriminate.
Qed.

(** When the press of a drawing session sets [isErasing]. *)
Lemma handleMouseDown_isErasing e state c :
  button e = 0%Z -> activeTool state ∈ drawingTools -> isErasing c = false ->
  (isErasing (snd (handleMouseDown e (state, c))) = true <->
   activeTool state = "eraser" /\ is_Some (overlayRef c) /\
   exists activeLayer,
     Array.find (fun l => Obj.strict_eq (Obj.get l "id") (activeLayerId state)) (layers state)
     = Some activeLayer /\
     Obj.truthy (Obj.get activeLayer "image_base64") = true).
Proof.
  intros Hb Htool Her.
  destruct (drawing_tool_not_move_select _ Htool) as [Hmove Hselect].
  unfold handleMouseDown.
  rewrite (bool_decide_eq_false_2 _ Hmove).
  rewrite (bool_decide_eq_false_2 (button e = 1%Z)) by lia.
  rewrite (bool_decide_eq_false_2 _ Hselect).
  unfold includes. rewrite (bool_decide_eq_true_2 _ Htool).
  rewrite (bool_decide_eq_true_2 _ Hb).
  cbn [orb andb snd isErasing].
  destruct (overlayRef c) as [overlay|]; cbn [fst].
  - destruct (bool_decide_reflect (activeTool state = "eraser")) as [Heraser|Hno].
    + destruct (Array.find _ (layers state)) as [activeLayer|].
      * destruct (Obj.truthy (Obj.get activeLayer "image_base64")) eqn:Hc; cbn [fst].
        -- split; [|reflexivity]. intros _. split; [assumption|]. split; [eauto|].
           exists activeLayer. auto.
        -- rewrite Her. split; [discriminate|].
           intros (_ & _ & l & [= <-] & Hl). congruence.
      * cbn [fst]. rewrite Her. split; [discriminate|].
        intros (_ & _ & l & Hl & _). discriminate Hl.
    + cbn [fst]. rewrite Her. split; [discriminate|]. intros (Ht & _). contradiction.
  - rewrite Her. split; [discriminate|]. intros (_ & [o Ho] & _). discriminate Ho.
Qed.

Lemma sketchLayer_fields now tool base64 count :
  Obj.get (sketchLayer now tool base64 count) "name" = VStr ("Sketch (" +:+ tool +:+ ")") /\
  Obj.get (sketchLayer now tool base64 count) "image_base64" = base64 /\
  Obj.get (sketchLayer now tool base64 count) "order" = VNum (Z.of_nat count) /\
  Obj.get (sketchLayer now tool base64 count) "id" = VStr ("layer-" +:+ pretty now).
Proof. repeat split; vm_compute; reflexivity. Qed.

Lemma sketchLayer_visible now tool base64 count :
  Obj.truthy (Obj.get (sketchLayer now tool base64 count) "visible") = true.
Proof. vm_compute. reflexivity. Qed.

Lemma place_last {A} (cmp : A -> A -> Js.number) (x : A) (sorted : list A) :
  (forall y, In y sorted -> Array.behind cmp y x = false) ->
  Array.place cmp x sorted = sorted ++ [x].
Proof.
  induction sorted as [|y rest IH]; intros H; [reflexivity|].
  cbn [Array.place app]. rewrite (H y (or_introl eq_refl)).
  f_equal. apply IH. intros z Hz. apply H. right. exact Hz.
Qed.

Lemma sort_snoc {A} (cmp : A -> A -> Js.number) (l : list A) (x : A) :
  Array.sort cmp (l ++ [x]) = Array.place cmp x (Array.sort cmp l).
Proof. unfold Array.sort. rewrite foldl_app. reflexivity. Qed.

(** A visible layer appended to the array, whose order no layer
    already there exceeds, is the last of the visible layers in drawing
    order: the top of the stack. *)
Lemma visibleLayers_snoc (state state' : State) (sketch : Layer) (n : Z) :
  layers state' = layers state ++ [sketch] ->
  Obj.truthy (Obj.get sketch "visible") = true ->
  Obj.get sketch "order" = VNum n ->
  (forall l o, In l (layers state) ->
     Obj.toNumber (Obj.get l "order") = Some o -> (o <= n)%Z) ->
  visibleLayers state' = visibleLayers state ++ [sketch].
Proof.
  intros Hl Hvis Hord Hbelow. unfold visibleLayers. rewrite Hl.
  rewrite List.filter_app. cbn [List.filter]. rewrite Hvis.
  rewrite sort_snoc. apply place_last.
  intros y Hy. apply list_elem_of_In in Hy. rewrite sort_Permutation in Hy.
  apply list_elem_of_In, filter_In in Hy as [Hy _].
  unfold Array.behind, byOrderAsc. rewrite Hord. cbn [Obj.toNumber].
  destruct (Obj.toNumber (Obj.get y "order")) as [o|] eqn:Ho; [|reflexivity].
  cbn [Js.sub]. apply Z.ltb_ge. specialize (Hbelow y o Hy Ho). lia.
Qed.

(** C5, as the code has it. A drawing session (tool brush, eraser,
    rectangle or ellipse, overlay mounted) that ends by pointer-up or
    by the pointer leaving the canvas commits if and only if the
    session is erasing or the overlay holds a non-transparent pixel,
    where a session is erasing exactly when it was begun with the
    eraser on an active layer that has content. A commit of an erasing
    session with an active layer id overwrites the raster of every
    layer with that id by the overlay's content; any other commit
    appends a new layer named "Sketch (tool)" holding the overlay's
    content to the layer list, with order = number of layers, and makes
    it active; the new layer is at the top of the stack (the last of the
    visible layers in drawing order) provided no layer already there has
    an order above the number of layers. The overlay is cleared after a
    commit; without a commit the store and the overlay are unchanged. *)
Theorem C5_commit_on_session_end (now : Z) (state : State) (c : Component)
        (overlay : Overlay) :
  isDrawing c = true ->
  activeTool state ∈ drawingTools ->
  overlayRef c = Some overlay ->
  readback (bitmap overlay) ->
  forall ended,
    ended = onMouseUp now (state, c) \/ ended = onMouseLeave now (state, c) ->
    isDrawing (snd ended) = false /\
    (isErasing c = true \/ nonTransparent (bitmap overlay) ->
       overlayRef (snd ended) = Some (clearRect overlay) /\
       bitmap (clearRect overlay) = createImageData (width (bitmap overlay)) (height (bitmap overlay)) /\
       (isErasing c = true -> Obj.truthy (activeLayerId state) = true ->
          layers (fst ended)
          = map (updateOne (activeLayerId state)
                   {[ "image_base64" := VImage (bitmap overlay) ]}) (layers state) /\
          activeLayerId (fst ended) = activeLayerId state) /\
       (isErasing c = false \/ Obj.truthy (activeLayerId state) = false ->
          exists sketch,
            layers (fst ended) = layers state ++ [sketch] /\
            Obj.get sketch "name" = VStr ("Sketch (" +:+ activeTool state +:+ ")") /\
            Obj.get sketch "image_base64" = VImage (bitmap overlay) /\
            Obj.get sketch "order" = VNum (Z.of_nat (length (layers state))) /\
            activeLayerId (fst ended) = Obj.get sketch "id" /\
            ((forall l o, In l (layers state) ->
                Obj.toNumber (Obj.get l "order") = Some o ->
                (o <= Z.of_nat (length (layers state)))%Z) ->
             visibleLayers (fst ended) = visibleLayers state ++ [sketch]))) /\
    (isErasing c = false -> ~ nonTransparent (bitmap overlay) ->
       fst ended = state /\ overlayRef (snd ended) = Some overlay) /\
    (forall e idle_c,
       button e = 0%Z -> isErasing idle_c = false ->
       (isErasing (snd (handleMouseDown e (state, idle_c))) = true <->
        activeTool state = "eraser" /\ is_Some (overlayRef idle_c) /\
        exists activeLayer,
          Array.find (fun l => Obj.strict_eq (Obj.get l "id") (activeLayerId state))
                     (layers state) = Some activeLayer /\
          Obj.truthy (Obj.get activeLayer "image_base64") = true)).
Proof.
  intros Hdraw Htool Ho Hrb ended Hended.
  assert (Hup : ended = handleMouseUp now (state, c)) by (destruct Hended; assumption).
  clear Hended. subst ended.
  pose proof (hasPixels_nonTransparent overlay Hrb) as Hpix.
  unfold handleMouseUp. cbn [fst snd]. rewrite Hdraw.
  unfold includes. rewrite (bool_decide_eq_true_2 _ Htool). cbn [andb].
  unfold commitDrawing. rewrite Ho.
  split; [destruct (negb (hasPixels overlay) && negb (isErasing c)); reflexivity|].
  split; [|split].
  - intros Hcommit.
    assert (Hgate : negb (hasPixels overlay) && negb (isErasing c) = false).
    { destruct Hcommit as [-> | Hnt]; [apply andb_false_r|].
      apply Hpix in Hnt. rewrite Hnt. reflexivity. }
    rewrite Hgate. cbn [fst snd overlayRef].
    split; [reflexivity|]. split; [reflexivity|]. split.
    + intros -> ->. cbn [andb]. split; reflexivity.
    + intros Hadd.
      assert (Hsel : isErasing c && Obj.truthy (activeLayerId state) = false).
      { destruct Hadd as [-> | ->]; [reflexivity|apply andb_false_r]. }
      rewrite Hsel.
      destruct (sketchLayer_fields now (activeTool state) (VImage (bitmap overlay))
                  (length (layers state))) as (F1 & F2 & F3 & F4).
      eexists. split; [reflexivity|].
      split; [exact F1|]. split; [exact F2|]. split; [exact F3|].
      split; [reflexivity|].
      intros Hbelow.
      apply (visibleLayers_snoc state _ _ (Z.of_nat (length (layers state))));
        [reflexivity|apply sketchLayer_visible|exact F3|exact Hbelow].
  - intros Her Hnt.
    assert (Hgate : negb (hasPixels overlay) && negb (isErasing c) = true).
    { rewrite Her. destruct (hasPixels overlay) eqn:Hp; [|reflexivity].
      exfalso. apply Hnt, Hpix. reflexivity. }
    rewrite Hgate. cbn [fst snd overlayRef]. rewrite Ho. auto.
  - intros e idle_c Hb Her. apply handleMouseDown_isErasing; assumption.
Qed.

End DrawingFacts.

Lemma readback_painted : readback (CanvasView.bitmap paintedOverlay).
Proof.
  split; [reflexivity|]. intros p Hp.
  destruct p as [|[|p]]; [discriminate Hp|repeat split|].
  unfold alpha_at in Hp. rewrite lookup_ge_None_2 in Hp by (cbn; lia).
  discriminate Hp.
Qed.

Lemma nonTransparent_painted : nonTransparent (CanvasView.bitmap paintedOverlay).
Proof. exists 0, 255%Z. split; [reflexivity|discriminate]. Qed.

Lemma brush_is_drawing_tool : "brush" ∈ CanvasView.drawingTools.
Proof. refine (bool_decide_unpack _ _). vm_compute. exact I. Qed.

Lemma C5_commit_on_session_end_witness :
  exists sketch,
    LayerStore.layers
      (fst (CanvasView.onMouseUp 1700000000000
              (sampleStore [layerA] (VStr "layer-a") "brush", drawing paintedOverlay)))
    = [layerA; sketch] /\
    Obj.get sketch "name" = VStr "Sketch (brush)" /\
    Obj.get sketch "order" = VNum 1 /\
    CanvasView.visibleLayers
      (fst (CanvasView.onMouseUp 1700000000000
              (sampleStore [layerA] (VStr "layer-a") "brush", drawing paintedOverlay)))
    = [layerA; sketch].
Proof.
  destruct (C5_commit_on_session_end 1700000000000
              (sampleStore [layerA] (VStr "layer-a") "brush") (drawing paintedOverlay)
              paintedOverlay eq_refl brush_is_drawing_tool eq_refl readback_painted
              _ (or_introl eq_refl)) as (_ & Hcommit & _).
  destruct (Hcommit (or_intror nonTransparent_painted)) as (_ & _ & _ & Hadd).
  destruct (Hadd (or_introl eq_refl)) as (sketch & Hl & Hname & _ & Horder & _ & Htop).
  exists sketch. split; [exact Hl|]. split; [exact Hname|]. split; [exact Horder|].
  apply Htop. intros l o [<-|[]] Ho. vm_compute in Ho. injection Ho as <-. cbn. lia.
Defined.

(** C5, refuted as stated, in two places. First, the eraser pressed
    and released on an active layer that has no content yet: the tool is
    the eraser, so the claim has the overlay committed over the active
    layer's raster; the session is not erasing and the overlay is blank,
    so nothing is committed: the layers are what they were and the
    active layer still has its empty raster, not the overlay's content.
    Second, a brush stroke committed after the two lower of three layers
    were deleted: the layer left has order 2, the sketch gets order 1
    (the number of layers), and it comes before that layer in drawing
    order: it is appended to the list, but not at the top of the
    stack. *)
Lemma C5_counterexample_eraser_without_content :
  (let state := sampleStore [layerEmpty] (VStr "layer-e") "eraser" in
   let pressed := CanvasView.handleMouseDown press (state, idle blankOverlay) in
   let released := CanvasView.onMouseUp 1700000000000 pressed in
   LayerStore.activeTool (fst pressed) = "eraser" /\
   CanvasView.isDrawing (snd pressed) = true /\
   CanvasView.overlayRef (snd pressed) = Some blankOverlay /\
   fst released = state /\
   exists l, LayerStore.layers (fst released) !! 0 = Some l /\
             Obj.get l "id" = LayerStore.activeLayerId (fst released) /\
             Obj.get l "image_base64" = VStr "" /\
             Obj.get l "image_base64" <> VImage (CanvasView.bitmap blankOverlay)) /\
  (let state :=
     LayerStore.removeLayer (VStr "layer-b")
       (LayerStore.removeLayer (VStr "layer-a")
          (sampleStore [layerA; layerB; layerC] (VStr "layer-c") "brush")) in
   let released := CanvasView.onMouseUp 1700000000000 (state, drawing paintedOverlay) in
   map (fun l => (Obj.get l "name", Obj.get l "order")) (LayerStore.layers state)
   = [(VStr "layer-c", VNum 2)] /\
   map (fun l => (Obj.get l "name", Obj.get l "order")) (LayerStore.layers (fst released))
   = [(VStr "layer-c", VNum 2); (VStr "Sketch (brush)", VNum 1)] /\
   map (fun l => Obj.get l "name") (CanvasView.visibleLayers (fst released))
   = [VStr "Sketch (brush)"; VStr "layer-c"]).
Proof.
  split.
  - intros state pressed released.
    split; [reflexivity|].
    split; [vm_compute; reflexivity|].
    split; [vm_compute; reflexivity|].
    split; [vm_compute; reflexivity|].
    exists layerEmpty.
    split; [vm_compute; reflexivity|].
    split; [vm_compute; reflexivity|].
    split; [vm_compute; reflexivity|].
    vm_compute. discriminate.
  - intros state released.
    split; [vm_compute; reflexivity|].
    split; [vm_compute; reflexivity|].
    vm_compute. reflexivity.
Qed.

(** ** Part III: further properties of the code *)

(** *** Flat pixel arrays *)

Section FlatFacts.

Lemma flat_index (j n : nat) :
  j < 4 * n -> exists q c, j = 4 * q + c /\ q < n /\ c < 4.
Proof.
  intros Hj. exists (j `div` 4), (j `mod` 4).
  pose proof (Nat.div_mod j 4 ltac:(lia)).
  pose proof (Nat.mod_upper_bound j 4 ltac:(lia)).
  repeat split; lia.
Qed.

(** Two arrays of [n] pixels that agree on every channel are equal. *)
Lemma flat_ext (l1 l2 : list Z) (n : nat) :
  length l1 = 4 * n -> length l2 = 4 * n ->
  (forall q c, q < n -> c < 4 -> l1 !! (4 * q + c) = l2 !! (4 * q + c)) ->
  l1 = l2.
Proof.
  intros H1 H2 Hall. apply list_eq. intros j.
  destruct (decide (j < 4 * n)) as [Hj|Hj].
  - destruct (flat_index j n Hj) as (q & c & -> & Hq & Hc). apply Hall; assumption.
  - rewrite !lookup_ge_None_2 by lia. reflexivity.
Qed.

Lemma image_ext (a b : ImageData) :
  width a = width b -> height a = height b -> data a = data b -> a = b.
Proof. destruct a, b; cbn; intros -> -> ->; reflexivity. Qed.

End FlatFacts.

(** *** invertMask *)

Section InvertFacts.
Import Canvas2D Compositor.
Context {E : Engine} {L : EngineLaws E}.

Lemma invertLoop_S fuel i d :
  invertLoop (S fuel) i d =
  if decide (i < length d) then
    let d1 := <[i := flipped (d !! i)]> d in
    let d2 := <[i + 1 := flipped (d1 !! (i + 1))]> d1 in
    let d3 := <[i + 2 := flipped (d2 !! (i + 2))]> d2 in
    invertLoop fuel (i + 4) d3
  else d.
Proof. reflexivity. Qed.

Lemma invertStep_lookup i (d : list Z) j :
  i + 2 < length d ->
  let d1 := <[i := flipped (d !! i)]> d in
  let d2 := <[i + 1 := flipped (d1 !! (i + 1))]> d1 in
  let d3 := <[i + 2 := flipped (d2 !! (i + 2))]> d2 in
  length d3 = length d /\
  d3 !! j = if decide (i <= j < i + 3) then Some (flipped (d !! j)) else d !! j.
Proof.
  intros Hi d1 d2 d3. subst d1 d2 d3. split.
  { rewrite !length_insert. reflexivity. }
  destruct (decide (j = i + 2)) as [->|H2].
  { rewrite list_lookup_insert_eq by (rewrite !length_insert; lia).
    rewrite decide_True by lia.
    rewrite !list_lookup_insert_ne by lia. reflexivity. }
  rewrite list_lookup_insert_ne by lia.
  destruct (decide (j = i + 1)) as [->|H1].
  { rewrite list_lookup_insert_eq by (rewrite !length_insert; lia).
    rewrite decide_True by lia.
    rewrite !list_lookup_insert_ne by lia. reflexivity. }
  rewrite list_lookup_insert_ne by lia.
  destruct (decide (j = i)) as [->|H0].
  { rewrite list_lookup_insert_eq by lia. rewrite decide_True by lia. reflexivity. }
  rewrite list_lookup_insert_ne by lia. rewrite decide_False by lia. reflexivity.
Qed.

(** What the loop of [invertMask] leaves at channel [c] of pixel [q]. *)
Lemma invertLoop_lookup fuel : forall k d n,
  length d = 4 * n -> n <= k + fuel ->
  length (invertLoop fuel (4 * k) d) = length d /\
  forall q c, q < n -> c < 4 ->
    invertLoop fuel (4 * k) d !! (4 * q + c)
    = if decide (k <= q /\ c < 3) then Some (flipped (d !! (4 * q + c)))
      else d !! (4 * q + c).
Proof.
  induction fuel as [|fuel IH]; intros k d n Hlen Hfuel.
  - split; [reflexivity|]. intros q c Hq Hc. cbn [invertLoop].
    rewrite decide_False by lia. reflexivity.
  - rewrite invertLoop_S. destruct (decide (4 * k < length d)) as [Hk|Hk].
    + cbv zeta.
      pose proof (invertStep_lookup (4 * k) d) as Hstep. cbv zeta in Hstep.
      match goal with |- context [invertLoop fuel _ ?D] => set (d3 := D) in * end.
      destruct (Hstep 0 ltac:(lia)) as [Hl3 _].
      replace (4 * k + 4) with (4 * S k) by lia.
      destruct (IH (S k) d3 n ltac:(lia) ltac:(lia)) as [IHlen IHget].
      split; [lia|]. intros q c Hq Hc.
      rewrite IHget by assumption.
      destruct (Hstep (4 * q + c) ltac:(lia)) as [_ ->].
      destruct (decide (k = q)) as [->|Hne].
      * rewrite (decide_False (P := S q <= q /\ c < 3)) by lia.
        destruct (decide (c < 3)).
        -- rewrite !decide_True by lia. reflexivity.
        -- rewrite !decide_False by lia. reflexivity.
      * rewrite (decide_False (P := 4 * k <= 4 * q + c < 4 * k + 3)) by lia.
        destruct (decide (k <= q /\ c < 3)).
        -- rewrite decide_True by lia. reflexivity.
        -- rewrite decide_False by lia. reflexivity.
    + split; [reflexivity|]. intros q c Hq Hc.
      rewrite decide_False by lia. reflexivity.
Qed.

Lemma flipped_byte v : (0 <= v <= 255)%Z -> flipped (Some v) = (255 - v)%Z.
Proof. intros Hv. unfold flipped. cbn. lia. Qed.

Lemma invertMask_size m :
  width (invertMask m) = width m /\ height (invertMask m) = height m /\
  length (data (invertMask m)) = 4 * (width m * height m).
Proof.
  unfold invertMask, toDataURL, getImageData, putImageData. cbn.
  rewrite straight_length, length_imap, length_imap, length_replicate. auto.
Qed.

(** The pixel of the canvas [invertMask] encodes. *)
Lemma invertMask_lookup m p c :
  p < width m * height m -> c < 4 ->
  data (invertMask m) !! (4 * p + c)
  = straight (premultiply (pixelOf
      (invertLoop (4 * (width m * height m)) 0
         (flat_map straight (pixels (drawImage m (createCanvas (width m) (height m)))))) p)) !! c.
Proof.
  intros Hp Hc.
  unfold invertMask, toDataURL, getImageData, putImageData. cbn [data pixels width height].
  rewrite straight_lookup by assumption.
  rewrite list_lookup_imap.
  destruct (lookup_lt_is_Some_2 (pixels (drawImage m (createCanvas (width m) (height m)))) p)
    as [d Hd].
  { rewrite first_draw_length. assumption. }
  rewrite Hd, straight_length, first_draw_length. reflexivity.
Qed.

(** The bytes read back from the canvas an opaque image was drawn on
    are the image's own. *)
Lemma decoded_opaque m p c :
  wf_image m -> opaque m -> p < width m * height m -> c < 4 ->
  flat_map straight (pixels (drawImage m (createCanvas (width m) (height m)))) !! (4 * p + c)
  = data m !! (4 * p + c).
Proof.
  intros Hwf Hop Hp Hc.
  destruct (byte_at m (4 * p) Hwf) as (r & Hr & Hrr); [lia|].
  destruct (byte_at m (4 * p + 1) Hwf) as (g & Hg & Hgr); [lia|].
  destruct (byte_at m (4 * p + 2) Hwf) as (b & Hb & Hbr); [lia|].
  pose proof (Hop p Hp) as Hal. unfold alpha_at in Hal.
  rewrite straight_lookup by lia. rewrite first_draw by assumption.
  cbn [mbind option_bind]. unfold pixelOf. rewrite Hr, Hg, Hb, Hal.
  cbn [default]. rewrite opaque_pixel_roundtrip by assumption.
  destruct c as [|[|[|[|c]]]]; try lia;
    rewrite ?Nat.add_0_r, ?Hr, ?Hg, ?Hb, ?Hal; reflexivity.
Qed.

Lemma rgb_pixel_roundtrip r g b :
  (0 <= r <= 255)%Z -> (0 <= g <= 255)%Z -> (0 <= b <= 255)%Z ->
  straight (premultiply {| red := r; green := g; blue := b; alpha := 255 |})
  = [r; g; b; 255%Z].
Proof.
  intros Hr Hg Hb. unfold straight, premultiply; cbn [red green blue alpha].
  rewrite !mul255_255_r, !unpremultiply_255 by assumption. reflexivity.
Qed.

(** On an opaque mask [invertMask] replaces every colour byte [v] by
    [255 - v] and keeps alpha. *)
Lemma invertMask_opaque_lookup m p c :
  wf_image m -> opaque m -> p < width m * height m -> c < 4 ->
  data (invertMask m) !! (4 * p + c) = inverted_byte c <$> data m !! (4 * p + c).
Proof.
  intros Hwf Hop Hp Hc.
  rewrite invertMask_lookup by assumption.
  destruct (byte_at m (4 * p) Hwf) as (r & Hr & Hrr); [lia|].
  destruct (byte_at m (4 * p + 1) Hwf) as (g & Hg & Hgr); [lia|].
  destruct (byte_at m (4 * p + 2) Hwf) as (b & Hb & Hbr); [lia|].
  pose proof (Hop p Hp) as Hal. unfold alpha_at in Hal.
  set (gd := flat_map straight _).
  assert (Hgd : length gd = 4 * (width m * height m)).
  { subst gd. rewrite straight_length, first_draw_length. reflexivity. }
  destruct (invertLoop_lookup (4 * (width m * height m)) 0 gd (width m * height m)
              Hgd ltac:(lia)) as [_ Hget].
  change (4 * 0) with 0 in Hget.
  assert (Hpx : pixelOf (invertLoop (4 * (width m * height m)) 0 gd) p
                = {| red := 255 - r; green := 255 - g; blue := 255 - b; alpha := 255 |}).
  { unfold pixelOf. rewrite <- (Nat.add_0_r (4 * p)) at 1.
    rewrite !Hget by lia.
    rewrite !decide_True by lia. rewrite (decide_False (P := 0 <= p /\ 3 < 3)) by lia.
    subst gd. rewrite !decoded_opaque by (assumption || lia).
    rewrite Nat.add_0_r, Hr, Hg, Hb, Hal. cbn [default].
    rewrite !flipped_byte by assumption. reflexivity. }
  rewrite Hpx, rgb_pixel_roundtrip by lia.
  destruct c as [|[|[|[|c]]]]; try lia;
    rewrite ?Nat.add_0_r, ?Hr, ?Hg, ?Hb, ?Hal; reflexivity.
Qed.

Lemma invertMask_wf m : wf_image m -> opaque m -> wf_image (invertMask m).
Proof.
  intros Hwf Hop. destruct (invertMask_size m) as (Hw & Hh & Hlen).
  split; [rewrite Hw, Hh; exact Hlen|].
  apply Forall_lookup. intros j v Hj.
  assert (Hlt : j < 4 * (width m * height m)).
  { rewrite <- Hlen. eapply lookup_lt_Some. exact Hj. }
  destruct (flat_index j _ Hlt) as (q & c & -> & Hq & Hc).
  rewrite invertMask_opaque_lookup in Hj by assumption.
  destruct (byte_at m (4 * q + c) Hwf) as (x & Hx & Hxr); [lia|].
  rewrite Hx in Hj. cbn in Hj. injection Hj as <-.
  unfold inverted_byte. destruct (decide (c = 3)); lia.
Qed.

Lemma invertMask_opaque m : wf_image m -> opaque m -> opaque (invertMask m).
Proof.
  intros Hwf Hop p Hp. destruct (invertMask_size m) as (Hw & Hh & _).
  rewrite Hw, Hh in Hp. unfold alpha_at.
  rewrite invertMask_opaque_lookup by (assumption || lia).
  pose proof (Hop p Hp) as Hal. unfold alpha_at in Hal. rewrite Hal. reflexivity.
Qed.

(** X1. Inverting an opaque mask twice gives the mask back, byte for
    byte: [invertMask] is an involution on the masks the editor
    produces. *)
Theorem invertMask_involutive (m : ImageData) :
  wf_image m -> opaque m -> invertMask (invertMask m) = m.
Proof.
  intros Hwf Hop.
  destruct (invertMask_size m) as (Hw & Hh & Hlen).
  destruct (invertMask_size (invertMask m)) as (Hw2 & Hh2 & Hlen2).
  apply image_ext; [congruence|congruence|].
  apply (flat_ext _ _ (width m * height m)).
  - rewrite Hlen2, Hw, Hh. reflexivity.
  - apply Hwf.
  - intros q c Hq Hc.
    rewrite invertMask_opaque_lookup
      by (auto using invertMask_wf, invertMask_opaque; rewrite ?Hw, ?Hh; assumption).
    rewrite invertMask_opaque_lookup by assumption.
    destruct (byte_at m (4 * q + c) Hwf) as (x & Hx & Hxr); [lia|].
    rewrite Hx. cbn. f_equal. unfold inverted_byte. destruct (decide (c = 3)); lia.
Qed.

Lemma invertMask_keeps_alpha_aux (m : ImageData) :
  wf_image m ->
  width (invertMask m) = width m /\ height (invertMask m) = height m /\
  forall p, p < width m * height m -> alpha_at (invertMask m) p = alpha_at m p.
Proof.
  intros Hwf. destruct (invertMask_size m) as (Hw & Hh & Hlen).
  split; [assumption|]. split; [assumption|]. intros p Hp.
  unfold alpha_at at 1. rewrite invertMask_lookup by lia.
  destruct (alpha_at_defined m p Hwf Hp) as (a & Ha & Har). rewrite Ha.
  cbn [straight lookup list_lookup]. f_equal.
  cbn [premultiply alpha pixelOf].
  set (gd := flat_map straight _).
  assert (Hgd : length gd = 4 * (width m * height m)).
  { subst gd. rewrite straight_length, first_draw_length. reflexivity. }
  destruct (invertLoop_lookup (4 * (width m * height m)) 0 gd (width m * height m)
              Hgd ltac:(lia)) as [_ Hget].
  change (4 * 0) with 0 in Hget.
  rewrite Hget by lia. rewrite decide_False by lia.
  subst gd. rewrite straight_lookup by lia. rewrite first_draw by assumption.
  cbn [mbind option_bind straight lookup list_lookup default].
  unfold blend. rewrite !decide_True by reflexivity.
  cbn [alpha premultiply transparent].
  rewrite mul255_0_l, Z.add_0_r, (alpha_pixelOf m p a Ha), clamp8_byte by assumption.
  reflexivity.
Qed.

(** X2. [invertMask] never changes the size of a mask nor its alpha
    channel, whatever the colours: only R, G and B are rewritten. *)
Theorem invertMask_keeps_alpha (m : ImageData) :
  wf_image m ->
  width (invertMask m) = width m /\ height (invertMask m) = height m /\
  forall p, p < width m * height m -> alpha_at (invertMask m) p = alpha_at m p.
Proof. exact (invertMask_keeps_alpha_aux m). Qed.

(** The sources of a [destination-in] draw count by their alpha only. *)
Lemma blend_destination_in_alpha d s1 s2 :
  alpha s1 = alpha s2 ->
  blend (VNum 1) (VStr "destination-in") d s1 = blend (VNum 1) (VStr "destination-in") d s2.
Proof.
  intros Ha. unfold blend. rewrite decide_True by reflexivity.
  rewrite decide_False by discriminate. rewrite decide_True by reflexivity.
  rewrite Ha. reflexivity.
Qed.

Lemma drawImage_destination_in_ext ctx m1 m2 :
  globalAlpha ctx = VNum 1 -> globalCompositeOperation ctx = VStr "destination-in" ->
  width m1 = width m2 -> height m1 = height m2 ->
  (forall p, p < width m2 * height m2 -> alpha_at m1 p = alpha_at m2 p) ->
  drawImage m1 ctx = drawImage m2 ctx.
Proof.
  intros Hga Hop Hw Hh Ha. unfold drawImage. rewrite Hga, Hop, Hw, Hh. f_equal.
  apply list_eq. intros i. rewrite !list_lookup_imap.
  destruct (_ !! i) as [d|]; [|reflexivity]. cbn [fmap option_fmap option_map]. f_equal.
  destruct (decide (_ /\ _)) as [[Hx Hy]|]; [|reflexivity].
  apply blend_destination_in_alpha.
  assert (Hp : i `div` canvas_width ctx * width m2 + i `mod` canvas_width ctx
               < width m2 * height m2) by nia.
  specialize (Ha _ Hp). unfold alpha_at in Ha.
  unfold pixelOf; cbn [alpha]. rewrite Ha. reflexivity.
Qed.

(** X3. The [invert] flag of [applyMaskToImage] has no effect on a mask
    of the image's size: the mask is inverted in its colours, and the
    [destination-in] draw looks at its alpha only. *)
Theorem applyMaskToImage_invert_flag_is_inert (image mask : ImageData) :
  wf_image mask ->
  width mask = width image -> height mask = height image ->
  applyMaskToImage image mask true = applyMaskToImage image mask false.
Proof.
  intros Hwf Hw Hh.
  destruct (invertMask_keeps_alpha_aux mask Hwf) as (Hiw & Hih & Hia).
  assert (R1 : resample (invertMask mask) (width image) (height image) = invertMask mask).
  { rewrite <- Hw, <- Hh. rewrite <- Hiw, <- Hih. apply resample_same. }
  assert (R2 : resample mask (width image) (height image) = mask).
  { rewrite <- Hw, <- Hh. apply resample_same. }
  unfold applyMaskToImage, drawImageScaled. rewrite R1, R2. f_equal.
  apply drawImage_destination_in_ext; try assumption; try reflexivity.
  cbn [globalCompositeOperation set_globalCompositeOperation].
  rewrite valid_destination_in. reflexivity.
Qed.

End InvertFacts.

Lemma wf_photo : wf_image photo.
Proof. split; [reflexivity|]. repeat constructor; lia. Qed.

Lemma invertMask_involutive_witness :
  Compositor.invertMask (E := ReferenceEngine.engine)
    (Compositor.invertMask (E := ReferenceEngine.engine) maskA) = maskA.
Proof.
  apply (invertMask_involutive (E := ReferenceEngine.engine) (L := reference_engine_laws)
           maskA wf_maskA opaque_maskA).
Defined.

Lemma invertMask_keeps_alpha_witness :
  alpha_at (Compositor.invertMask (E := ReferenceEngine.engine) softMask) 0 = Some 100%Z.
Proof.
  destruct (invertMask_keeps_alpha (E := ReferenceEngine.engine) (L := reference_engine_laws)
              softMask wf_softMask) as (_ & _ & H).
  rewrite (H 0 ltac:(cbn; lia)). reflexivity.
Defined.

Lemma applyMaskToImage_invert_flag_is_inert_witness :
  Compositor.applyMaskToImage (E := ReferenceEngine.engine) photo softMask true
  = Compositor.applyMaskToImage (E := ReferenceEngine.engine) photo softMask false.
Proof.
  apply (applyMaskToImage_invert_flag_is_inert
           (E := ReferenceEngine.engine) (L := reference_engine_laws)
           photo softMask wf_softMask eq_refl eq_refl).
Defined.

(** *** Laws of the pairwise mask operations *)

Section MaskLawFacts.
Import Canvas2D MaskAlgebra.
Context {E : Engine}.

(** The result buffer depends on the clamped values only. *)
Lemma pairwise_result_ext val val' a b a' b' :
  width a = width a' -> height a = height a' ->
  (forall p, p < width a * height a ->
     Js.toUint8Clamped (val (red_at (imageData (loadImageData a)) p)
                            (red_at (imageData (loadImageData b)) p))
     = Js.toUint8Clamped (val' (red_at (imageData (loadImageData a')) p)
                               (red_at (imageData (loadImageData b')) p))) ->
  result (pairwise val a b) = result (pairwise val' a' b').
Proof.
  intros Hw Hh Hval.
  destruct (pairwise_frame val a b) as (_ & _ & W1 & H1 & L1).
  destruct (pairwise_frame val' a' b') as (_ & _ & W2 & H2 & L2).
  apply image_ext; [congruence|congruence|].
  apply (flat_ext _ _ (width a * height a)); [assumption|rewrite L2; congruence|].
  intros q c Hq Hc.
  rewrite !pairwise_pixel by (rewrite <- ?Hw, <- ?Hh; assumption).
  unfold written. destruct (decide (c = 3)); [reflexivity|].
  rewrite Hval by assumption. reflexivity.
Qed.

Lemma encodeResult_ext val val' a b a' b' :
  width a = width a' -> height a = height a' ->
  result (pairwise val a b) = result (pairwise val' a' b') ->
  encodeResult (pairwise val a b) = encodeResult (pairwise val' a' b').
Proof.
  intros Hw Hh Hres.
  unfold encodeResult, toDataURL, getImageData, putImageData.
  cbn [width height data canvas_width canvas_height pixels].
  destruct (pairwise_frame val a b) as (H1 & _).
  destruct (pairwise_frame val' a' b') as (H1' & _).
  rewrite H1, H1', Hres. cbn [ctx loadImageData].
  unfold drawImage; cbn [canvas_width canvas_height createCanvas pixels].
  rewrite <- Hw, <- Hh. f_equal. f_equal.
  apply list_eq. intros i. rewrite !list_lookup_imap.
  destruct (decide (i < width a * height a)) as [Hi|Hi].
  - rewrite !lookup_replicate_2 by assumption. reflexivity.
  - rewrite !lookup_ge_None_2 by (rewrite length_replicate; lia). reflexivity.
Qed.

Lemma pairwise_comm val a b :
  (forall x y, val x y = val y x) ->
  width a = width b -> height a = height b ->
  encodeResult (pairwise val a b) = encodeResult (pairwise val b a).
Proof.
  intros Hval Hw Hh. apply encodeResult_ext; [assumption|assumption|].
  apply pairwise_result_ext; [assumption|assumption|].
  intros p Hp. rewrite Hval. reflexivity.
Qed.

Lemma unionVal_comm x y : unionVal x y = unionVal y x.
Proof. destruct x, y; cbn; f_equal; lia. Qed.

Lemma intersectionVal_comm x y : intersectionVal x y = intersectionVal y x.
Proof. destruct x, y; cbn; f_equal; lia. Qed.

Lemma xorVal_comm x y : xorVal x y = xorVal y x.
Proof. destruct x, y; cbn; f_equal; lia. Qed.

(** X4. Union, intersection and exclusive-or of two masks of the same
    size do not depend on the order of the operands (as whole images,
    whatever the bytes of the masks). *)
Theorem mask_operations_commute (a b : ImageData) :
  width a = width b -> height a = height b ->
  maskUnion a b = maskUnion b a /\
  maskIntersection a b = maskIntersection b a /\
  maskXor a b = maskXor b a.
Proof.
  intros Hw Hh. unfold maskUnion, maskIntersection, maskXor.
  repeat split; apply pairwise_comm;
    auto using unionVal_comm, intersectionVal_comm, xorVal_comm.
Qed.

Context {L : EngineLaws E}.

Lemma loaded_red_defined a p :
  p < width a * height a -> exists x, red_at (imageData (loadImageData a)) p = Some x.
Proof.
  intros Hp. apply lookup_lt_is_Some_2. rewrite loadImageData_length. lia.
Qed.

(** X5. A mask subtracted from itself, or combined with itself by
    exclusive-or, is black everywhere -- whatever its bytes. *)
Theorem mask_minus_itself_is_black (a : ImageData) (p : nat) :
  p < width a * height a ->
  gray_pixel (maskSubtract a a) p 0 /\ gray_pixel (maskXor a a) p 0.
Proof.
  intros Hp. destruct (loaded_red_defined a p Hp) as [x Hx].
  split.
  - pose proof (pairwise_gray subtractVal a a p Hp) as H. rewrite Hx in H.
    cbn in H. rewrite Z.sub_diag in H. exact H.
  - pose proof (pairwise_gray xorVal a a p Hp) as H. rewrite Hx in H.
    cbn in H. rewrite Z.sub_diag in H. exact H.
Qed.

Lemma gray_pixel_lookup img p v c :
  gray_pixel img p v -> c < 4 ->
  data img !! (4 * p + c) = Some (if decide (c = 3) then 255%Z else v).
Proof.
  intros (Hr & Hg & Hb & Ha) Hc.
  unfold red_at, green_at, blue_at, alpha_at in *.
  destruct c as [|[|[|[|c]]]]; try lia; rewrite ?Nat.add_0_r; assumption.
Qed.

Lemma same_gray_image (r a : ImageData) :
  width r = width a -> height r = height a ->
  length (data r) = 4 * (width a * height a) ->
  length (data a) = 4 * (width a * height a) ->
  (forall p, p < width a * height a -> exists v, gray_pixel r p v /\ gray_pixel a p v) ->
  r = a.
Proof.
  intros Hw Hh Lr La Hpx. apply image_ext; [assumption|assumption|].
  apply (flat_ext _ _ (width a * height a)); [assumption|assumption|].
  intros q c Hq Hc. destruct (Hpx q Hq) as (v & Hr & Ha).
  rewrite (gray_pixel_lookup r q v c Hr Hc), (gray_pixel_lookup a q v c Ha Hc).
  reflexivity.
Qed.

(** X6. Union and intersection are idempotent on single-channel masks:
    combining a gray, opaque mask with itself returns the very same
    image. *)
Theorem mask_union_intersection_idempotent (a : ImageData) :
  wf_image a -> gray_mask a ->
  maskUnion a a = a /\ maskIntersection a a = a.
Proof.
  intros Hwf Hgray.
  assert (Hop : opaque a).
  { intros p Hp. destruct (Hgray p Hp) as (v & _ & _ & _ & Ha). exact Ha. }
  assert (Hpx : forall val, (forall x, val (Some x) (Some x) = Some x) ->
            encodeResult (pairwise val a a) = a).
  { intros val Hval.
    destruct (encodeResult_size val a a) as (Hw & Hh & Hlen).
    apply same_gray_image; [assumption|assumption|assumption|apply Hwf|].
    intros p Hp. destruct (Hgray p Hp) as (v & Hv).
    exists v. split; [|assumption].
    pose proof (pairwise_gray val a a p Hp) as H.
    rewrite loadImageData_opaque in H by assumption.
    destruct (red_at_defined a p Hwf Hp) as (x & Hx & Hxr).
    destruct Hv as (Hr & Hrest). assert (x = v) by congruence. subst x.
    rewrite Hr, Hval in H. cbn in H.
    replace (Z.max 0 (Z.min 255 v)) with v in H by lia.
    exact H. }
  split; apply Hpx; intros x; cbn; f_equal; lia.
Qed.

(** X7. When the second mask has fewer pixels than the first, the part
    of the result past the end of the second mask's data is black for
    every operation, union and subtraction included: the missing byte
    reads as [undefined], the value computed is NaN, and NaN is stored
    as 0. *)
Theorem pixels_past_second_mask_are_black (a b : ImageData) (p : nat) :
  p < width a * height a -> width b * height b <= p ->
  gray_pixel (maskUnion a b) p 0 /\
  gray_pixel (maskIntersection a b) p 0 /\
  gray_pixel (maskSubtract a b) p 0 /\
  gray_pixel (maskXor a b) p 0.
Proof.
  intros Hp Hb.
  assert (Hnone : red_at (imageData (loadImageData b)) p = None).
  { apply lookup_ge_None_2. rewrite loadImageData_length. lia. }
  destruct (loaded_red_defined a p Hp) as [x Hx].
  split; [|split; [|split]].
  - pose proof (pairwise_gray unionVal a b p Hp) as H. rewrite Hx, Hnone in H. exact H.
  - pose proof (pairwise_gray intersectionVal a b p Hp) as H. rewrite Hx, Hnone in H. exact H.
  - pose proof (pairwise_gray subtractVal a b p Hp) as H. rewrite Hx, Hnone in H. exact H.
  - pose proof (pairwise_gray xorVal a b p Hp) as H. rewrite Hx, Hnone in H. exact H.
Qed.

Lemma operation_size f operation a b :
  operationFn operation = Some f ->
  width (f a b) = width a /\ height (f a b) = height a /\
  forall p, p < width a * height a -> exists v, gray_pixel (f a b) p v.
Proof.
  unfold operationFn. intros Hf.
  assert (Hval : forall val,
            width (encodeResult (pairwise val a b)) = width a /\
            height (encodeResult (pairwise val a b)) = height a /\
            forall p, p < width a * height a ->
              exists v, gray_pixel (encodeResult (pairwise val a b)) p v).
  { intros val. destruct (encodeResult_size val a b) as (Hw & Hh & _).
    split; [exact Hw|]. split; [exact Hh|].
    intros p Hp. eexists. apply pairwise_gray. exact Hp. }
  repeat (destruct (decide _) in Hf; [injection Hf as <-; apply Hval|]).
  discriminate.
Qed.

Lemma fold_operation_size f operation rest : forall m0,
  operationFn operation = Some f ->
  width (foldl f m0 rest) = width m0 /\ height (foldl f m0 rest) = height m0.
Proof.
  induction rest as [|m rest IH]; intros m0 Hf; [auto|].
  cbn [foldl]. destruct (IH (f m0 m) Hf) as [Hw Hh].
  destruct (operation_size f operation m0 m Hf) as (Hw' & Hh' & _).
  split; congruence.
Qed.

(** X8. Whatever the sizes of the later masks, the combination of a
    list of masks has the size of the first one; with two masks or more
    every pixel of it is a gray, opaque level. *)
Theorem combineMasks_has_size_of_first_mask (m0 : ImageData) (rest : list ImageData)
        (operation : string) f :
  operationFn operation = Some f ->
  exists r,
    combineMasks (m0 :: rest) operation = Js.Normal (Some r) /\
    width r = width m0 /\ height r = height m0 /\
    (rest <> [] -> forall p, p < width m0 * height m0 -> exists v, gray_pixel r p v).
Proof.
  intros Hf. destruct rest as [|m1 rest'] using rev_ind.
  - exists m0. cbn. repeat split; try reflexivity. intros Hne. contradiction.
  - exists (foldl f m0 (rest' ++ [m1])).
    destruct (fold_operation_size f operation (rest' ++ [m1]) m0 Hf) as [Hw Hh].
    split.
    { unfold combineMasks. destruct (rest' ++ [m1]) eqn:Hr.
      - destruct rest'; discriminate.
      - rewrite Hf. reflexivity. }
    split; [assumption|]. split; [assumption|].
    intros _ p Hp. rewrite foldl_snoc.
    destruct (fold_operation_size f operation rest' m0 Hf) as [Hw' Hh'].
    destruct (operation_size f operation (foldl f m0 rest') m1 Hf) as (_ & _ & Hg).
    apply Hg. rewrite Hw', Hh'. exact Hp.
Qed.

End MaskLawFacts.

Lemma mask_operations_commute_witness :
  MaskAlgebra.maskXor (E := ReferenceEngine.engine) maskA maskB
  = MaskAlgebra.maskXor (E := ReferenceEngine.engine) maskB maskA.
Proof.
  apply (mask_operations_commute (E := ReferenceEngine.engine) maskA maskB eq_refl eq_refl).
Defined.

Lemma mask_minus_itself_is_black_witness :
  gray_pixel (MaskAlgebra.maskSubtract (E := ReferenceEngine.engine) maskA maskA) 1 0.
Proof.
  apply (mask_minus_itself_is_black (E := ReferenceEngine.engine) (L := reference_engine_laws)
           maskA 1).
  cbn. lia.
Defined.

Lemma gray_maskA : gray_mask maskA.
Proof.
  intros p Hp. destruct p as [|[|p]].
  - exists 10%Z. repeat split.
  - exists 200%Z. repeat split.
  - cbn in Hp. lia.
Qed.

Lemma mask_union_intersection_idempotent_witness :
  MaskAlgebra.maskUnion (E := ReferenceEngine.engine) maskA maskA = maskA.
Proof.
  apply (mask_union_intersection_idempotent
           (E := ReferenceEngine.engine) (L := reference_engine_laws) maskA wf_maskA gray_maskA).
Defined.

(** A one-pixel mask, smaller than [maskA]. *)
Lemma pixels_past_second_mask_are_black_witness :
  let small := {| width := 1; height := 1; data := [255; 255; 255; 255]%Z |} in
  gray_pixel (MaskAlgebra.maskUnion (E := ReferenceEngine.engine) maskA small) 1 0.
Proof.
  intros small.
  apply (pixels_past_second_mask_are_black
           (E := ReferenceEngine.engine) (L := reference_engine_laws) maskA small 1).
  - cbn. lia.
  - cbn. lia.
Defined.

Lemma combineMasks_has_size_of_first_mask_witness :
  exists r,
    MaskAlgebra.combineMasks (E := ReferenceEngine.engine) [maskA; maskB; maskA'] "subtract"
      = Js.Normal (Some r) /\
    width r = 2 /\ height r = 1.
Proof.
  destruct (combineMasks_has_size_of_first_mask
              (E := ReferenceEngine.engine) (L := reference_engine_laws)
              maskA [maskB; maskA'] "subtract" MaskAlgebra.maskSubtract eq_refl)
    as (r & Hr & Hw & Hh & _).
  exists r. auto.
Defined.

(** *** compositeImages *)

Section CompositeFacts.
Import Canvas2D Canvas2DMore ImageUtils.
Context {E : Engine} {P : EngineLawsPlus E}.

Lemma source_index_bound bg fg x y p :
  covered_by bg fg x y p = true -> source_index bg fg x y p < width fg * height fg.
Proof.
  unfold covered_by, source_index. intros H. apply bool_decide_eq_true_1 in H. nia.
Qed.

Lemma compositeImages_size bg fg x y opacity :
  width (compositeImages bg fg x y opacity) = width bg /\
  height (compositeImages bg fg x y opacity) = height bg /\
  length (data (compositeImages bg fg x y opacity)) = 4 * (width bg * height bg).
Proof.
  unfold compositeImages, toDataURL, getImageData. cbn.
  rewrite straight_length, !length_imap, length_replicate. auto.
Qed.

Lemma compositeImages_lookup bg fg x y opacity p c :
  p < width bg * height bg -> c < 4 ->
  data (compositeImages bg fg x y opacity) !! (4 * p + c)
  = straight
      (let d := blend (VNum 1) (VStr "source-over") transparent (pixelOf (data bg) p) in
       if covered_by bg fg x y p then
         blend (if validAlpha opacity then opacity else VNum 1) (VStr "source-over") d
               (pixelOf (data fg) (source_index bg fg x y p))
       else d) !! c.
Proof.
  intros Hp Hc. unfold compositeImages, toDataURL, getImageData. cbn [data].
  rewrite straight_lookup by assumption.
  unfold drawImageAt. cbn [pixels]. rewrite list_lookup_imap.
  cbn [set_globalAlpha pixels]. rewrite first_draw by assumption.
  cbn [fmap option_fmap option_map mbind option_bind].
  cbn [globalAlpha globalCompositeOperation canvas_width set_globalAlpha drawImage createCanvas].
  unfold covered_by, source_index.
  match goal with |- context [decide ?Q] => destruct (decide Q) as [H|H] end.
  - rewrite (bool_decide_eq_true_2 _ H). reflexivity.
  - rewrite (bool_decide_eq_false_2 _ H). reflexivity.
Qed.

Lemma first_pixel_opaque r g b :
  (0 <= r <= 255)%Z -> (0 <= g <= 255)%Z -> (0 <= b <= 255)%Z ->
  blend (VNum 1) (VStr "source-over") transparent
        {| red := r; green := g; blue := b; alpha := 255 |}
  = {| red := r; green := g; blue := b; alpha := 255 |}.
Proof.
  intros Hr Hg Hb. unfold blend. rewrite !decide_True by reflexivity.
  cbn [premultiply transparent red green blue alpha].
  rewrite !mul255_0_l, !mul255_255_r by lia.
  rewrite !Z.add_0_r, !clamp8_byte by lia. reflexivity.
Qed.

(** An opaque source replaces what is under it. *)
Lemma source_over_opaque d r g b :
  (0 <= r <= 255)%Z -> (0 <= g <= 255)%Z -> (0 <= b <= 255)%Z ->
  blend (VNum 1) (VStr "source-over") d {| red := r; green := g; blue := b; alpha := 255 |}
  = {| red := r; green := g; blue := b; alpha := 255 |}.
Proof.
  intros Hr Hg Hb. unfold blend. rewrite !decide_True by reflexivity.
  cbn [premultiply red green blue alpha]. change (255 - 255)%Z with 0%Z.
  rewrite !mul255_0_r, !mul255_255_r by lia.
  rewrite !Z.add_0_r, !clamp8_byte by lia. reflexivity.
Qed.

(** A source of zero alpha leaves what is under it. *)
Lemma source_over_clear r g b s :
  (0 <= r <= 255)%Z -> (0 <= g <= 255)%Z -> (0 <= b <= 255)%Z ->
  alpha s = 0%Z ->
  blend (VNum 1) (VStr "source-over") {| red := r; green := g; blue := b; alpha := 255 |} s
  = {| red := r; green := g; blue := b; alpha := 255 |}.
Proof.
  intros Hr Hg Hb Ha. unfold blend. rewrite !decide_True by reflexivity.
  cbn [premultiply red green blue alpha]. rewrite Ha. change (255 - 0)%Z with 255%Z.
  rewrite !mul255_0_r, !mul255_255_r by lia.
  rewrite !Z.add_0_l, !clamp8_byte by lia. reflexivity.
Qed.

Lemma opaque_pixelOf (img : ImageData) p :
  wf_image img -> opaque img -> p < width img * height img ->
  exists r g b,
    (0 <= r <= 255)%Z /\ (0 <= g <= 255)%Z /\ (0 <= b <= 255)%Z /\
    pixelOf (data img) p = {| red := r; green := g; blue := b; alpha := 255 |} /\
    forall c, c < 4 -> data img !! (4 * p + c) = [r; g; b; 255%Z] !! c.
Proof.
  intros Hwf Hop Hp.
  destruct (byte_at img (4 * p) Hwf) as (r & Hr & Hrr); [lia|].
  destruct (byte_at img (4 * p + 1) Hwf) as (g & Hg & Hgr); [lia|].
  destruct (byte_at img (4 * p + 2) Hwf) as (b & Hb & Hbr); [lia|].
  pose proof (Hop p Hp) as Hal. unfold alpha_at in Hal.
  exists r, g, b. repeat (split; [assumption|]). split.
  - unfold pixelOf. rewrite Hr, Hg, Hb, Hal. reflexivity.
  - intros c Hc. destruct c as [|[|[|[|c]]]]; try lia;
      rewrite ?Nat.add_0_r, ?Hr, ?Hg, ?Hb, ?Hal; reflexivity.
Qed.

Lemma validAlpha_1 : (if validAlpha (VNum 1) then VNum 1 else VNum 1) = VNum 1.
Proof. destruct (validAlpha (VNum 1)); reflexivity. Qed.

(** X9. Pasting an opaque foreground at full opacity: inside the
    rectangle the foreground occupies, the composite holds the
    foreground's bytes (shifted by the offset); everywhere else the
    background's. Offsets may be negative or reach past the canvas: the
    foreground is clipped, the canvas keeps the background's size. *)
Theorem compositeImages_opaque_paste (bg fg : ImageData) (x y : Z) (p c : nat) :
  wf_image bg -> opaque bg -> wf_image fg -> opaque fg ->
  p < width bg * height bg -> c < 4 ->
  width (compositeImages bg fg x y (VNum 1)) = width bg /\
  height (compositeImages bg fg x y (VNum 1)) = height bg /\
  data (compositeImages bg fg x y (VNum 1)) !! (4 * p + c)
  = if covered_by bg fg x y p
    then data fg !! (4 * source_index bg fg x y p + c)
    else data bg !! (4 * p + c).
Proof.
  intros Hbg Hobg Hfg Hofg Hp Hc.
  destruct (compositeImages_size bg fg x y (VNum 1)) as (Hw & Hh & _).
  split; [exact Hw|]. split; [exact Hh|].
  rewrite compositeImages_lookup by assumption. cbv zeta. rewrite validAlpha_1.
  destruct (opaque_pixelOf bg p Hbg Hobg Hp) as (r & g & b & Hr & Hg & Hb & Hpx & Hbytes).
  rewrite Hpx, first_pixel_opaque by assumption.
  destruct (covered_by bg fg x y p) eqn:Hcov.
  - destruct (opaque_pixelOf fg _ Hfg Hofg (source_index_bound _ _ _ _ _ Hcov))
      as (r2 & g2 & b2 & Hr2 & Hg2 & Hb2 & Hpx2 & Hbytes2).
    rewrite Hpx2, source_over_opaque by assumption.
    rewrite Hbytes2 by assumption.
    unfold straight; cbn [red green blue alpha].
    rewrite !unpremultiply_255 by assumption. reflexivity.
  - rewrite Hbytes by assumption.
    unfold straight; cbn [red green blue alpha].
    rewrite !unpremultiply_255 by assumption. reflexivity.
Qed.

(** X10. A fully transparent foreground, wherever it is put, leaves an
    opaque background exactly as it was. *)
Theorem compositeImages_transparent_foreground (bg fg : ImageData) (x y : Z) :
  wf_image bg -> opaque bg -> transparent_image fg ->
  compositeImages bg fg x y (VNum 1) = bg.
Proof.
  intros Hbg Hobg Hfg.
  destruct (compositeImages_size bg fg x y (VNum 1)) as (Hw & Hh & Hlen).
  apply image_ext; [assumption|assumption|].
  apply (flat_ext _ _ (width bg * height bg)); [assumption|apply Hbg|].
  intros p c Hp Hc.
  rewrite compositeImages_lookup by assumption. cbv zeta. rewrite validAlpha_1.
  destruct (opaque_pixelOf bg p Hbg Hobg Hp) as (r & g & b & Hr & Hg & Hb & Hpx & Hbytes).
  rewrite Hpx, first_pixel_opaque by assumption.
  assert (Hd : (if covered_by bg fg x y p
                then blend (VNum 1) (VStr "source-over")
                       {| red := r; green := g; blue := b; alpha := 255 |}
                       (pixelOf (data fg) (source_index bg fg x y p))
                else {| red := r; green := g; blue := b; alpha := 255 |})
               = {| red := r; green := g; blue := b; alpha := 255 |}).
  { destruct (covered_by bg fg x y p) eqn:Hcov; [|reflexivity].
    apply source_over_clear; try assumption.
    apply (alpha_pixelOf fg). apply Hfg. apply source_index_bound. exact Hcov. }
  rewrite Hd, Hbytes by assumption.
  unfold straight; cbn [red green blue alpha].
  rewrite !unpremultiply_255 by assumption. reflexivity.
Qed.

(** X11. A foreground placed entirely off the canvas changes nothing,
    at any opacity: what [compositeImages] returns is the opaque
    background itself. *)
Theorem compositeImages_foreground_off_canvas (bg fg : ImageData) (x y : Z) (opacity : value) :
  wf_image bg -> opaque bg ->
  (Z.of_nat (width bg) <= x \/ x + Z.of_nat (width fg) <= 0 \/
   Z.of_nat (height bg) <= y \/ y + Z.of_nat (height fg) <= 0)%Z ->
  compositeImages bg fg x y opacity = bg.
Proof.
  intros Hbg Hobg Hoff.
  destruct (compositeImages_size bg fg x y opacity) as (Hw & Hh & Hlen).
  apply image_ext; [assumption|assumption|].
  apply (flat_ext _ _ (width bg * height bg)); [assumption|apply Hbg|].
  intros p c Hp Hc.
  rewrite compositeImages_lookup by assumption. cbv zeta.
  destruct (position_in_image _ _ p Hp) as (Hx & Hy & _).
  assert (Hcov : covered_by bg fg x y p = false).
  { unfold covered_by. apply bool_decide_eq_false_2. lia. }
  rewrite Hcov.
  destruct (opaque_pixelOf bg p Hbg Hobg Hp) as (r & g & b & Hr & Hg & Hb & Hpx & Hbytes).
  rewrite Hpx, first_pixel_opaque, Hbytes by assumption.
  unfold straight; cbn [red green blue alpha].
  rewrite !unpremultiply_255 by assumption. reflexivity.
Qed.

End CompositeFacts.

Lemma reference_engine_laws_plus : EngineLawsPlus ReferenceEngine.engine.
Proof.
  split; [exact reference_engine_laws| |reflexivity|reflexivity].
  intros x. cbn. unfold ReferenceEngine.mul255. rewrite Z.mul_0_r. reflexivity.
Qed.

(** A 1x1 opaque stamp and a 1x1 transparent one. *)
Lemma compositeImages_opaque_paste_witness :
  let stamp := {| width := 1; height := 1; data := [7; 8; 9; 255]%Z |} in
  data (ImageUtils.compositeImages (E := ReferenceEngine.engine) photo stamp 1 0 (VNum 1))
       !! (4 * 1 + 0) = Some 7%Z.
Proof.
  intros stamp.
  assert (Hs : wf_image stamp) by (split; [reflexivity|repeat constructor; lia]).
  assert (Ho : opaque stamp).
  { intros p Hp. destruct p; [reflexivity|cbn in Hp; lia]. }
  destruct (compositeImages_opaque_paste
              (E := ReferenceEngine.engine) (P := reference_engine_laws_plus)
              photo stamp 1 0 1 0 wf_photo opaque_photo Hs Ho
              ltac:(cbn; lia) ltac:(lia)) as (_ & _ & H).
  rewrite H. reflexivity.
Defined.

Lemma compositeImages_transparent_foreground_witness :
  ImageUtils.compositeImages (E := ReferenceEngine.engine) photo (createImageData 2 1) 0 0 (VNum 1)
  = photo.
Proof.
  apply (compositeImages_transparent_foreground
           (E := ReferenceEngine.engine) (P := reference_engine_laws_plus)
           photo (createImageData 2 1) 0 0 wf_photo opaque_photo).
  intros p Hp. destruct p as [|[|p]]; [reflexivity|reflexivity|cbn in Hp; lia].
Defined.

Lemma compositeImages_foreground_off_canvas_witness :
  ImageUtils.compositeImages (E := ReferenceEngine.engine) photo maskA 2 0 (VNum 1) = photo.
Proof.
  apply (compositeImages_foreground_off_canvas
           (E := ReferenceEngine.engine) (P := reference_engine_laws_plus)
           photo maskA 2 0 (VNum 1) wf_photo opaque_photo).
  left. cbn. lia.
Defined.

(** *** Data URLs *)

Section DataUrlFacts.
Import DataUrl.

Lemma split_nonempty sep s : split sep s <> [].
Proof.
  destruct s as [|c rest]; cbn; [discriminate|].
  destruct (decide (c = sep)); [discriminate|].
  destruct (split sep rest); discriminate.
Qed.

Lemma split_no_sep sep s : has_char sep s = false -> split sep s = [s].
Proof.
  induction s as [|c rest IH]; cbn; [reflexivity|].
  intros H. apply orb_false_iff in H as [Hc Hrest].
  apply bool_decide_eq_false_1 in Hc.
  rewrite decide_False by assumption. rewrite (IH Hrest). reflexivity.
Qed.

Lemma append_cons c (a b : string) : String c a +:+ b = String c (a +:+ b).
Proof. reflexivity. Qed.

Lemma append_nil (b : string) : EmptyString +:+ b = b.
Proof. reflexivity. Qed.

Lemma append_assoc (a b c : string) : (a +:+ b) +:+ c = a +:+ (b +:+ c).
Proof.
  induction a as [|x a IH]; [reflexivity|]. rewrite !append_cons. f_equal. exact IH.
Qed.

Lemma split_app sep a b :
  has_char sep a = false ->
  split sep (a +:+ String sep b) = a :: split sep b.
Proof.
  induction a as [|c rest IH].
  - intros _. rewrite append_nil. cbn [split].
    rewrite decide_True by reflexivity. reflexivity.
  - intros H. cbn [has_char] in H. apply orb_false_iff in H as [Hc Hrest].
    apply bool_decide_eq_false_1 in Hc.
    rewrite append_cons. cbn [split].
    rewrite decide_False by assumption.
    rewrite (IH Hrest). reflexivity.
Qed.

Lemma has_char_app c a b : has_char c (a +:+ b) = has_char c a || has_char c b.
Proof.
  induction a as [|c' rest IH]; [reflexivity|].
  rewrite append_cons. cbn [has_char]. rewrite IH, orb_assoc. reflexivity.
Qed.

Lemma split_fields_no_sep sep s : Forall (fun f => has_char sep f = false) (split sep s).
Proof.
  induction s as [|c rest IH]; cbn.
  - repeat constructor.
  - destruct (decide (c = sep)) as [->|Hc].
    + constructor; [reflexivity|assumption].
    + destruct (split sep rest) as [|f fs]; [repeat constructor|].
      * cbn. rewrite bool_decide_eq_false_2 by assumption. reflexivity.
      * inversion IH as [|? ? Hf Hfs]; subst. constructor; [|assumption].
        cbn. rewrite bool_decide_eq_false_2 by assumption. exact Hf.
Qed.

Lemma urlToBase64_no_comma s : has_char comma s = false -> urlToBase64 s = s.
Proof.
  intros H. unfold urlToBase64. rewrite (split_no_sep _ _ H). reflexivity.
Qed.

Lemma base64ToUrl_split base64 mimeType :
  has_char comma mimeType = false -> has_char comma base64 = false ->
  split comma (base64ToUrl base64 mimeType) = ["data:" +:+ mimeType +:+ ";base64"; base64].
Proof.
  intros Hm Hb.
  assert (Heq : base64ToUrl base64 mimeType
                = ("data:" +:+ mimeType +:+ ";base64") +:+ String comma base64).
  { unfold base64ToUrl. rewrite !append_assoc. reflexivity. }
  rewrite Heq, split_app, (split_no_sep _ _ Hb); [reflexivity|].
  rewrite !has_char_app, Hm. reflexivity.
Qed.

(** X12. [urlToBase64] undoes [base64ToUrl]: for a MIME type and a
    non-empty payload without commas the payload comes back unchanged;
    for the empty payload the fallback of the [||] returns the whole
    data URL instead. [fileToBase64] takes the same field without the
    fallback. *)
Theorem urlToBase64_base64ToUrl (base64 mimeType : string) :
  has_char comma mimeType = false -> has_char comma base64 = false ->
  fileToBase64 (base64ToUrl base64 mimeType) = Some base64 /\
  (base64 <> EmptyString -> urlToBase64 (base64ToUrl base64 mimeType) = base64) /\
  (base64 = EmptyString ->
   urlToBase64 (base64ToUrl base64 mimeType) = base64ToUrl base64 mimeType).
Proof.
  intros Hm Hb. unfold urlToBase64, fileToBase64.
  rewrite (base64ToUrl_split _ _ Hm Hb). cbn [lookup list_lookup].
  split; [reflexivity|]. split; intros H.
  - rewrite decide_False by assumption. reflexivity.
  - rewrite decide_True by assumption. reflexivity.
Qed.

(** X13. [urlToBase64] is idempotent on every string: what it returns
    holds no second field to extract, so applying it to a string that is
    base64 already (the case of its callers) changes nothing. *)
Theorem urlToBase64_idempotent (url : string) :
  urlToBase64 (urlToBase64 url) = urlToBase64 url.
Proof.
  unfold urlToBase64 at 2 3.
  destruct (split comma url !! 1) as [field|] eqn:Hf.
  - destruct (decide (field = EmptyString)) as [->|Hne].
    + unfold urlToBase64. rewrite Hf. rewrite decide_True by reflexivity. reflexivity.
    + apply urlToBase64_no_comma.
      pose proof (split_fields_no_sep comma url) as Hall.
      rewrite Forall_lookup in Hall. exact (Hall 1 field Hf).
  - unfold urlToBase64. rewrite Hf. reflexivity.
Qed.

End DataUrlFacts.

Lemma urlToBase64_base64ToUrl_witness :
  DataUrl.urlToBase64 (DataUrl.base64ToUrl "iVBORw0KGgo=" "image/png") = "iVBORw0KGgo=".
Proof.
  apply (urlToBase64_base64ToUrl "iVBORw0KGgo=" "image/png" eq_refl eq_refl).
  discriminate.
Defined.

(** *** The store: updates, removal, selection *)

Section StoreFacts.
Import LayerStore LayerPanel LayerButtons.
Local Arguments Obj.get : simpl never.

Lemma get_spread_id (l updates : Layer) :
  updates !! "id" = None -> Obj.get (Obj.spread l updates) "id" = Obj.get l "id".
Proof.
  intros H. unfold Obj.get, Obj.spread. rewrite lookup_union_r by exact H. reflexivity.
Qed.

Lemma updateOne_id id updates (l : Layer) :
  updates !! "id" = None -> Obj.get (updateOne id updates l) "id" = Obj.get l "id".
Proof.
  intros H. unfold updateOne.
  destruct (Obj.strict_eq (Obj.get l "id") id); [apply get_spread_id; exact H|reflexivity].
Qed.

Lemma updateLayer_layers id updates state :
  layers (updateLayer id updates state) = map (updateOne id updates) (layers state).
Proof. reflexivity. Qed.

Lemma updateLayer_twice id1 u1 id2 u2 state :
  updateLayer id1 u1 (updateLayer id2 u2 state)
  = set_layers (map (fun l => updateOne id1 u1 (updateOne id2 u2 l)) (layers state)) state.
Proof.
  unfold updateLayer, set_layers. cbn [layers activeLayerId activeTool zoom panOffset].
  rewrite map_map. reflexivity.
Qed.

Lemma updateOne_merge id u1 u2 (l : Layer) :
  u1 !! "id" = None ->
  updateOne id u2 (updateOne id u1 l) = updateOne id (Obj.spread u1 u2) l.
Proof.
  intros H1. unfold updateOne at 2 3.
  destruct (Obj.strict_eq (Obj.get l "id") id) eqn:Hid.
  - unfold updateOne. rewrite (get_spread_id _ _ H1), Hid.
    unfold Obj.spread. rewrite (assoc_L (∪)). reflexivity.
  - unfold updateOne. rewrite Hid. reflexivity.
Qed.

Lemma updateOne_commute id1 u1 id2 u2 (l : Layer) :
  id1 <> id2 -> u1 !! "id" = None -> u2 !! "id" = None ->
  updateOne id1 u1 (updateOne id2 u2 l) = updateOne id2 u2 (updateOne id1 u1 l).
Proof.
  intros Hne H1 H2. unfold updateOne at 2 4.
  destruct (Obj.strict_eq (Obj.get l "id") id2) eqn:E2;
    destruct (Obj.strict_eq (Obj.get l "id") id1) eqn:E1.
  - apply bool_decide_eq_true_1 in E1, E2. congruence.
  - unfold updateOne. rewrite (get_spread_id _ _ H2), E1, E2. reflexivity.
  - unfold updateOne. rewrite (get_spread_id _ _ H1), E1, E2. reflexivity.
  - unfold updateOne. rewrite E1, E2. reflexivity.
Qed.

Lemma updateLayer_twice_merged_aux (id : value) (u1 u2 : Layer) (state : State) :
  u1 !! "id" = None ->
  updateLayer id u2 (updateLayer id u1 state) = updateLayer id (Obj.spread u1 u2) state.
Proof.
  intros H1. rewrite updateLayer_twice. unfold updateLayer. f_equal.
  apply map_ext. intros l. apply updateOne_merge. exact H1.
Qed.

(** X15. Two updates of the same layer amount to one update with the
    merged properties, [{ ...u1, ...u2 }], as long as the first does not
    rewrite the [id] the second looks for. *)
Theorem updateLayer_twice_is_merged_update (id : value) (u1 u2 : Layer) (state : State) :
  u1 !! "id" = None ->
  updateLayer id u2 (updateLayer id u1 state) = updateLayer id (Obj.spread u1 u2) state.
Proof. exact (updateLayer_twice_merged_aux id u1 u2 state). Qed.

Lemma updateLayer_commute_aux (id1 id2 : value) (u1 u2 : Layer) (state : State) :
  id1 <> id2 -> u1 !! "id" = None -> u2 !! "id" = None ->
  updateLayer id1 u1 (updateLayer id2 u2 state)
  = updateLayer id2 u2 (updateLayer id1 u1 state).
Proof.
  intros Hne H1 H2. rewrite !updateLayer_twice. f_equal.
  apply map_ext. intros l. apply updateOne_commute; assumption.
Qed.

(** X16. Updates of two different layers can be applied in either
    order (neither touching [id]): the store ends in the same state. *)
Theorem updateLayer_commutes (id1 id2 : value) (u1 u2 : Layer) (state : State) :
  id1 <> id2 -> u1 !! "id" = None -> u2 !! "id" = None ->
  updateLayer id1 u1 (updateLayer id2 u2 state)
  = updateLayer id2 u2 (updateLayer id1 u1 state).
Proof. exact (updateLayer_commute_aux id1 id2 u1 u2 state). Qed.

Lemma order_update_no_id (v : value) : ({[ "order" := v ]} : Layer) !! "id" = None.
Proof. apply lookup_singleton_ne. discriminate. Qed.

(** X17. "Move down" on row [index] and "move up" on row [index + 1]
    are the same operation on the store: the same two [order] values are
    exchanged, for any number of layers. *)
Theorem handleMoveDown_is_handleMoveUp_of_next (index : nat) (state : State)
        (cur next : Layer) :
  sortedLayers state !! index = Some cur ->
  sortedLayers state !! (index + 1) = Some next ->
  Obj.get cur "id" <> Obj.get next "id" ->
  handleMoveDown index state = handleMoveUp (index + 1) state /\
  handleMoveDown index state
  = Completed (updateLayer (Obj.get next "id") {[ "order" := Obj.get cur "order" ]}
                 (updateLayer (Obj.get cur "id") {[ "order" := Obj.get next "order" ]} state)).
Proof.
  intros Hcur Hnext Hne.
  assert (Hlen : index + 1 < length (sortedLayers state)).
  { eapply lookup_lt_Some. exact Hnext. }
  assert (Hdown : handleMoveDown index state
    = Completed (updateLayer (Obj.get next "id") {[ "order" := Obj.get cur "order" ]}
                 (updateLayer (Obj.get cur "id") {[ "order" := Obj.get next "order" ]} state))).
  { unfold handleMoveDown. rewrite decide_True by lia. rewrite Hcur, Hnext. reflexivity. }
  split; [|exact Hdown]. rewrite Hdown.
  unfold handleMoveUp. rewrite decide_True by lia.
  replace (index + 1 - 1) with index by lia. rewrite Hcur, Hnext.
  cbv zeta. apply (f_equal Completed).
  apply updateLayer_commute_aux;
    [intros Heq; apply Hne; symmetry; exact Heq|apply order_update_no_id|apply order_update_no_id].
Qed.

Lemma strict_eq_refl v : Obj.strict_eq v v = true.
Proof. apply bool_decide_eq_true_2. reflexivity. Qed.

Lemma strict_eq_ne v w : v <> w -> Obj.strict_eq v w = false.
Proof. intros H. apply bool_decide_eq_false_2. exact H. Qed.

Lemma filter_keeps_all {A} (f : A -> bool) (l : list A) :
  (forall x, In x l -> f x = true) -> List.filter f l = l.
Proof.
  induction l as [|x l IH]; intros H; [reflexivity|]. cbn.
  rewrite (H x (or_introl eq_refl)). f_equal. apply IH. intros y Hy. apply H. right. exact Hy.
Qed.

(** X18. Deleting the layer that was just added (its id being new)
    brings the list of layers back to what it was, but not the
    selection: no layer is active afterwards, whatever was active
    before the addition. *)
Theorem removeLayer_undoes_addLayer_but_not_selection (layer : Layer) (state : State) :
  (forall l, In l (layers state) -> Obj.get l "id" <> Obj.get layer "id") ->
  layers (removeLayer (Obj.get layer "id") (addLayer layer state)) = layers state /\
  activeLayerId (removeLayer (Obj.get layer "id") (addLayer layer state)) = VNull.
Proof.
  intros Hfresh. unfold removeLayer, addLayer.
  cbn [layers activeLayerId]. split.
  - rewrite List.filter_app. cbn [List.filter]. rewrite strict_eq_refl. cbn [negb].
    rewrite app_nil_r. apply filter_keeps_all.
    intros l Hl. rewrite strict_eq_ne by (apply Hfresh; exact Hl). reflexivity.
  - rewrite strict_eq_refl. reflexivity.
Qed.

Lemma filter_removes_one (ls : list Layer) : forall i victim,
  NoDup (map (fun l => Obj.get l "id") ls) ->
  ls !! i = Some victim ->
  List.filter (fun l => negb (Obj.strict_eq (Obj.get l "id") (Obj.get victim "id"))) ls
  = delete i ls.
Proof.
  induction ls as [|x ls IH]; intros i victim Hnd Hi; [discriminate|].
  cbn [map] in Hnd. apply NoDup_cons in Hnd as [Hx Hnd].
  destruct i as [|i]; cbn [List.filter].
  - injection Hi as ->. rewrite strict_eq_refl. cbn [negb delete].
    apply filter_keeps_all. intros l Hl.
    rewrite strict_eq_ne; [reflexivity|].
    intros Heq. apply Hx. rewrite <- Heq.
    apply list_elem_of_fmap. exists l. split; [reflexivity|].
    apply list_elem_of_In. exact Hl.
  - cbn in Hi. rewrite strict_eq_ne.
    + cbn [negb]. change (delete (S i) (x :: ls)) with (x :: delete i ls).
      f_equal. apply IH; assumption.
    + intros Heq. apply Hx. rewrite Heq.
      apply list_elem_of_fmap. exists victim. split; [reflexivity|].
      eapply list_elem_of_lookup_2. exact Hi.
Qed.

(** X19. Orders are not renumbered on deletion: in a stack whose
    orders are 0 .. n-1, after deleting any layer but the top one, the
    next layer added by the panel gets the [order] the top layer has
    already. *)
Theorem add_after_delete_duplicates_an_order (now : Z) (state : State)
        (i : nat) (victim top : Layer) :
  NoDup (map (fun l => Obj.get l "id") (layers state)) ->
  (forall j l, layers state !! j = Some l -> Obj.get l "order" = VNum (Z.of_nat j)) ->
  layers state !! i = Some victim ->
  i + 1 < length (layers state) ->
  layers state !! (length (layers state) - 1) = Some top ->
  let state' := handleAddLayer now (deleteLayer victim state) in
  exists added,
    layers state' !! (length (layers state) - 2) = Some top /\
    layers state' !! (length (layers state) - 1) = Some added /\
    Obj.get added "image_base64" = VStr "" /\
    Obj.get added "order" = Obj.get top "order".
Proof.
  intros Hnd Hord Hv Hi Htop state'.
  set (n := length (layers state)) in *.
  assert (Hdel : layers (deleteLayer victim state) = delete i (layers state)).
  { unfold deleteLayer, removeLayer. cbn [layers]. apply filter_removes_one; assumption. }
  assert (Hlen : length (layers (deleteLayer victim state)) = n - 1).
  { rewrite Hdel, length_delete by eauto. reflexivity. }
  subst state'. unfold handleAddLayer, addLayer. cbn [layers]. rewrite Hlen.
  eexists. split; [|split; [|split]].
  - rewrite lookup_app_l by lia. rewrite Hdel.
    rewrite list_lookup_delete_ge by lia. replace (S (n - 2)) with (n - 1) by lia. exact Htop.
  - rewrite lookup_app_r by lia. rewrite Hlen, Nat.sub_diag. reflexivity.
  - reflexivity.
  - rewrite (Hord _ _ Htop). unfold Obj.get.
    rewrite !lookup_insert_ne by discriminate.
    rewrite lookup_singleton_eq. cbn [default]. apply (f_equal VNum). lia.
Qed.

(** X20. Clicking the eye twice restores the layers exactly, for a
    stack without duplicate ids and a layer whose [visible] is a
    boolean. *)
Theorem toggleVisible_twice_restores_layers (layer : Layer) (state : State) (b : bool) :
  In layer (layers state) ->
  NoDup (map (fun l => Obj.get l "id") (layers state)) ->
  layer !! "visible" = Some (VBool b) ->
  let once := toggleVisible layer state in
  exists layer',
    In layer' (layers once) /\
    Obj.get layer' "id" = Obj.get layer "id" /\
    Obj.get layer' "visible" = VBool (negb b) /\
    layers (toggleVisible layer' once) = layers state.
Proof.
  intros Hin Hnd Hvis once.
  set (layer' := Obj.spread layer {[ "visible" := VBool (negb b) ]}).
  assert (Hget : Obj.get layer "visible" = VBool b).
  { unfold Obj.get. rewrite Hvis. reflexivity. }
  assert (Hnoid : forall v : value, ({[ "visible" := v ]} : Layer) !! "id" = None).
  { intros v. apply lookup_singleton_ne. discriminate. }
  assert (Hone : updateOne (Obj.get layer "id") {[ "visible" := VBool (negb b) ]} layer = layer').
  { unfold updateOne. rewrite strict_eq_refl. reflexivity. }
  assert (Hid' : Obj.get layer' "id" = Obj.get layer "id").
  { apply get_spread_id. apply Hnoid. }
  assert (Hvis' : Obj.get layer' "visible" = VBool (negb b)).
  { unfold layer', Obj.get, Obj.spread.
    rewrite lookup_union_l' by (rewrite lookup_singleton_eq; eauto).
    rewrite lookup_singleton_eq. reflexivity. }
  exists layer'. split; [|split; [assumption|split; [assumption|]]].
  - subst once. unfold toggleVisible. rewrite updateLayer_layers, Hget.
    unfold not. cbn [Obj.truthy]. rewrite <- Hone. apply in_map. exact Hin.
  - subst once. unfold toggleVisible. rewrite Hid', Hvis', Hget.
    unfold not. cbn [Obj.truthy]. rewrite negb_involutive.
    rewrite updateLayer_twice_merged_aux by apply Hnoid.
    rewrite updateLayer_layers.
    rewrite <- (map_id (layers state)) at 2. apply map_ext_in.
    intros l Hl. unfold updateOne.
    destruct (Obj.strict_eq (Obj.get l "id") (Obj.get layer "id")) eqn:Hid; [|reflexivity].
    apply bool_decide_eq_true_1 in Hid.
    assert (l = layer) as ->.
    { apply list_elem_of_In in Hl, Hin.
      apply list_elem_of_lookup in Hl as [j Hj]. apply list_elem_of_lookup in Hin as [k Hk].
      assert (j = k) as ->.
      { eapply NoDup_lookup; [exact Hnd| |];
          rewrite list_lookup_fmap; [rewrite Hj|rewrite Hk]; cbn; [rewrite Hid|]; reflexivity. }
      congruence. }
    unfold Obj.spread. apply map_eq. intros k.
    rewrite !lookup_union.
    destruct (decide (k = "visible")) as [->|Hk].
    + rewrite !lookup_singleton_eq, Hvis. reflexivity.
    + rewrite !lookup_singleton_ne by congruence.
      destruct (layer !! k); reflexivity.
Qed.

End StoreFacts.

(** The three sample layers, bottom to top. *)
Lemma sample_ids_NoDup :
  NoDup (map (fun l => Obj.get l "id") [layerA; layerB; layerC]).
Proof. refine (bool_decide_unpack _ _). vm_compute. exact I. Qed.

Lemma sample_orders j l :
  [layerA; layerB; layerC] !! j = Some l -> Obj.get l "order" = VNum (Z.of_nat j).
Proof.
  destruct j as [|[|[|j]]]; intros H; try discriminate H;
    injection H as <-; vm_compute; reflexivity.
Qed.

Lemma updateLayer_twice_is_merged_update_witness :
  let state := sampleStore [layerA; layerB] VNull "select" in
  LayerStore.updateLayer (VStr "layer-a") {[ "opacity" := VNum 0 ]}
    (LayerStore.updateLayer (VStr "layer-a") {[ "visible" := VBool false ]} state)
  = LayerStore.updateLayer (VStr "layer-a")
      (Obj.spread {[ "visible" := VBool false ]} {[ "opacity" := VNum 0 ]}) state.
Proof.
  intros state.
  apply (updateLayer_twice_is_merged_update (VStr "layer-a")
           {[ "visible" := VBool false ]} {[ "opacity" := VNum 0 ]} state).
  vm_compute. reflexivity.
Defined.

Lemma updateLayer_commutes_witness :
  let state := sampleStore [layerA; layerB] VNull "select" in
  LayerStore.updateLayer (VStr "layer-a") {[ "opacity" := VNum 0 ]}
    (LayerStore.updateLayer (VStr "layer-b") {[ "visible" := VBool false ]} state)
  = LayerStore.updateLayer (VStr "layer-b") {[ "visible" := VBool false ]}
      (LayerStore.updateLayer (VStr "layer-a") {[ "opacity" := VNum 0 ]} state).
Proof.
  intros state.
  apply (updateLayer_commutes (VStr "layer-a") (VStr "layer-b")
           {[ "opacity" := VNum 0 ]} {[ "visible" := VBool false ]} state).
  - discriminate.
  - vm_compute. reflexivity.
  - vm_compute. reflexivity.
Defined.

Lemma handleMoveDown_is_handleMoveUp_of_next_witness :
  let state := sampleStore [layerA; layerB; layerC] VNull "select" in
  LayerPanel.handleMoveDown 0 state = LayerPanel.handleMoveUp 1 state.
Proof.
  intros state.
  refine (proj1 (handleMoveDown_is_handleMoveUp_of_next 0 state layerC layerB _ _ _)).
  - vm_compute. reflexivity.
  - vm_compute. reflexivity.
  - vm_compute. discriminate.
Defined.

Lemma removeLayer_undoes_addLayer_but_not_selection_witness :
  let state := sampleStore [layerA; layerB] (VStr "layer-a") "select" in
  LayerStore.layers
    (LayerStore.removeLayer (Obj.get layerC "id") (LayerStore.addLayer layerC state))
    = [layerA; layerB] /\
  LayerStore.activeLayerId
    (LayerStore.removeLayer (Obj.get layerC "id") (LayerStore.addLayer layerC state))
    = VNull.
Proof.
  intros state.
  apply (removeLayer_undoes_addLayer_but_not_selection layerC state).
  intros l [<-|[<-|[]]]; vm_compute; discriminate.
Defined.

Lemma add_after_delete_duplicates_an_order_witness :
  let state := sampleStore [layerA; layerB; layerC] VNull "select" in
  let state' := LayerButtons.handleAddLayer 1700000000000
                  (LayerButtons.deleteLayer layerA state) in
  exists added,
    LayerStore.layers state' !! 1 = Some layerC /\
    LayerStore.layers state' !! 2 = Some added /\
    Obj.get added "image_base64" = VStr "" /\
    Obj.get added "order" = Obj.get layerC "order".
Proof.
  intros state.
  apply (add_after_delete_duplicates_an_order 1700000000000 state 0 layerA layerC
           sample_ids_NoDup sample_orders eq_refl ltac:(cbn; lia) eq_refl).
Defined.

Lemma toggleVisible_twice_restores_layers_witness :
  let state := sampleStore [layerA; layerB; layerC] VNull "select" in
  exists layer',
    In layer' (LayerStore.layers (LayerButtons.toggleVisible layerB state)) /\
    Obj.get layer' "id" = Obj.get layerB "id" /\
    Obj.get layer' "visible" = VBool false /\
    LayerStore.layers
      (LayerButtons.toggleVisible layer' (LayerButtons.toggleVisible layerB state))
    = [layerA; layerB; layerC].
Proof.
  intros state.
  apply (toggleVisible_twice_restores_layers layerB state true).
  - right. left. reflexivity.
  - exact sample_ids_NoDup.
  - vm_compute. reflexivity.
Defined.

(** *** Zoom *)

Section ZoomFacts.
Import LayerStore EditorStore Zoom.

Lemma tenth_le_five : (Q2Qc (1 # 10) <= Qc_of_Z 5)%Qc.
Proof. vm_compute. discriminate. Qed.

Lemma clampZoom_bounds z : (Q2Qc (1 # 10) <= clampZoom z)%Qc /\ (clampZoom z <= Qc_of_Z 5)%Qc.
Proof.
  unfold clampZoom, QMath.Math_max, QMath.Math_min.
  destruct (Qclt_le_dec z (Qc_of_Z 5)) as [H5|H5];
    destruct (Qclt_le_dec (Q2Qc (1 # 10)) _) as [H1|H1]; split;
    auto using Qcle_refl, Qclt_le_weak, tenth_le_five.
Qed.

Lemma clampZoom_in_range z :
  (Q2Qc (1 # 10) <= z)%Qc -> (z <= Qc_of_Z 5)%Qc -> clampZoom z = z.
Proof.
  intros Hlo Hhi. unfold clampZoom, QMath.Math_max, QMath.Math_min.
  destruct (Qclt_le_dec z (Qc_of_Z 5)) as [H5|H5].
  - destruct (Qclt_le_dec (Q2Qc (1 # 10)) z) as [H1|H1]; [reflexivity|].
    apply Qcle_antisym; assumption.
  - assert (z = Qc_of_Z 5) as -> by (apply Qcle_antisym; assumption).
    destruct (Qclt_le_dec (Q2Qc (1 # 10)) (Qc_of_Z 5)) as [H1|H1]; [reflexivity|].
    apply Qcle_antisym; [exact tenth_le_five|exact H1].
Qed.

Lemma clampZoom_idempotent z : clampZoom (clampZoom z) = clampZoom z.
Proof. destruct (clampZoom_bounds z). apply clampZoom_in_range; assumption. Qed.

Lemma setZoom_clampZoom z state : setZoom (clampZoom z) state = setZoom z state.
Proof.
  unfold setZoom. f_equal. exact (clampZoom_idempotent z).
Qed.

(** X21. [setZoom] keeps the zoom factor between 0.1 and 5 whatever it
    is asked for, stores a factor in that range unchanged, and touches no
    other part of the store (the layers stay, nothing is marked as
    changed). *)
Theorem setZoom_clamps (z : Qc) (state : State) :
  (Q2Qc (1 # 10) <= zoom (setZoom z state) <= Qc_of_Z 5)%Qc /\
  ((Q2Qc (1 # 10) <= z <= Qc_of_Z 5)%Qc -> zoom (setZoom z state) = z) /\
  layers (setZoom z state) = layers state /\
  activeLayerId (setZoom z state) = activeLayerId state /\
  hasUnsavedChanges (setZoom z state) = hasUnsavedChanges state /\
  panOffset (setZoom z state) = panOffset state.
Proof.
  split; [exact (clampZoom_bounds z)|]. split.
  - intros [Hlo Hhi]. exact (clampZoom_in_range z Hlo Hhi).
  - repeat split.
Qed.

(** X22. The wheel handler of the canvas does what the header's zoom
    buttons do: with Ctrl or Meta held, wheel-down is "zoom out" and any
    other wheel event "zoom in" (the clamp it applies itself is the one
    [setZoom] applies again); without the modifier the store is left
    alone. *)
Theorem handleWheel_is_zoom_button (e : WheelEvent) (state : State) :
  (ctrlKey e || metaKey e = true ->
   handleWheel e state
   = if Qclt_le_dec 0%Qc (deltaY e) then zoomOut state else zoomIn state) /\
  (ctrlKey e || metaKey e = false -> handleWheel e state = state).
Proof.
  unfold handleWheel. split; intros Hmod; rewrite Hmod; [|reflexivity].
  cbv zeta. unfold zoomOut, zoomIn.
  destruct (Qclt_le_dec 0%Qc (deltaY e)).
  - rewrite <- (setZoom_clampZoom (zoom state - Q2Qc (1 # 10))%Qc). reflexivity.
  - rewrite <- (setZoom_clampZoom (zoom state + Q2Qc (1 # 10))%Qc). reflexivity.
Qed.

End ZoomFacts.

Lemma setZoom_clamps_witness :
  LayerStore.zoom (EditorStore.setZoom (Qc_of_Z 2) (sampleStore [layerA] VNull "select"))
  = Qc_of_Z 2.
Proof.
  destruct (setZoom_clamps (Qc_of_Z 2) (sampleStore [layerA] VNull "select")) as (_ & H & _).
  apply H. split; vm_compute; discriminate.
Defined.

Lemma handleWheel_is_zoom_button_witness :
  let e := {| Zoom.ctrlKey := true; Zoom.metaKey := false; Zoom.deltaY := Qc_of_Z 120 |} in
  Zoom.handleWheel e (sampleStore [layerA] VNull "select")
  = Zoom.zoomOut (sampleStore [layerA] VNull "select").
Proof.
  intros e.
  destruct (handleWheel_is_zoom_button e (sampleStore [layerA] VNull "select")) as [H _].
  rewrite (H eq_refl). reflexivity.
Defined.

(** *** The blank canvas *)

Section InitFacts.
Import Canvas2D Canvas2DMore LayerStore EditorStore.
Context {E : Engine} {L : EngineLaws E}.
Local Arguments Obj.get : simpl never.

Lemma createWhiteCanvas_lookup w h p c :
  p < w * h -> c < 4 -> data (createWhiteCanvas w h) !! (4 * p + c) = Some 255%Z.
Proof.
  intros Hp Hc. unfold createWhiteCanvas, toDataURL, getImageData. cbn [data].
  rewrite straight_lookup by assumption.
  unfold fillRect. cbn [pixels createCanvas canvas_width globalAlpha globalCompositeOperation].
  rewrite list_lookup_imap, lookup_replicate_2 by assumption.
  cbn [fmap option_fmap option_map mbind option_bind].
  destruct (position_in_image w h p Hp) as (Hx & Hy & _).
  rewrite decide_True by lia.
  rewrite (opaque_pixel_roundtrip 255 255 255) by lia.
  destruct c as [|[|[|[|c]]]]; try lia; reflexivity.
Qed.

(** X23. The canvas is initialised once: on an empty store
    [initializeCanvas] creates the single layer ['layer-background'],
    selects it, and gives it an image of the requested size in which
    every byte is 255 (opaque white); on a store that has layers --
    for instance after the first initialisation -- it changes
    nothing. *)
Theorem initializeCanvas_once (w h : nat) (state : State) :
  (layers state = [] ->
   exists bg png,
     layers (initializeCanvas w h state) = [bg] /\
     activeLayerId (initializeCanvas w h state) = VStr "layer-background" /\
     Obj.get bg "id" = VStr "layer-background" /\
     Obj.get bg "order" = VNum 0 /\
     Obj.get bg "image_base64" = VImage png /\
     width png = w /\ height png = h /\
     (forall p, p < w * h -> gray_pixel png p 255)) /\
  (layers state <> [] -> initializeCanvas w h state = state) /\
  initializeCanvas w h (initializeCanvas w h state) = initializeCanvas w h state.
Proof.
  split; [|split].
  - intros Hempty. unfold initializeCanvas. rewrite Hempty.
    rewrite decide_True by reflexivity. cbv zeta. cbn [layers activeLayerId].
    eexists _, (createWhiteCanvas w h).
    split; [reflexivity|]. split; [vm_compute; reflexivity|].
    split; [vm_compute; reflexivity|]. split; [vm_compute; reflexivity|].
    split.
    { unfold Obj.get, Obj.spread.
      rewrite lookup_union_l' by (rewrite lookup_singleton_eq; eauto).
      rewrite lookup_singleton_eq. reflexivity. }
    split; [reflexivity|]. split; [reflexivity|].
    intros p Hp. unfold gray_pixel, red_at, green_at, blue_at, alpha_at.
    rewrite <- (Nat.add_0_r (4 * p)) at 1.
    rewrite !createWhiteCanvas_lookup by (assumption || lia). auto.
  - intros Hne. unfold initializeCanvas.
    destruct (layers state); [contradiction|]. rewrite decide_False by discriminate.
    reflexivity.
  - unfold initializeCanvas at 1.
    destruct (decide (length (layers (initializeCanvas w h state)) = 0)) as [H0|]; [|reflexivity].
    exfalso. revert H0. unfold initializeCanvas.
    destruct (decide (length (layers state) = 0)); cbn [layers length]; intros; lia.
Qed.

End InitFacts.

Lemma initializeCanvas_once_witness :
  exists bg png,
    LayerStore.layers (EditorStore.initializeCanvas (E := ReferenceEngine.engine) 2 2
                         (sampleStore [] VNull "select")) = [bg] /\
    Obj.get bg "image_base64" = VImage png /\
    gray_pixel png 3 255.
Proof.
  destruct (initializeCanvas_once (E := ReferenceEngine.engine) (L := reference_engine_laws)
              2 2 (sampleStore [] VNull "select")) as (H & _).
  destruct (H eq_refl) as (bg & png & Hl & _ & _ & _ & Hi & _ & _ & Hpx).
  exists bg, png. split; [exact Hl|]. split; [exact Hi|]. apply Hpx. lia.
Defined.

(** *** Undo and redo *)

Section HistoryFacts.
Import EditorStore.

Lemma at_index_in_range {A} (arr : list A) (i : Z) :
  (0 <= i < Z.of_nat (length arr))%Z -> is_Some (at_index arr i).
Proof.
  intros Hi. unfold at_index.
  destruct (i <? 0)%Z eqn:Hneg; [lia|]. apply lookup_lt_is_Some_2. lia.
Qed.

Lemma slice_to_prefix {A} (arr : list A) (e : Z) :
  (0 <= e <= Z.of_nat (length arr))%Z -> slice_to arr e = take (Z.to_nat e) arr.
Proof.
  intros He. unfold slice_to, Array.actualStart.
  destruct (e <? 0)%Z eqn:Hneg; [lia|]. f_equal. lia.
Qed.

(** X24. The history index always points at a stored snapshot:
    [pushHistory], [undo] and [redo] keep -1 <= historyIndex <
    history.length, and [undo] / [redo] never assign [undefined] to
    [layers]. *)
Theorem history_index_stays_in_range (snapshot : list Layer) (s : Timeline) :
  timeline_ok s ->
  timeline_ok (pushHistory snapshot s) /\ timeline_ok (undo s) /\ timeline_ok (redo s).
Proof.
  intros [Hidx Hcur]. split; [|split].
  - unfold timeline_ok, pushHistory. cbn [historyIndex history current].
    rewrite slice_to_prefix by lia.
    rewrite length_app, length_take. cbn [length]. split; [lia|assumption].
  - unfold undo. destruct (0 <? historyIndex s)%Z eqn:H0; [|split; assumption].
    unfold timeline_ok. cbn [historyIndex history current].
    split; [lia|]. apply at_index_in_range. lia.
  - unfold redo.
    destruct (historyIndex s <? Z.of_nat (length (history s)) - 1)%Z eqn:H0;
      [|split; assumption].
    unfold timeline_ok. cbn [historyIndex history current].
    split; [lia|]. apply at_index_in_range. lia.
Qed.

(** X25. Pushing a snapshot throws the redo tail away and leaves the
    index on the new snapshot, so that [redo] has nothing to do; [undo]
    then goes back to the snapshot before it, if there is one -- with a
    single snapshot in the history [undo] does nothing at all. *)
Theorem pushHistory_then_redo_undo (snapshot : list Layer) (s : Timeline) :
  timeline_ok s ->
  let s' := pushHistory snapshot s in
  history s' = take (Z.to_nat (historyIndex s + 1)) (history s) ++ [snapshot] /\
  at_index (history s') (historyIndex s') = Some snapshot /\
  redo s' = s' /\
  (historyIndex s = -1 -> undo s' = s')%Z /\
  (0 <= historyIndex s ->
   historyIndex (undo s') = historyIndex s /\
   current (undo s') = at_index (history s) (historyIndex s))%Z.
Proof.
  intros [Hidx Hcur] s'.
  assert (Hh : history s' = take (Z.to_nat (historyIndex s + 1)) (history s) ++ [snapshot]).
  { unfold s', pushHistory. cbn [history]. rewrite slice_to_prefix by lia. reflexivity. }
  assert (Hlen : length (history s') = Z.to_nat (historyIndex s + 1) + 1).
  { rewrite Hh, length_app, length_take. cbn [length]. lia. }
  assert (Hi : historyIndex s' = (historyIndex s + 1)%Z) by reflexivity.
  split; [exact Hh|]. split; [|split; [|split]].
  - unfold at_index. rewrite Hi. destruct (historyIndex s + 1 <? 0)%Z eqn:Hneg; [exfalso; lia|].
    rewrite Hh, lookup_app_r by (rewrite length_take; lia).
    rewrite length_take. replace (_ - _) with 0 by lia. reflexivity.
  - unfold redo. rewrite Hlen, Hi.
    destruct (_ <? _)%Z eqn:Hlt; [exfalso; apply Z.ltb_lt in Hlt; lia|reflexivity].
  - intros Hm. unfold undo. rewrite Hi.
    destruct (0 <? _)%Z eqn:Hlt; [exfalso; apply Z.ltb_lt in Hlt; lia|reflexivity].
  - intros Hge. unfold undo. rewrite Hi.
    destruct (0 <? _)%Z eqn:Hlt; [|exfalso; apply Z.ltb_ge in Hlt; lia].
    cbn [historyIndex current history]. split; [lia|].
    replace (historyIndex s + 1 - 1)%Z with (historyIndex s) by lia.
    unfold at_index. destruct (historyIndex s <? 0)%Z eqn:Hneg; [exfalso; lia|].
    rewrite Hh, lookup_app_l by (rewrite length_take; lia).
    rewrite lookup_take_lt by lia. reflexivity.
Qed.

End HistoryFacts.

Lemma history_index_stays_in_range_witness :
  timeline_ok (EditorStore.undo
                 (EditorStore.pushHistory [layerA] (EditorStore.initialTimeline []))).
Proof.
  assert (H0 : timeline_ok (EditorStore.initialTimeline [])).
  { split; [cbn; lia|eexists; reflexivity]. }
  destruct (history_index_stays_in_range [layerA] _ H0) as (H1 & _).
  exact (proj1 (proj2 (history_index_stays_in_range [] _ H1))).
Defined.

Lemma pushHistory_then_redo_undo_witness :
  let s' := EditorStore.pushHistory [layerA] (EditorStore.initialTimeline []) in
  EditorStore.redo s' = s' /\ EditorStore.undo s' = s'.
Proof.
  intros s'.
  assert (H0 : timeline_ok (EditorStore.initialTimeline [])).
  { split; [cbn; lia|eexists; reflexivity]. }
  destruct (pushHistory_then_redo_undo [layerA] _ H0) as (_ & _ & Hr & Hu & _).
  split; [exact Hr|exact (Hu eq_refl)].
Defined.

(** *** Export, continued *)

Section ExportMoreFacts.
Import Canvas2D Header LayerStore LayerButtons.
Context {E : Engine} {P : EngineLawsPlus E}.
Local Arguments Obj.get : simpl never.

(** X26. The layer "Add Layer" creates is empty, and an empty layer
    does not take part in the export: exporting right after adding one
    gives what exporting before gave. *)
Theorem export_ignores_added_empty_layer (now : Z) (state : State) :
  handleExport (layers (handleAddLayer now state)) = handleExport (layers state).
Proof.
  unfold handleExport, handleAddLayer, addLayer. cbn [layers].
  rewrite List.filter_app. cbn [List.filter].
  match goal with
  | |- context [Obj.truthy (Obj.get ?l "image_base64")] =>
      assert (Hempty : Obj.get l "image_base64" = VStr "") by reflexivity;
      rewrite Hempty
  end.
  cbn [Obj.truthy String.eqb negb]. rewrite andb_false_r, app_nil_r. reflexivity.
Qed.

Lemma drawLayers_app (a b : list Layer) : forall ctx,
  drawLayers (a ++ b) ctx = drawLayers a ctx ≫= drawLayers b.
Proof.
  induction a as [|l a IH]; intros ctx; [reflexivity|].
  cbn [app drawLayers].
  destruct (CanvasView.decode (Obj.get l "image_base64")); [apply IH|reflexivity].
Qed.

Lemma drawLayers_decodable (ls : list Layer) : forall ctx,
  Forall (fun l => is_Some (CanvasView.decode (Obj.get l "image_base64"))) ls ->
  exists c, drawLayers ls ctx = Some c /\
            canvas_width c = canvas_width ctx /\ canvas_height c = canvas_height ctx /\
            length (pixels c) = length (pixels ctx).
Proof.
  induction ls as [|l ls IH]; intros ctx Hall.
  - exists ctx. auto.
  - apply Forall_cons in Hall as [[img Himg] Hall]. cbn [drawLayers]. rewrite Himg.
    edestruct IH as (c & Hc & Hw & Hh & Hlen); [exact Hall|].
    exists c. split; [exact Hc|].
    rewrite Hw, Hh, Hlen. cbn [drawImage canvas_width canvas_height pixels
                                set_globalCompositeOperation set_globalAlpha].
    rewrite length_imap. auto.
Qed.

Lemma drawLayers_undecodable (ls : list Layer) (bad : Layer) : forall ctx,
  In bad ls -> CanvasView.decode (Obj.get bad "image_base64") = None ->
  drawLayers ls ctx = None.
Proof.
  induction ls as [|l ls IH]; intros ctx Hin Hbad; [contradiction|].
  cbn [drawLayers]. destruct Hin as [->|Hin].
  - rewrite Hbad. reflexivity.
  - destruct (CanvasView.decode (Obj.get l "image_base64")); [|reflexivity].
    apply IH; assumption.
Qed.

(** Drawing an opaque image of the canvas's size, at full opacity and
    with normal blending, leaves that image on the canvas. *)
Lemma draw_opaque_top (top : Layer) (img : ImageData) ctx :
  CanvasView.decode (Obj.get top "image_base64") = Some img ->
  wf_image img -> opaque img ->
  opacityOr1 top = VNum 1 -> Obj.get top "blend_mode" = VStr "normal" ->
  canvas_width ctx = width img -> canvas_height ctx = height img ->
  length (pixels ctx) = width img * height img ->
  exists c, drawLayers [top] ctx = Some c /\
    toDataURL (set_globalCompositeOperation (VStr "source-over") (set_globalAlpha (VNum 1) c))
    = img.
Proof.
  intros Hdec Hwf Hop Halpha Hblend Hw Hh Hlen.
  cbn [drawLayers]. rewrite Hdec, Halpha, Hblend.
  eexists. split; [reflexivity|].
  unfold toDataURL, getImageData.
  cbn [canvas_width canvas_height pixels set_globalCompositeOperation set_globalAlpha drawImage
       globalAlpha globalCompositeOperation].
  rewrite valid_alpha_1. unfold Obj.strict_eq. rewrite bool_decide_eq_true_2 by reflexivity.
  rewrite valid_source_over.
  apply image_ext; cbn [width height data]; [assumption|assumption|].
  apply (flat_ext _ _ (width img * height img)).
  - rewrite straight_length, length_imap. lia.
  - apply Hwf.
  - intros p c Hp Hc. rewrite straight_lookup by assumption.
    rewrite list_lookup_imap.
    destruct (lookup_lt_is_Some_2 (pixels ctx) p ltac:(lia)) as [d Hd]. rewrite Hd.
    cbn [fmap option_fmap option_map mbind option_bind].
    rewrite Hw. destruct (position_in_image _ _ p Hp) as (Hx & Hy & Hpos).
    rewrite decide_True by auto. rewrite Hpos.
    destruct (opaque_pixelOf img p Hwf Hop Hp) as (r & g & b & Hr & Hg & Hb & Hpx & Hbytes).
    rewrite Hpx, source_over_opaque, Hbytes by assumption.
    unfold straight; cbn [red green blue alpha].
    rewrite !unpremultiply_255 by assumption. reflexivity.
Qed.

(** X27. An opaque top layer of the size of the canvas hides everything
    below it in the export: whatever the layers underneath hold and
    however they are blended, the file exported is the top layer's
    image. *)
Theorem export_of_opaque_top_layer (layers : list Layer) (below : list Layer)
        (top : Layer) (img : ImageData) :
  Array.sort CanvasView.byOrderAsc (List.filter exported layers) = below ++ [top] ->
  Forall (fun l => exists png, CanvasView.decode (Obj.get l "image_base64") = Some png /\
                               width png = width img /\ height png = height img) below ->
  CanvasView.decode (Obj.get top "image_base64") = Some img ->
  wf_image img -> opaque img ->
  opacityOr1 top = VNum 1 -> Obj.get top "blend_mode" = VStr "normal" ->
  handleExport layers = Downloaded img.
Proof.
  intros Hsorted Hbelow Hdec Hwf Hop Halpha Hblend.
  unfold handleExport. fold exported. rewrite Hsorted.
  assert (Hdraw : forall ctx,
            canvas_width ctx = width img -> canvas_height ctx = height img ->
            length (pixels ctx) = width img * height img ->
            exists c, drawLayers (below ++ [top]) ctx = Some c /\
              toDataURL (set_globalCompositeOperation (VStr "source-over")
                           (set_globalAlpha (VNum 1) c)) = img).
  { intros ctx Hw Hh Hlen. rewrite drawLayers_app.
    destruct (drawLayers_decodable below ctx) as (c0 & Hc0 & Hw0 & Hh0 & Hlen0).
    { eapply Forall_impl; [exact Hbelow|]. intros l (png & Hpng & _). eauto. }
    rewrite Hc0. cbn [mbind option_bind].
    apply draw_opaque_top; try assumption; congruence. }
  destruct below as [|first rest].
  - cbn [app]. rewrite Hdec.
    destruct (Hdraw (createCanvas (width img) (height img))) as (c & Hc & Hout);
      [reflexivity|reflexivity|apply length_replicate|].
    cbn [app] in Hc. rewrite Hc, Hout. reflexivity.
  - cbn [app]. pose proof Hbelow as Hfirst.
    apply Forall_cons in Hfirst as [(png & Hpng & Hpw & Hph) _]. rewrite Hpng.
    destruct (Hdraw (createCanvas (width png) (height png))) as (c & Hc & Hout);
      [exact Hpw|exact Hph|
       cbn [createCanvas pixels]; rewrite length_replicate, Hpw, Hph; reflexivity|].
    cbn [app] in Hc. rewrite Hc, Hout. reflexivity.
Qed.

(** X28. The export waits for ever as soon as one visible layer holds
    something that is not an image: its [onload] never fires, no error
    handler is installed, and the promise awaited in the loop stays
    pending -- nothing is downloaded, and nothing is reported. *)
Theorem export_never_settles_on_undecodable_layer (layers : list Layer) (bad : Layer) :
  In bad layers ->
  Obj.truthy (Obj.get bad "visible") = true ->
  Obj.truthy (Obj.get bad "image_base64") = true ->
  CanvasView.decode (Obj.get bad "image_base64") = None ->
  handleExport layers = NeverSettles.
Proof.
  intros Hin Hvis Himg Hdec. unfold handleExport.
  set (f := fun l : Layer => _).
  assert (Hbad : In bad (Array.sort CanvasView.byOrderAsc (List.filter f layers))).
  { apply list_elem_of_In. rewrite sort_Permutation. apply list_elem_of_In.
    apply filter_In. split; [exact Hin|]. unfold f. rewrite Hvis, Himg. reflexivity. }
  destruct (Array.sort CanvasView.byOrderAsc (List.filter f layers)) as [|first rest] eqn:Hs;
    [contradiction|].
  destruct (CanvasView.decode (Obj.get first "image_base64")); [|reflexivity].
  rewrite (drawLayers_undecodable _ bad _ Hbad Hdec). reflexivity.
Qed.

End ExportMoreFacts.

Lemma export_of_opaque_top_layer_witness :
  Header.handleExport (E := ReferenceEngine.engine) [layerB; layerHidden; layerA]
  = Header.Downloaded photo.
Proof.
  apply (export_of_opaque_top_layer (E := ReferenceEngine.engine)
           (P := reference_engine_laws_plus)
           [layerB; layerHidden; layerA] [layerA] layerB photo).
  - vm_compute. reflexivity.
  - repeat constructor. exists photo. repeat split.
  - reflexivity.
  - exact wf_photo.
  - exact opaque_photo.
  - vm_compute. reflexivity.
  - vm_compute. reflexivity.
Defined.

(** A visible layer whose content is text, not a PNG. *)
Lemma export_never_settles_on_undecodable_layer_witness :
  Header.handleExport (E := ReferenceEngine.engine)
    [layerA; sampleLayer "layer-t" 1 (VStr "not a png")]
  = Header.NeverSettles.
Proof.
  apply (export_never_settles_on_undecodable_layer (E := ReferenceEngine.engine)
           [layerA; sampleLayer "layer-t" 1 (VStr "not a png")]
           (sampleLayer "layer-t" 1 (VStr "not a png"))).
  - right. left. reflexivity.
  - vm_compute. reflexivity.
  - vm_compute. reflexivity.
  - vm_compute. reflexivity.
Defined.

(** *** The canvas: selecting and panning *)

Section PointerFacts.
Import LayerStore EditorStore CanvasView CanvasMove.
Context {P : Painter}.
Local Arguments Obj.get : simpl never.

Lemma find_reverse_last {A} (p : A -> bool) (below : list A) (top : A) :
  p top = true -> Array.find p (reverse (below ++ [top])) = Some top.
Proof.
  intros Hp. rewrite reverse_app. cbn [reverse app Array.find]. 
  change (reverse [top]) with [top]. cbn [app Array.find]. rewrite Hp. reflexivity.
Qed.

Lemma visibleLayers_visible state l :
  In l (visibleLayers state) -> Obj.truthy (Obj.get l "visible") = true.
Proof.
  unfold visibleLayers. intros Hin.
  apply list_elem_of_In in Hin. rewrite sort_Permutation in Hin.
  apply list_elem_of_In, filter_In in Hin. apply Hin.
Qed.

(** X29. With the select tool, a primary click anywhere on the canvas
    activates the topmost visible layer -- the visible layer of highest
    [order] -- wherever the click lands and whatever that layer shows
    there; nothing else in the store or the component changes. *)
Theorem select_click_activates_top_visible_layer (e : MouseEvent) (state : State)
        (c : Component) (below : list Layer) (top : Layer) :
  activeTool state = "select" -> button e = 0%Z ->
  (0 <= fst (getCanvasCoords e state c))%Qc ->
  (fst (getCanvasCoords e state c) <= ofNat (fst (canvasSize c)))%Qc ->
  (0 <= snd (getCanvasCoords e state c))%Qc ->
  (snd (getCanvasCoords e state c) <= ofNat (snd (canvasSize c)))%Qc ->
  visibleLayers state = below ++ [top] ->
  handleMouseDown e (state, c) = (setActiveLayerId (Obj.get top "id") state, c).
Proof.
  intros Htool Hbtn Hx0 Hx1 Hy0 Hy1 Hvis.
  assert (Htop : Obj.truthy (Obj.get top "visible") = true).
  { apply (visibleLayers_visible state). rewrite Hvis. apply in_or_app. right. left. reflexivity. }
  unfold handleMouseDown. rewrite Htool, Hbtn.
  rewrite (bool_decide_eq_false_2 ("select" = "move")) by discriminate.
  rewrite (bool_decide_eq_false_2 (0 = 1)%Z) by discriminate.
  rewrite (bool_decide_eq_true_2 ("select" = "select")) by reflexivity.
  rewrite (bool_decide_eq_true_2 (0 = 0)%Z) by reflexivity.
  cbn [orb andb]. cbv zeta.
  rewrite !bool_decide_eq_true_2 by assumption. cbn [andb].
  rewrite Hvis, (find_reverse_last _ below top Htop). reflexivity.
Qed.

(** X30. Dragging with the move tool (or the middle button): the
    press records the drag start (pointer position minus pan offset),
    and every move sets the pan offset to the pointer position minus
    that drag start. The offset after a move therefore depends on the
    press and on that move only: a move to [e3] after a move to [e2]
    leaves the store as a move to [e3] alone does, the moves do not
    accumulate. Layers and selection are untouched. (Stated with the
    handlers' own subtractions, in their order; no identity of
    arithmetic is used.) *)
Theorem drag_pan_depends_on_press_and_pointer (e1 e2 e3 : MouseEvent) (state : State)
        (c : Component) :
  activeTool state = "move" \/ button e1 = 1%Z ->
  exists c1,
    handleMouseDown e1 (state, c) = (state, c1) /\
    dragStart c1 = (clientX e1 - fst (panOffset state), clientY e1 - snd (panOffset state))%Qc /\
    handleMouseMove e2 (state, c1) = Moved (panned e1 e2 state, c1) /\
    handleMouseMove e3 (panned e1 e2 state, c1) = Moved (panned e1 e3 state, c1) /\
    handleMouseMove e3 (panned e1 e2 state, c1) = handleMouseMove e3 (state, c1) /\
    layers (panned e1 e3 state) = layers state /\
    activeLayerId (panned e1 e3 state) = activeLayerId state.
Proof.
  intros Hdrag.
  assert (Hcond : bool_decide (activeTool state = "move") || bool_decide (button e1 = 1%Z) = true).
  { destruct Hdrag as [H|H].
    - rewrite (bool_decide_eq_true_2 _ H). reflexivity.
    - rewrite (bool_decide_eq_true_2 _ H). apply orb_true_r. }
  eexists. split.
  { unfold handleMouseDown. rewrite Hcond. reflexivity. }
  repeat split.
Qed.

End PointerFacts.

Lemma visibleLayers_sample :
  CanvasView.visibleLayers (sampleStore [layerB; layerHidden; layerC] VNull "select")
  = [layerB] ++ [layerC].
Proof. vm_compute. reflexivity. Qed.

Lemma select_click_activates_top_visible_layer_witness :
  CanvasView.handleMouseDown press
    (sampleStore [layerB; layerHidden; layerC] VNull "select", idle blankOverlay)
  = (LayerStore.setActiveLayerId (VStr "layer-c")
       (sampleStore [layerB; layerHidden; layerC] VNull "select"),
     idle blankOverlay).
Proof.
  apply (select_click_activates_top_visible_layer press
           (sampleStore [layerB; layerHidden; layerC] VNull "select") (idle blankOverlay)
           [layerB] layerC eq_refl eq_refl).
  - vm_compute. discriminate.
  - vm_compute. discriminate.
  - vm_compute. discriminate.
  - vm_compute. discriminate.
  - exact visibleLayers_sample.
Defined.

Lemma drag_pan_depends_on_press_and_pointer_witness :
  let painter := {| CanvasMove.strokeLine := fun _ _ _ b => data b;
                    CanvasMove.strokeRect := fun _ _ _ _ b => data b;
                    CanvasMove.strokeEllipse := fun _ _ _ _ b => data b |} in
  let state := sampleStore [layerA] VNull "move" in
  exists c1,
    CanvasView.handleMouseDown press (state, idle blankOverlay) = (state, c1) /\
    CanvasMove.handleMouseMove (P := painter) press (state, c1)
    = CanvasMove.Moved (panned press press state, c1).
Proof.
  intros painter state.
  destruct (drag_pan_depends_on_press_and_pointer (P := painter) press press press state
              (idle blankOverlay) (or_introl eq_refl)) as (c1 & H1 & _ & H2 & _).
  exists c1. split; assumption.
Defined.

